(** * InstanceSegMetric: the mmdet3d adapter around mmeval's InstanceSeg

    Shallow embedding of
    [mmdet3d/evaluation/metrics/instance_seg_metric.py]: the constructor,
    [process] and [evaluate] of [InstanceSegMetric], together with the
    fragments of the Python runtime and of the libraries the three methods
    call (dictionaries, [warnings.warn] with its filters, array-like
    values and their [clone], [cpu], [to], [numpy] methods, the ['.4f']
    format, [AsciiTable]). *)

From Stdlib Require Import String Ascii ZArith Bool Lia List.
From Stdlib Require Import Floats.SpecFloat.
Import ListNotations.
Open Scope string_scope.
Open Scope list_scope.

(** ** Python runtime fragments *)

Module Py.

(** The warning categories: [warnings.warn(message)] without a category
    issues a [UserWarning]; [DeprecationWarning] is another class. *)
Inductive category : Type := UserWarning | DeprecationWarning.

(** The exceptions the modelled code can raise.  [Warned c text] is a
    warning raised as an exception: an instance of the class [c] whose
    text is [text]. *)
Inductive exn : Type :=
| KeyError (key : string)
| AttributeError (attr : string)
| TypeError (msg : string)
| RuntimeError (msg : string)
| Warned (c : category) (text : string).

(** Outcome of a call: a value, or a raised exception. *)
Inductive res (A : Type) : Type :=
| Ok (a : A)
| Raise (e : exn).
Arguments Ok {A} a.
Arguments Raise {A} e.

(** A [dict] with string keys, as the list of its items in insertion
    order.  A dictionary never holds a key twice: [keys_unique]. *)
Definition dict (V : Type) : Type := list (string * V).

Definition keys {V : Type} (d : dict V) : list string := map fst d.

Fixpoint mem (k : string) (ks : list string) : bool :=
  match ks with
  | [] => false
  | k' :: rest => if String.eqb k k' then true else mem k rest
  end.

Fixpoint keys_unique_list (ks : list string) : bool :=
  match ks with
  | [] => true
  | k :: rest => negb (mem k rest) && keys_unique_list rest
  end.

Definition keys_unique {V : Type} (d : dict V) : bool :=
  keys_unique_list (keys d).

(** [d.get(k)]: the value stored under [k], if any. *)
Fixpoint get {V : Type} (k : string) (d : dict V) : option V :=
  match d with
  | [] => None
  | (k', v) :: rest => if String.eqb k k' then Some v else get k rest
  end.

(** [d[k] = v]: an existing key keeps its position, a new key goes last. *)
Fixpoint setitem {V : Type} (k : string) (v : V) (d : dict V) : dict V :=
  match d with
  | [] => [(k, v)]
  | (k', v') :: rest =>
      if String.eqb k k' then (k', v) :: rest
      else (k', v') :: setitem k v rest
  end.

End Py.
Export Py.

(** ** Array storage, array-like values and the interpreter state *)

Inductive device : Type := CPU | CUDA.

(** A block of array memory: where it lives and the numbers it holds. *)
Record storage : Type := Storage {
  st_device : device;
  st_data : list Z
}.

(** The four methods [process] invokes on field values. *)
Inductive method : Type := m_clone | m_cpu | m_to | m_numpy.

(** An array-like field value, duck-typed: [o_clone], [o_cpu], [o_to] and
    [o_numpy] say which of the four attributes the object has
    ([hasattr]).  A [torch.Tensor] has all four; a [numpy.ndarray] has
    none of them.  [o_loc] is the storage the object views.  [o_refuse]
    is the exception [numpy()] raises on the object once it is in host
    memory, if it raises one: [TypeError] for a layout or a dtype that
    numpy does not have (a sparse tensor, [torch.bfloat16]),
    [RuntimeError] for a tensor that requires grad while grad mode is
    enabled, for one with the conjugate bit set; [None] for a tensor
    [numpy()] accepts, such as a tensor that requires grad under
    [torch.no_grad()].  Copies of the object are of the same kind. *)
Record obj : Type := Obj {
  o_loc : nat;
  o_refuse : option exn;
  o_clone : bool;
  o_cpu : bool;
  o_to : bool;
  o_numpy : bool
}.

(** The same kind of object viewing another storage. *)
Definition at_loc (v : obj) (l : nat) : obj :=
  Obj l (o_refuse v) (o_clone v) (o_cpu v) (o_to v) (o_numpy v).

(** A [numpy.ndarray] viewing a storage in host memory. *)
Record ndarray : Type := NdArray { a_loc : nat }.

(** One method invocation: the method and the storage of its receiver. *)
Record call : Type := Call {
  c_method : method;
  c_recv : nat
}.

(** A sample record field by field, and its converted form. *)
Definition fields : Type := dict obj.
Definition sample : Type := dict fields.
Definition converted : Type := dict ndarray.

(** A warning as the [warnings] module sees it: its text, its category
    and the source line of the call of [warnings.warn]. *)
Record warning : Type := Warning {
  wn_text : string;
  wn_category : category;
  wn_lineno : nat
}.

(** The actions of warning filters. *)
Inductive action : Type :=
| act_error
| act_ignore
| act_always
| act_default
| act_module
| act_once.

(** A key of the module's [__warningregistry__]:
    [(text, category, lineno)], or [(text, category)], the key recorded
    under the actions ["module"] and ["once"]. *)
Definition regkey : Type := (string * category * option nat)%type.

(** Everything the three methods read or write: the array memory [heap]
    (a storage is addressed by its index), the method calls received by
    array-likes so far (oldest first), the state of the [warnings] module,
    the messages handed to the logger, and [self._results], the
    Accumulated Results of the base metric.

    The state of the [warnings] module is [filters], [registry] and
    [warned].  [filters w x] is the action the filters in force select
    for a warning [x] issued from this module: the action of the first
    entry of [warnings.filters] that matches it, [warnings.defaultaction]
    when none does.  [registry] holds the keys of the module's
    [__warningregistry__] that are valid for the filters in force (a
    change of the filters empties the registry at the next warning; the
    modelled code does not change them), and [warned] the warnings that
    have been shown (handed to [showwarning]), oldest first. *)
Record world : Type := World {
  heap : list storage;
  calls : list call;
  filters : warning -> action;
  registry : list regkey;
  warned : list warning;
  logged : list string;
  results : list (converted * converted)
}.

(** Computations: read and update the [world], return or raise.  The
    world reached is kept when an exception is raised. *)
Definition M (A : Type) : Type := world -> res A * world.

Definition ret {A : Type} (a : A) : M A := fun w => (Ok a, w).

Definition raise {A : Type} (e : exn) : M A := fun w => (Raise e, w).

Definition bind {A B : Type} (m : M A) (k : A -> M B) : M B :=
  fun w =>
    match m w with
    | (Ok a, w') => k a w'
    | (Raise e, w') => (Raise e, w')
    end.

Notation "x <- m ;; k" := (bind m (fun x => k))
  (at level 61, m at next level, right associativity).
Notation "m ;;; k" := (bind m (fun _ => k))
  (at level 61, right associativity).

(** [d[k]] on a sample record: [KeyError] when the key is missing. *)
Definition getitem {V : Type} (k : string) (d : dict V) : M V :=
  match get k d with
  | Some v => ret v
  | None => raise (KeyError k)
  end.

Definition set_heap (h : list storage) (w : world) : world :=
  World h (calls w) (filters w) (registry w) (warned w) (logged w) (results w).

Definition set_calls (c : list call) (w : world) : world :=
  World (heap w) c (filters w) (registry w) (warned w) (logged w) (results w).

Definition set_registry (g : list regkey) (w : world) : world :=
  World (heap w) (calls w) (filters w) g (warned w) (logged w) (results w).

Definition set_warned (l : list warning) (w : world) : world :=
  World (heap w) (calls w) (filters w) (registry w) l (logged w) (results w).

Definition set_logged (l : list string) (w : world) : world :=
  World (heap w) (calls w) (filters w) (registry w) (warned w) l (results w).

Definition set_results (r : list (converted * converted)) (w : world) : world :=
  World (heap w) (calls w) (filters w) (registry w) (warned w) (logged w) r.

(** Read the storage at [l]. *)
Definition load (l : nat) : M storage :=
  fun w =>
    match nth_error (heap w) l with
    | Some s => (Ok s, w)
    | None => (Raise (RuntimeError "invalid storage"), w)
    end.

(** Allocate a new storage; existing storages are left as they are. *)
Definition alloc (s : storage) : M nat :=
  fun w => (Ok (length (heap w)), set_heap (heap w ++ [s]) w).

Definition record_call (m : method) (v : obj) : M unit :=
  fun w => (Ok tt, set_calls (calls w ++ [Call m (o_loc v)]) w).

(** ** The methods of array-like values

    [clone], [cpu], [to] and [numpy] are library code.  An attribute that
    is missing raises [AttributeError]; one that is present behaves as the
    method of [torch.Tensor] does: [clone] and a transfer from another
    device allocate, a transfer within host memory returns the receiver,
    [numpy] shares the storage of its receiver; none of them writes to a
    storage that exists. *)

Definition hasattr_to (v : obj) : bool := o_to v.

(** [v.clone()]: a new object of the same kind over a copy of the storage,
    on the same device. *)
Definition clone (v : obj) : M obj :=
  if o_clone v then
    record_call m_clone v ;;;
    s <- load (o_loc v) ;;
    l <- alloc s ;;
    ret (at_loc v l)
  else raise (AttributeError "clone").

(** Transfer to host memory: the receiver itself when it is already there,
    otherwise a copy in host memory. *)
Definition to_host (v : obj) : M obj :=
  s <- load (o_loc v) ;;
  match st_device s with
  | CPU => ret v
  | CUDA =>
      l <- alloc (Storage CPU (st_data s)) ;;
      ret (at_loc v l)
  end.

(** [v.cpu()] *)
Definition cpu (v : obj) : M obj :=
  if o_cpu v then record_call m_cpu v ;;; to_host v
  else raise (AttributeError "cpu").

(** [v.to('cpu')] *)
Definition to_cpu (v : obj) : M obj :=
  if o_to v then record_call m_to v ;;; to_host v
  else raise (AttributeError "to").

(** [v.numpy()]: an array sharing the storage of [v].  The device is
    checked first: an object outside host memory is refused with
    [TypeError]; then the layout, grad, conjugate-bit and dtype checks
    follow, whose outcome for the object is [o_refuse]. *)
Definition numpy (v : obj) : M ndarray :=
  if o_numpy v then
    record_call m_numpy v ;;;
    s <- load (o_loc v) ;;
    match st_device s with
    | CUDA => raise (TypeError "can't convert cuda device type tensor to numpy")
    | CPU =>
        match o_refuse v with
        | Some e => raise e
        | None => ret (NdArray (o_loc v))
        end
    end
  else raise (AttributeError "numpy").

(** ** The base metric (mmeval's [InstanceSeg]) *)

(** Modelled from the spec: [add] of the base metric, whose code is not
    part of these sources.  The Accumulated Results are an ordered
    sequence of (converted prediction, converted ground truth) pairs, and
    [add] appends the pair of every sample. *)
Definition add (pred gt : list converted) : M unit :=
  fun w => (Ok tt, set_results (results w ++ combine pred gt) w).

(** Modelled from the spec: [reset] of the base metric, whose code is not
    part of these sources.  It empties the Accumulated Results. *)
Definition reset : M unit :=
  fun w => (Ok tt, set_results [] w).

(** ** [InstanceSegMetric.process] *)

(** [v.clone().cpu().numpy()], the conversion of the two dict
    comprehensions (lines 56-63). *)
Definition convert_plain (v : obj) : M ndarray :=
  c <- clone v ;;
  h <- cpu c ;;
  numpy h.

(** The body of the second loop over [pred_3d.items()] (lines 65-68). *)
Definition convert_aware (v : obj) : M ndarray :=
  if hasattr_to v then
    t <- to_cpu v ;;
    c <- clone t ;;
    numpy c
  else
    c <- clone v ;;
    numpy c.

(** [for k, v in items: acc[k] = f(v)].  With [acc] empty this is the dict
    comprehension [{k: f(v) for k, v in items}]. *)
Fixpoint store_each (f : obj -> M ndarray) (items : fields) (acc : converted)
  : M converted :=
  match items with
  | [] => ret acc
  | (k, v) :: rest =>
      a <- f v ;;
      store_each f rest (setitem k a acc)
  end.

(** The body of the loop over [data_samples] (lines 54-68): the converted
    prediction and the converted ground truth of one sample. *)
Definition process_sample (data_sample : sample) : M (converted * converted) :=
  pred_3d <- getitem "pred_pts_seg" data_sample ;;
  eval_ann_info <- getitem "eval_ann_info" data_sample ;;
  cpu_pred_3d <- store_each convert_plain pred_3d [] ;;
  cpu_eval_ann_info <- store_each convert_plain eval_ann_info [] ;;
  cpu_pred_3d <- store_each convert_aware pred_3d cpu_pred_3d ;;
  ret (cpu_pred_3d, cpu_eval_ann_info).

(** The loop over [data_samples] with body [body], appending to [pred]
    and [gt] (lines 51-53 and 69-70). *)
Fixpoint for_samples (body : sample -> M (converted * converted))
    (data_samples : list sample) (pred gt : list converted)
  : M (list converted * list converted) :=
  match data_samples with
  | [] => ret (pred, gt)
  | data_sample :: rest =>
      pg <- body data_sample ;;
      for_samples body rest (pred ++ [fst pg]) (gt ++ [snd pg])
  end.

(** [process(self, data_batch, data_samples)].  [data_batch] is a
    parameter of any type: the body never reads it. *)
Definition process {Batch : Type} (data_batch : Batch)
    (data_samples : list sample) : M unit :=
  pg <- for_samples process_sample data_samples [] [] ;;
  add (fst pg) (snd pg).

(** The implementation the design notes ask for, which keeps only the
    capability-aware conversion of the prediction: [process] without the
    dict comprehension over [pred_3d]. *)
Definition process_sample_aware (data_sample : sample)
  : M (converted * converted) :=
  pred_3d <- getitem "pred_pts_seg" data_sample ;;
  eval_ann_info <- getitem "eval_ann_info" data_sample ;;
  cpu_eval_ann_info <- store_each convert_plain eval_ann_info [] ;;
  cpu_pred_3d <- store_each convert_aware pred_3d [] ;;
  ret (cpu_pred_3d, cpu_eval_ann_info).

Definition process_aware {Batch : Type} (data_batch : Batch)
    (data_samples : list sample) : M unit :=
  pg <- for_samples process_sample_aware data_samples [] [] ;;
  add (fst pg) (snd pg).

(** ** [InstanceSegMetric.__init__] *)

(** Values of constructor options: scalars, lists of names, and
    dictionaries of these (the dataset meta information). *)
Inductive atom : Type :=
| ANone
| AStr (s : string)
| AInt (n : Z)
| ABool (b : bool)
| ANames (names : list string).

Inductive pyval : Type :=
| PAtom (a : atom)
| PDict (items : list (string * atom)).

Definition PNone : pyval := PAtom ANone.
Definition PStr (s : string) : pyval := PAtom (AStr s).

Definition of_optional (o : option string) : pyval :=
  match o with
  | None => PNone
  | Some s => PStr s
  end.

(** *** The [warnings] module *)

Definition category_eqb (a b : category) : bool :=
  match a, b with
  | UserWarning, UserWarning | DeprecationWarning, DeprecationWarning => true
  | _, _ => false
  end.

Definition key_eqb (a b : regkey) : bool :=
  String.eqb (fst (fst a)) (fst (fst b))
  && category_eqb (snd (fst a)) (snd (fst b))
  && match snd a, snd b with
     | Some m, Some n => Nat.eqb m n
     | None, None => true
     | _, _ => false
     end.

(** [registry.get(key)] *)
Definition registered (key : regkey) (w : world) : bool :=
  existsb (key_eqb key) (registry w).

(** [registry[key] = 1] *)
Definition register (key : regkey) : M unit :=
  fun w => (Ok tt, set_registry (registry w ++ [key]) w).

(** The warning is shown: written to [sys.stderr], or recorded by
    [catch_warnings(record=True)]. *)
Definition showwarning (x : warning) : M unit :=
  fun w => (Ok tt, set_warned (warned w ++ [x]) w).

(** [warnings.warn(message)] with a text and nothing else, called at
    source line [lineno]: the category is [UserWarning] and the warning is
    attributed to the line on which the call starts.  A warning whose key
    is in the registry is dropped at once.  Otherwise the filters decide:
    ["error"] raises the warning as an exception, ["ignore"] drops it,
    ["always"] shows it; ["default"] shows it and records its key, so
    that it is shown once for that line; ["module"] and ["once"] record
    its key and show it unless its text and category are recorded
    already, and record these. *)
Definition warn (message : string) (lineno : nat) : M unit :=
  let category := UserWarning in
  let x := Warning message category lineno in
  let key := (message, category, Some lineno) in
  let altkey := (message, category, @None nat) in
  fun w =>
    if registered key w then ret tt w
    else
      match filters w x with
      | act_error => raise (Warned category message) w
      | act_ignore => ret tt w
      | act_always => showwarning x w
      | act_default => (register key ;;; showwarning x) w
      | act_module | act_once =>
          (register key ;;;
           fun w' =>
             if registered altkey w' then ret tt w'
             else (register altkey ;;; showwarning x) w') w
      end.

Definition collect_device_message : string :=
  "DeprecationWarning: The `collect_device` parameter of `InstanceSegMetric` is deprecated, use `dist_backend instead.".

Definition prefix_message : string :=
  "DeprecationWarning: The `prefix` parameter of `InstanceSegMetric` is deprecated.".

(** The source lines to which the two calls of [warnings.warn] are
    attributed: the lines on which the calls start (CPython 3.8 and
    later). *)
Definition collect_device_line : nat := 29.
Definition prefix_line : nat := 34.

(** The parameter names of [__init__]; Python binds a keyword argument
    with one of these names to the parameter, so that none of them is a
    key of [**kwargs]. *)
Definition init_parameters : list string :=
  ["dataset_meta"; "dist_backend"; "collect_device"; "prefix"].

Definition kwargs_ok (kwargs : dict pyval) : bool :=
  keys_unique kwargs
  && forallb (fun k => negb (mem k init_parameters)) (keys kwargs).

(** The keyword arguments of the call
    [super().__init__(dataset_meta=..., dist_backend=..., **kwargs)]. *)
Definition forwarded (dataset_meta : dict atom) (dist_backend : option string)
    (kwargs : dict pyval) : dict pyval :=
  ("dataset_meta", PDict dataset_meta)
    :: ("dist_backend", of_optional dist_backend)
    :: kwargs.

(** The warnings the constructor hands to [warnings.warn] for the
    deprecated options it was given, in the order of the calls. *)
Definition deprecation_warnings (collect_device prefix : option string)
  : list warning :=
  (match collect_device with
   | Some _ => [Warning collect_device_message UserWarning collect_device_line]
   | None => []
   end)
    ++ (match prefix with
        | Some _ => [Warning prefix_message UserWarning prefix_line]
        | None => []
        end).

(** One call [warnings.warn(text)] for each warning of the list, at its
    line and in order; a call that raises ends the sequence. *)
Fixpoint issue (xs : list warning) : M unit :=
  match xs with
  | [] => ret tt
  | x :: rest => warn (wn_text x) (wn_lineno x) ;;; issue rest
  end.

Section Init.

(** The instance under construction, and the constructor of the base
    metric, which receives its keyword arguments. *)
Variable Self : Type.
Variable base_init : dict pyval -> M Self.

Definition __init__ (dataset_meta : dict atom)
    (dist_backend collect_device prefix : option string)
    (kwargs : dict pyval) : M Self :=
  (match collect_device with
   | Some _ => warn collect_device_message collect_device_line
   | None => ret tt
   end) ;;;
  (match prefix with
   | Some _ => warn prefix_message prefix_line
   | None => ret tt
   end) ;;;
  base_init (forwarded dataset_meta dist_backend kwargs).

End Init.

(** ** The format specification ['.4f'] on floats

    Python prints the exactly rounded decimal expansion (ties to even) of
    the binary value with four fractional digits, keeps the sign of
    negative values and zeros, and prints the special values as [nan],
    [inf] and [-inf]. *)

Module Fmt.

Definition digit (n : Z) : ascii :=
  ascii_of_nat (48 + Z.to_nat (n mod 10)).

(** Decimal digits of a natural number, most significant first; [fuel]
    bounds the number of digits. *)
Fixpoint digits (fuel : nat) (n : Z) (acc : string) : string :=
  match fuel with
  | O => acc
  | S fuel' =>
      let acc' := String (digit n) acc in
      if n / 10 =? 0 then acc' else digits fuel' (n / 10) acc'
  end%Z.

Definition decimal (n : Z) : string :=
  digits (S (Z.to_nat (Z.log2 n))) n "".

(** [num / den] rounded to the nearest integer, ties to even ([den > 0]). *)
Definition round_half_even (num den : Z) : Z :=
  let q := (num / den)%Z in
  let r := (num mod den)%Z in
  match (2 * r ?= den)%Z with
  | Lt => q
  | Gt => (q + 1)%Z
  | Eq => if Z.even q then q else (q + 1)%Z
  end.

(** [m * 2^e * 10^4] rounded to an integer. *)
Definition scaled4 (m : positive) (e : Z) : Z :=
  if (0 <=? e)%Z then (Zpos m * 2 ^ e * 10000)%Z
  else round_half_even (Zpos m * 10000) (2 ^ (- e)).

Definition fraction4 (n : Z) : string :=
  String (digit (n / 1000))
    (String (digit (n / 100))
       (String (digit (n / 10)) (String (digit n) ""))).

(** The text of [n / 10^4] with its sign. *)
Definition fixed4 (negative : bool) (n : Z) : string :=
  ((if negative then "-" else "")
     ++ decimal (n / 10000) ++ "." ++ fraction4 (n mod 10000))%string.

(** [f'{x:.4f}'] *)
Definition format_4f (x : spec_float) : string :=
  match x with
  | S754_nan => "nan"
  | S754_infinity s => if s then "-inf" else "inf"
  | S754_zero s => fixed4 s 0
  | S754_finite s m e => fixed4 s (scaled4 m e)
  end.

Definition is_digit (c : ascii) : bool :=
  let n := nat_of_ascii c in (48 <=? n)%nat && (n <=? 57)%nat.

Fixpoint all_digits (s : string) : bool :=
  match s with
  | EmptyString => true
  | String c rest => is_digit c && all_digits rest
  end.

(** The text after the first decimal point of [s], if [s] has one. *)
Fixpoint after_point (s : string) : option string :=
  match s with
  | EmptyString => None
  | String c rest => if Ascii.eqb c "." then Some rest else after_point rest
  end.

(** [s] has exactly four digits after its decimal point. *)
Definition four_decimals (s : string) : bool :=
  match after_point s with
  | Some t => (String.length t =? 4)%nat && all_digits t
  | None => false
  end.

Definition is_finite (x : spec_float) : bool :=
  match x with
  | S754_zero _ | S754_finite _ _ _ => true
  | S754_infinity _ | S754_nan => false
  end.

End Fmt.
Export Fmt.

(** ** [terminaltables.AsciiTable]

    The [table] property of an [AsciiTable], for cells that are one line
    of printable ASCII characters, as formatted numbers are: the width of
    such a cell is its length.  The library pads by visible width and
    renders a cell with line breaks on several lines; for cells with
    characters of other widths or with line breaks its rendering is not
    the one given here. *)

Module Table.

Record AsciiTable : Type := MkTable {
  table_data : list (list string);
  inner_column_border : bool;
  inner_footing_row_border : bool;
  inner_heading_row_border : bool;
  inner_row_border : bool;
  outer_border : bool;
  padding_left : nat;
  padding_right : nat
}.

(** [AsciiTable(table_data)]: the settings of a new table. *)
Definition new (data : list (list string)) : AsciiTable :=
  MkTable data true false true false true 1 1.

(** [table.inner_footing_row_border = b] *)
Definition set_inner_footing_row_border (b : bool) (t : AsciiTable)
  : AsciiTable :=
  MkTable (table_data t) (inner_column_border t) b
    (inner_heading_row_border t) (inner_row_border t) (outer_border t)
    (padding_left t) (padding_right t).

Inductive style : Type := Top | Bottom | Heading | Footing | Row.

(** A line of the rendering: a horizontal border, or the cells of a row. *)
Inductive line : Type :=
| Border (s : style)
| Cells (s : style) (row : list string).

(** The lines of the table body ([gen_table]'s loop over [table_data]);
    [i] is the index of the first row of [rows], [row_count] the number
    of rows of the table. *)
Fixpoint gen_body (t : AsciiTable) (row_count i : Z)
    (rows : list (list string)) : list line :=
  match rows with
  | [] => []
  | row :: rest =>
      let last_row_index := (row_count - 1)%Z in
      let before_last_row_index := (row_count - 2)%Z in
      let s :=
        if inner_heading_row_border t && (i =? 0)%Z then Heading
        else if inner_footing_row_border t && (i =? last_row_index)%Z
             then Footing
             else Row in
      Cells s row
        :: (if (i =? last_row_index)%Z then []
            else
              (if inner_heading_row_border t && (i =? 0)%Z
               then [Border Heading]
               else if inner_footing_row_border t
                       && (i =? before_last_row_index)%Z
                    then [Border Footing]
                    else if inner_row_border t then [Border Row] else [])
                ++ gen_body t row_count (i + 1) rest)
  end.

Definition gen_table (t : AsciiTable) : list line :=
  (if outer_border t then [Border Top] else [])
    ++ gen_body t (Z.of_nat (length (table_data t))) 0 (table_data t)
    ++ (if outer_border t then [Border Bottom] else []).

(** Column widths: the widest cell of each column. *)
Fixpoint widen (row : list string) (widths : list nat) : list nat :=
  match row, widths with
  | [], _ => widths
  | c :: row', [] => String.length c :: widen row' []
  | c :: row', w :: widths' => Nat.max w (String.length c) :: widen row' widths'
  end.

Definition inner_widths (t : AsciiTable) : list nat :=
  fold_left (fun widths row => widen row widths) (table_data t) [].

Fixpoint repeat_char (c : ascii) (n : nat) : string :=
  match n with
  | O => EmptyString
  | S n' => String c (repeat_char c n')
  end.

(** [left + center.join(items) + right] *)
Definition combine_line (items : list string) (left center right : string)
  : string :=
  (left ++ String.concat center items ++ right)%string.

Definition horizontal_border (t : AsciiTable) (widths : list nat) : string :=
  combine_line
    (map (fun w => repeat_char "-" (padding_left t + w + padding_right t))
         widths)
    (if outer_border t then "+" else "")
    (if inner_column_border t then "+" else "")
    (if outer_border t then "+" else "").

(** One padded cell: [' ' * padding_left + cell.ljust(width) + ' ' * padding_right]. *)
Definition pad_cell (t : AsciiTable) (width : nat) (cell : string) : string :=
  (repeat_char " " (padding_left t) ++ cell
     ++ repeat_char " " (width - String.length cell)
     ++ repeat_char " " (padding_right t))%string.

(** The padded cells of a row; a short row is completed by empty cells. *)
Fixpoint pad_cells (t : AsciiTable) (widths : list nat) (row : list string)
  : list string :=
  match widths with
  | [] => []
  | w :: widths' =>
      match row with
      | [] => pad_cell t w "" :: pad_cells t widths' []
      | c :: row' => pad_cell t w c :: pad_cells t widths' row'
      end
  end.

Definition row_line (t : AsciiTable) (widths : list nat) (row : list string)
  : string :=
  combine_line (pad_cells t widths row)
    (if outer_border t then "|" else "")
    (if inner_column_border t then "|" else "")
    (if outer_border t then "|" else "").

Definition render_line (t : AsciiTable) (widths : list nat) (l : line)
  : string :=
  match l with
  | Border _ => horizontal_border t widths
  | Cells _ row => row_line t widths row
  end.

(** [t.table]: the lines joined by newlines. *)
Definition table (t : AsciiTable) : string :=
  String.concat (String "010" EmptyString)
    (map (render_line t (inner_widths t)) (gen_table t)).

(** Whether every two consecutive row lines have a border between them. *)
Fixpoint rows_separated (ls : list line) : bool :=
  match ls with
  | [] => true
  | l :: rest =>
      match l, rest with
      | Cells _ _, Cells _ _ :: _ => false
      | _, _ => rows_separated rest
      end
  end.

End Table.
Export Table.

(** ** [InstanceSegMetric.evaluate] *)

(** The Metrics Report: per class the AP at IoU 0.25, at IoU 0.50 and the
    overall AP, and the three dataset-wide aggregates. *)
Record class_ap : Type := ClassAP {
  ap25 : spec_float;
  ap50 : spec_float;
  ap : spec_float
}.

Record report : Type := Report {
  classes : dict class_ap;
  all_ap_25 : spec_float;
  all_ap_50 : spec_float;
  all_ap : spec_float
}.

(** What an accumulated mapping holds: per field, the storage its array
    views. *)
Definition view (h : list storage) (c : converted) : dict (option storage) :=
  map (fun ka => (fst ka, nth_error h (a_loc (snd ka)))) c.

(** The content of the Accumulated Results. *)
Definition snapshot (w : world)
  : list (dict (option storage) * dict (option storage)) :=
  map (fun pg => (view (heap w) (fst pg), view (heap w) (snd pg))) (results w).

(** [print_log(msg, logger=logger)] *)
Definition print_log (msg : string) : M unit :=
  fun w => (Ok tt, set_logged (logged w ++ [msg]) w).

Definition header : list string := ["classes"; "AP_0.25"; "AP_0.50"; "AP"].

(** The rows built by the loop over [metrics['classes'].items()]. *)
Definition class_rows (metrics : report) : list (list string) :=
  map (fun ld => fst ld
                   :: map format_4f [ap25 (snd ld); ap50 (snd ld); ap (snd ld)])
      (classes metrics).

Definition footer (metrics : report) : list string :=
  "Overall"
    :: map format_4f [all_ap_25 metrics; all_ap_50 metrics; all_ap metrics].

(** The table [evaluate] builds from the report. *)
Definition report_table (metrics : report) : AsciiTable :=
  set_inner_footing_row_border true
    (Table.new ([header] ++ class_rows metrics ++ [footer metrics])).

Definition newline : string := String "010" EmptyString.

Section Evaluate.

(** The pass-through arguments [*args, **kwargs], and the computation
    of the base metric over the content of the Accumulated Results. *)
Variable Args : Type.
Variable compute_metric :
  Args -> list (dict (option storage) * dict (option storage)) -> res report.

(** Modelled from the spec: [compute] of the base metric, whose code is
    not part of these sources.  It runs the underlying computation on the
    pass-through arguments and the content of the Accumulated Results,
    which it leaves as they are. *)
Definition compute (args : Args) : M report :=
  fun w => (compute_metric args (snapshot w), w).

Definition evaluate (args : Args) : M report :=
  metrics <- compute args ;;
  let table := report_table metrics in
  print_log (newline ++ Table.table table)%string ;;;
  reset ;;;
  ret metrics.

End Evaluate.

(** ** Predicates on inputs, memory and call logs *)

(** The host-memory copy of what [v] views in memory [h]. *)
Definition host_copy (h : list storage) (v : obj) : option storage :=
  match nth_error h (o_loc v) with
  | Some s => Some (Storage CPU (st_data s))
  | None => None
  end.

Definition copies (h : list storage) (f : fields) : dict (option storage) :=
  map (fun kv => (fst kv, host_copy h (snd kv))) f.

(** [pg] is the conversion of sample [smp]: field by field and in the
    order of the fields, its arrays hold in [h'] host-memory copies of
    what the field values hold in [h]. *)
Definition converted_pair (h h' : list storage) (smp : sample)
    (pg : converted * converted) : Prop :=
  exists pred gt,
    get "pred_pts_seg" smp = Some pred
    /\ get "eval_ann_info" smp = Some gt
    /\ view h' (fst pg) = copies h pred
    /\ view h' (snd pg) = copies h gt.

(** The mapping is a dictionary of values that exist in memory [h]: no key
    occurs twice, and every value views a storage of [h]. *)
Definition fields_wf (h : list storage) (f : fields) : bool :=
  keys_unique f && forallb (fun kv => (o_loc (snd kv) <? length h)%nat) f.

Definition sample_wf (h : list storage) (smp : sample) : bool :=
  match get "pred_pts_seg" smp, get "eval_ann_info" smp with
  | Some pred, Some gt => fields_wf h pred && fields_wf h gt
  | _, _ => true
  end.

Definition samples_wf (h : list storage) (data_samples : list sample) : bool :=
  forallb (sample_wf h) data_samples.

(** [for k, a in kas: acc[k] = a] *)
Definition overwrite (kas : converted) (acc : converted) : converted :=
  fold_left (fun d ka => setitem (fst ka) (snd ka) d) kas acc.

(** Every array of the mapping views a storage allocated at or after [n]. *)
Definition fresh (n : nat) (c : converted) : bool :=
  forallb (fun ka => (n <=? a_loc (snd ka))%nat) c.

(** The fields of the mapping under [key] in a sample record. *)
Definition fields_of (key : string) (smp : sample) : fields :=
  match get key smp with
  | Some f => f
  | None => []
  end.

(** The storages the prediction values of a batch view. *)
Definition prediction_locs (data_samples : list sample) : list nat :=
  flat_map (fun smp => map (fun kv => o_loc (snd kv))
                           (fields_of "pred_pts_seg" smp))
           data_samples.

(** Check of a call log against the storages [0 .. n-1] that existed at
    the start: every device transfer and every array conversion acts on a
    clone, that is, [cpu], [to] and [numpy] are only invoked on storages
    allocated since. *)
Definition on_clones (n : nat) (cs : list call) : bool :=
  forallb (fun c => match c_method c with
                    | m_clone => true
                    | m_cpu | m_to | m_numpy => (n <=? c_recv c)%nat
                    end) cs.

(** The calls of one conversion, as [process] makes them, where the
    storages [0 .. n-1] existed at the start and the prediction values
    view the storages [inputs]: [clone], [cpu], [numpy] with the transfer
    and the conversion on storages allocated since (the comprehensions);
    or [to], [clone], [numpy] with the transfer on one of [inputs] and the
    conversion on a storage allocated since; or [clone], [numpy] with the
    conversion on a storage allocated since (the second loop). *)
Definition conversion (n : nat) (inputs : list nat) (g : list call) : bool :=
  match map c_method g, map c_recv g with
  | [m_clone; m_cpu; m_numpy], [_; b; c] => (n <=? b)%nat && (n <=? c)%nat
  | [m_to; m_clone; m_numpy], [a; _; c] =>
      existsb (Nat.eqb a) inputs && (n <=? c)%nat
  | [m_clone; m_numpy], [_; c] => (n <=? c)%nat
  | _, _ => false
  end.

(** What a computation leaves alone: storages that exist keep their place
    and content, the call log is only extended, and the warnings, the
    log messages and the Accumulated Results are untouched. *)
Definition frame (w w' : world) : Prop :=
  (exists ext, heap w' = heap w ++ ext)
  /\ (exists cs, calls w' = calls w ++ cs)
  /\ warned w' = warned w
  /\ logged w' = logged w
  /\ results w' = results w.

(** [Q] relates the world before, the outcome and the world after of
    every run of [m]. *)
Definition post {A : Type} (m : M A) (Q : world -> res A -> world -> Prop)
  : Prop :=
  forall w r w', m w = (r, w') -> Q w r w'.

Definition framed {A : Type} (m : M A) : Prop :=
  post m (fun w _ w' => frame w w').

(** The calls a successful [convert_plain v] makes, where [n] storages
    existed before. *)
Definition plain_calls (n : nat) (v : obj) (cs : list call) : Prop :=
  exists l1 l2,
    cs = [Call m_clone (o_loc v); Call m_cpu l1; Call m_numpy l2]
    /\ n <= l1 /\ n <= l2.

(** The calls a successful [convert_aware v] makes. *)
Definition aware_calls (n : nat) (v : obj) (cs : list call) : Prop :=
  exists l1 l2,
    n <= l2
    /\ (cs = [Call m_to (o_loc v); Call m_clone l1; Call m_numpy l2]
        \/ cs = [Call m_clone (o_loc v); Call m_numpy l2]).

(** Outcome of a successful conversion of [v] into [a], from [w] to [w']
    with calls [cs]: [a] views a storage allocated by the conversion,
    which holds a host-memory copy of what [v] held. *)
Definition copied (w : world) (v : obj) (a : ndarray) (w' : world)
    (cs : list call) : Prop :=
  frame w w'
  /\ calls w' = calls w ++ cs
  /\ length (heap w) <= a_loc a
  /\ exists s,
      nth_error (heap w) (o_loc v) = Some s
      /\ nth_error (heap w') (a_loc a) = Some (Storage CPU (st_data s)).

(** Every successful run of [f] copies its argument, with calls of the
    given shape. *)
Definition converts (f : obj -> M ndarray)
    (shape : nat -> obj -> list call -> Prop) : Prop :=
  forall v a w w',
    f v w = (Ok a, w') ->
    exists cs,
      copied w v a w' cs /\ forall n, n <= length (heap w) -> shape n v cs.

(** Item [kv] of a mapping has been converted into the array [fst ac],
    with calls [snd ac], somewhere between [w] and [w']. *)
Definition item_done (shape : nat -> obj -> list call -> Prop)
    (w w' : world) (kv : string * obj) (ac : ndarray * list call) : Prop :=
  length (heap w) <= a_loc (fst ac)
  /\ (o_loc (snd kv) < length (heap w) ->
      nth_error (heap w') (a_loc (fst ac)) = host_copy (heap w) (snd kv))
  /\ shape (length (heap w)) (snd kv) (snd ac).

(** What the body of the loop over the samples achieves when it returns:
    it leaves existing memory alone, its arrays view storages it
    allocated, and they hold the copies of the field values. *)
Definition sample_converter (body : sample -> M (converted * converted))
  : Prop :=
  forall smp w pg w',
    body smp w = (Ok pg, w') ->
    frame w w'
    /\ fresh (length (heap w)) (fst pg) = true
    /\ fresh (length (heap w)) (snd pg) = true
    /\ (sample_wf (heap w) smp = true ->
        converted_pair (heap w) (heap w') smp pg).

(** [numpy()] accepts the object once it is in host memory. *)
Definition accepted (v : obj) : bool :=
  match o_refuse v with
  | None => true
  | Some _ => false
  end.

(** Whether [convert_plain v] returns in memory [h]: [v] has the three
    methods, views a storage of [h] and is accepted by [numpy()]. *)
Definition plain_can (h : list storage) (v : obj) : bool :=
  o_clone v && o_cpu v && o_numpy v && accepted v
  && match nth_error h (o_loc v) with
     | Some _ => true
     | None => false
     end.

(** Whether [convert_aware v] returns in memory [h]: without [to], [v]
    has to be in host memory already. *)
Definition aware_can (h : list storage) (v : obj) : bool :=
  o_clone v && o_numpy v && accepted v
  && match nth_error h (o_loc v) with
     | Some s =>
         o_to v || match st_device s with CPU => true | CUDA => false end
     | None => false
     end.

(** The run of [m] from [w] returns. *)
Definition returns {A : Type} (m : M A) (w : world) : Prop :=
  exists a w', m w = (Ok a, w').

(** What becomes of a warning handed to [warnings.warn] in world [w]:
    it is shown, it is dropped without a trace in what is shown, or it is
    raised as an exception. *)
Inductive fate : Type := Shown | Dropped | Raised.

Definition key_of (x : warning) : regkey :=
  (wn_text x, wn_category x, Some (wn_lineno x)).

Definition altkey_of (x : warning) : regkey :=
  (wn_text x, wn_category x, None).

Definition fate_of (w : world) (x : warning) : fate :=
  if registered (key_of x) w then Dropped
  else
    match filters w x with
    | act_error => Raised
    | act_ignore => Dropped
    | act_always | act_default => Shown
    | act_module | act_once =>
        if registered (altkey_of x) w then Dropped else Shown
    end.

Definition shown (w : world) (x : warning) : bool :=
  match fate_of w x with
  | Shown => true
  | _ => false
  end.

(** What calls of [warnings.warn] for warnings with the given texts leave
    alone: everything but what is shown and the registry, which is only
    extended, by keys with these texts. *)
Definition warning_frame (texts : list string) (w w' : world) : Prop :=
  heap w' = heap w
  /\ calls w' = calls w
  /\ filters w' = filters w
  /\ logged w' = logged w
  /\ results w' = results w
  /\ exists ext,
      registry w' = registry w ++ ext
      /\ Forall (fun k : regkey => In (fst (fst k)) texts) ext.

(** ** Inputs of the examples *)

Module Examples.

Definition tensor (l : nat) : obj := Obj l None true true true true.

(** An array-like with [clone] and [numpy] but neither [to] nor [cpu]. *)
Definition host_only (l : nat) : obj := Obj l None true false false true.

Definition memory : list storage :=
  [Storage CUDA [0; 0; 1; 1]%Z; Storage CPU [0; 0; 1; 1]%Z; Storage CPU [5]%Z].

(** The filters of an interpreter started without [-W] options, for
    warnings of this module: a [UserWarning] gets the default action, a
    [DeprecationWarning] outside [__main__] is ignored. *)
Definition python_filters (x : warning) : action :=
  match wn_category x with
  | UserWarning => act_default
  | DeprecationWarning => act_ignore
  end.

Definition start : world := World memory [] python_filters [] [] [] [].

(** The same world under [-W error], and under [-W always]. *)
Definition strict : world :=
  World memory [] (fun _ => act_error) [] [] [] [].

Definition verbose : world :=
  World memory [] (fun _ => act_always) [] [] [] [].

Definition tensor_sample : sample :=
  [("pred_pts_seg", [("instance_labels", tensor 0)]);
   ("eval_ann_info", [("pts_instance_mask", tensor 1)])].

Definition host_only_sample : sample :=
  [("pred_pts_seg", [("instance_labels", host_only 2)]);
   ("eval_ann_info", [])].

Definition one : spec_float := S754_finite false 4503599627370496 (-52).

Definition chair_table : report :=
  Report [("chair", ClassAP one one one);
          ("table", ClassAP S754_nan S754_nan S754_nan)]
         one one one.

Definition constant_metric (_ : unit)
    (_ : list (dict (option storage) * dict (option storage))) : res report :=
  Ok chair_table.

(** A [numpy.ndarray] given as a field value: none of the four methods. *)
Definition plain_array (l : nat) : obj := Obj l None false false false false.

Definition plain_array_sample : sample :=
  [("pred_pts_seg", [("instance_labels", plain_array 2)]);
   ("eval_ann_info", [])].

Definition host_only_truth : sample :=
  [("pred_pts_seg", []);
   ("eval_ann_info", [("pts_instance_mask", host_only 2)])].

(** The world after [process] has run on [tensor_sample]. *)
Definition after_tensor_sample : world :=
  Eval vm_compute in snd (process tt [tensor_sample] start).

(** A base constructor that keeps the options it receives. *)
Definition keep_options (options : dict pyval) : M (dict pyval) :=
  ret options.

End Examples.

(** ** Further predicates on samples, memory and results *)

(** The key [process] fails to find in a sample record, if any: it looks
    up ['pred_pts_seg'] first, then ['eval_ann_info'] (lines 54-55). *)
Definition missing_key (smp : sample) : option string :=
  match get "pred_pts_seg" smp with
  | None => Some "pred_pts_seg"
  | Some _ =>
      match get "eval_ann_info" smp with
      | None => Some "eval_ann_info"
      | Some _ => None
      end
  end.

(** The computation neither reads nor writes the Accumulated Results. *)
Definition ignores_results {A : Type} (m : M A) : Prop :=
  forall r w, m (set_results r w) = (fst (m w), set_results r (snd (m w))).

(** Whether every conversion [process] performs on the sample can return
    in memory [h]: both mappings are there, every value of both passes
    [v.clone().cpu().numpy()], and every prediction value passes the
    second loop as well. *)
Definition sample_can (h : list storage) (smp : sample) : bool :=
  match get "pred_pts_seg" smp, get "eval_ann_info" smp with
  | Some pred, Some gt =>
      forallb (fun kv => plain_can h (snd kv)) pred
      && forallb (fun kv => plain_can h (snd kv)) gt
      && forallb (fun kv => aware_can h (snd kv)) pred
  | _, _ => false
  end.

Definition samples_can (h : list storage) (data_samples : list sample) : bool :=
  forallb (sample_can h) data_samples.

(** The array views an existing storage in host memory. *)
Definition host_array (h : list storage) (a : ndarray) : bool :=
  match nth_error h (a_loc a) with
  | Some s => match st_device s with CPU => true | CUDA => false end
  | None => false
  end.

Definition host_dict (h : list storage) (c : converted) : bool :=
  forallb (fun ka => host_array h (snd ka)) c.

(** Every array of the Accumulated Results views an existing storage in
    host memory. *)
Definition host_results (w : world) : bool :=
  forallb (fun pg => host_dict (heap w) (fst pg) && host_dict (heap w) (snd pg))
          (results w).

(** The content [process] accumulates for a sample: the host-memory
    copies of its prediction fields and of its ground-truth fields. *)
Definition sample_copies (h : list storage) (smp : sample)
  : dict (option storage) * dict (option storage) :=
  (copies h (match get "pred_pts_seg" smp with Some f => f | None => [] end),
   copies h (match get "eval_ann_info" smp with Some f => f | None => [] end)).

(** The storages the arrays of a mapping, and of a pair, view. *)
Definition array_locs (c : converted) : list nat :=
  map (fun ka => a_loc (snd ka)) c.

Definition pair_locs (pg : converted * converted) : list nat :=
  array_locs (fst pg) ++ array_locs (snd pg).

(** Storage [l] was allocated between [w] and [w']. *)
Definition allocated (w w' : world) (l : nat) : Prop :=
  length (heap w) <= l < length (heap w').

(** The number of calls of method [m] in a call log. *)
Definition is_method (m : method) (c : call) : bool :=
  match m, c_method c with
  | m_clone, m_clone | m_cpu, m_cpu | m_to, m_to | m_numpy, m_numpy => true
  | _, _ => false
  end.

Definition count_calls (m : method) (cs : list call) : nat :=
  length (filter (is_method m) cs).

(** The number of fields under [key] over a batch. *)
Definition fields_in (key : string) (data_samples : list sample) : nat :=
  list_sum (map (fun smp => length (fields_of key smp)) data_samples).

(** The number of prediction values of a batch that have [to]. *)
Definition values_with_to (data_samples : list sample) : nat :=
  list_sum
    (map (fun smp =>
            length (filter (fun kv => o_to (snd kv))
                           (fields_of "pred_pts_seg" smp)))
         data_samples).

(** The calls of a successful [convert_aware v], by whether [v] has [to]. *)
Definition aware_calls_exact (n : nat) (v : obj) (cs : list call) : Prop :=
  exists l1 l2,
    cs = if o_to v
         then [Call m_to (o_loc v); Call m_clone l1; Call m_numpy l2]
         else [Call m_clone (o_loc v); Call m_numpy l2].

(** Reading a text in fixed notation back.  [read_digits] reads a run of
    decimal digits; [read_to_point] reads digits up to a decimal point and
    returns their number with the text after the point; [read_unsigned]
    gives the number of ten-thousandths a text with four decimals denotes,
    and [read_fixed4] that number with the sign. *)
Definition digit_value (c : ascii) : Z := Z.of_nat (nat_of_ascii c) - 48.

Fixpoint read_digits (s : string) (acc : Z) : Z :=
  match s with
  | EmptyString => acc
  | String c rest => read_digits rest (10 * acc + digit_value c)
  end.

Fixpoint read_to_point (s : string) (acc : Z) : option (Z * string) :=
  match s with
  | EmptyString => None
  | String c rest =>
      if Ascii.eqb c "." then Some (acc, rest)
      else if is_digit c then read_to_point rest (10 * acc + digit_value c)
           else None
  end.

Definition read_unsigned (s : string) : option Z :=
  match read_to_point s 0 with
  | Some (whole, fraction) =>
      if (String.length fraction =? 4)%nat && all_digits fraction
      then Some (whole * 10000 + read_digits fraction 0)%Z
      else None
  | None => None
  end.

Definition read_fixed4 (s : string) : option (bool * Z) :=
  match read_unsigned s with
  | Some n => Some (false, n)
  | None =>
      match s with
      | String c rest =>
          if Ascii.eqb c "-"
          then match read_unsigned rest with
               | Some n => Some (true, n)
               | None => None
               end
          else None
      | EmptyString => None
      end
  end.

(** A printable ASCII character: it takes one column, it is no line
    break and no part of an escape sequence.  A text of such characters
    is one line whose visible width is its length. *)
Definition printable (c : ascii) : bool :=
  let n := nat_of_ascii c in (32 <=? n)%nat && (n <=? 126)%nat.

Fixpoint plain (s : string) : bool :=
  match s with
  | EmptyString => true
  | String c rest => printable c && plain rest
  end.

(** The class labels of the report are texts of printable ASCII
    characters. *)
Definition plain_labels (metrics : report) : bool :=
  forallb (fun ld => plain (fst ld)) (classes metrics).

(** Every cell of the row is at most as wide as its column. *)
Fixpoint fits (widths : list nat) (row : list string) : bool :=
  match row, widths with
  | [], _ => true
  | c :: row', w :: widths' => (String.length c <=? w)%nat && fits widths' row'
  | _ :: _, [] => false
  end.

Module MoreExamples.

(** A sample record without ground truth. *)
Definition no_truth_sample : sample :=
  [("pred_pts_seg", [("instance_labels", Examples.tensor 0)])].

(** A second sample over the same memory. *)
Definition second_sample : sample :=
  [("pred_pts_seg", [("instance_labels", Examples.tensor 1);
                     ("instance_scores", Examples.tensor 2)]);
   ("eval_ann_info", [("pts_instance_mask", Examples.tensor 0)])].

(** The world after [process] has run on [second_sample], from the world
    [process] on [Examples.tensor_sample] left. *)
Definition after_second_sample : world :=
  Eval vm_compute in
    snd (process tt [second_sample] Examples.after_tensor_sample).

(** A computation that fails. *)
Definition failing_metric (_ : unit)
    (_ : list (dict (option storage) * dict (option storage))) : res report :=
  Raise (RuntimeError "no ground truth instances").

End MoreExamples.

(** ** What every computation of [process] leaves alone *)

Lemma frame_refl (w : world) : frame w w.
Proof.
  repeat split; try reflexivity.
  - exists []. now rewrite app_nil_r.
  - exists []. now rewrite app_nil_r.
Qed.

Lemma frame_trans (w1 w2 w3 : world) :
  frame w1 w2 -> frame w2 w3 -> frame w1 w3.
Proof.
  intros (H1 & C1 & W1 & L1 & R1) (H2 & C2 & W2 & L2 & R2).
  destruct H1 as [e1 H1], H2 as [e2 H2], C1 as [c1 C1], C2 as [c2 C2].
  repeat split; try congruence.
  - exists (e1 ++ e2). rewrite H2, H1. now rewrite app_assoc.
  - exists (c1 ++ c2). rewrite C2, C1. now rewrite app_assoc.
Qed.

Lemma frame_length (w w' : world) :
  frame w w' -> length (heap w) <= length (heap w').
Proof.
  intros ([ext H] & _). rewrite H, length_app. lia.
Qed.

Lemma frame_nth_error (w w' : world) (l : nat) (s : storage) :
  frame w w' -> nth_error (heap w) l = Some s -> nth_error (heap w') l = Some s.
Proof.
  intros ([ext H] & _) Hl. rewrite H.
  rewrite nth_error_app1; [assumption|].
  apply nth_error_Some. congruence.
Qed.

Lemma post_bind {A B : Type} (m : M A) (k : A -> M B)
    (P : world -> res A -> world -> Prop)
    (Q : world -> res B -> world -> Prop) :
  post m P ->
  (forall w a w1 r w2, P w (Ok a) w1 -> k a w1 = (r, w2) -> Q w r w2) ->
  (forall w e w1, P w (Raise e) w1 -> Q w (Raise e) w1) ->
  post (bind m k) Q.
Proof.
  intros Hm Hk He w r w' H. unfold bind in H.
  destruct (m w) as [[a|e] w1] eqn:E.
  - eapply Hk; [apply (Hm _ _ _ E) | exact H].
  - injection H as <- <-. apply He, (Hm _ _ _ E).
Qed.

Lemma framed_ret {A : Type} (a : A) : framed (ret a).
Proof. intros w r w' H. injection H as <- <-. apply frame_refl. Qed.

Lemma framed_raise {A : Type} (e : exn) : framed (@raise A e).
Proof. intros w r w' H. injection H as <- <-. apply frame_refl. Qed.

Lemma framed_bind {A B : Type} (m : M A) (k : A -> M B) :
  framed m -> (forall a, framed (k a)) -> framed (bind m k).
Proof.
  intros Hm Hk. eapply post_bind; [exact Hm | |]; cbn.
  - intros w a w1 r w2 F E. eapply frame_trans; [exact F|]. eapply Hk, E.
  - intros w e w1 F. exact F.
Qed.

Lemma framed_load (l : nat) : framed (load l).
Proof.
  intros w r w' H. unfold load in H.
  destruct (nth_error (heap w) l); injection H as <- <-; apply frame_refl.
Qed.

Lemma framed_alloc (s : storage) : framed (alloc s).
Proof.
  intros w r w' H. injection H as <- <-.
  repeat split; cbn; try reflexivity.
  - now exists [s].
  - exists []. now rewrite app_nil_r.
Qed.

Lemma framed_record_call (m : method) (v : obj) : framed (record_call m v).
Proof.
  intros w r w' H. injection H as <- <-.
  repeat split; cbn; try reflexivity.
  - exists []. now rewrite app_nil_r.
  - now exists [Call m (o_loc v)].
Qed.

Lemma framed_getitem {V : Type} (k : string) (d : dict V) :
  framed (getitem k d).
Proof.
  unfold getitem. destruct (get k d); [apply framed_ret | apply framed_raise].
Qed.

Create HintDb framed.
#[local] Hint Resolve framed_ret framed_raise framed_load framed_alloc
  framed_record_call framed_getitem : framed.

Ltac framed_steps :=
  repeat first
    [ apply framed_bind; [|intros ?]
    | solve [auto with framed]
    | match goal with
      | |- framed (if ?b then _ else _) => destruct b
      | |- framed (match ?x with _ => _ end) => destruct x
      end ].

Lemma framed_clone (v : obj) : framed (clone v).
Proof. unfold clone. framed_steps. Qed.

Lemma framed_to_host (v : obj) : framed (to_host v).
Proof. unfold to_host. framed_steps. Qed.

#[local] Hint Resolve framed_clone framed_to_host : framed.

Lemma framed_cpu (v : obj) : framed (cpu v).
Proof. unfold cpu. framed_steps. Qed.

Lemma framed_to_cpu (v : obj) : framed (to_cpu v).
Proof. unfold to_cpu. framed_steps. Qed.

Lemma framed_numpy (v : obj) : framed (numpy v).
Proof. unfold numpy. framed_steps. Qed.

#[local] Hint Resolve framed_cpu framed_to_cpu framed_numpy : framed.

Lemma framed_convert_plain (v : obj) : framed (convert_plain v).
Proof. unfold convert_plain. framed_steps. Qed.

Lemma framed_convert_aware (v : obj) : framed (convert_aware v).
Proof. unfold convert_aware, hasattr_to. framed_steps. Qed.

#[local] Hint Resolve framed_convert_plain framed_convert_aware : framed.

Lemma framed_store_each (f : obj -> M ndarray) (items : fields)
    (acc : converted) :
  (forall v, framed (f v)) -> framed (store_each f items acc).
Proof.
  intros Hf. revert acc.
  induction items as [|[k v] rest IH]; intros acc; cbn.
  - apply framed_ret.
  - apply framed_bind; [apply Hf | intros a; apply IH].
Qed.

Lemma framed_process_sample (smp : sample) : framed (process_sample smp).
Proof.
  unfold process_sample.
  repeat (apply framed_bind; [|intros ?]);
    auto using framed_store_each with framed.
Qed.

Lemma framed_process_sample_aware (smp : sample) :
  framed (process_sample_aware smp).
Proof.
  unfold process_sample_aware.
  repeat (apply framed_bind; [|intros ?]);
    auto using framed_store_each with framed.
Qed.

Lemma framed_for_samples (body : sample -> M (converted * converted))
    (data_samples : list sample) (pred gt : list converted) :
  (forall smp, framed (body smp)) ->
  framed (for_samples body data_samples pred gt).
Proof.
  intros Hb. revert pred gt.
  induction data_samples as [|smp rest IH]; intros pred gt; cbn.
  - apply framed_ret.
  - apply framed_bind; [apply Hb | intros pg; apply IH].
Qed.

(** ** Successful conversions *)

Lemma nth_error_last {A : Type} (l : list A) (x : A) :
  nth_error (l ++ [x]) (length l) = Some x.
Proof.
  rewrite nth_error_app2 by lia. now rewrite Nat.sub_diag.
Qed.

Lemma clone_ok (v c : obj) (w w1 : world) :
  clone v w = (Ok c, w1) ->
  exists s,
    nth_error (heap w) (o_loc v) = Some s
    /\ c = at_loc v (length (heap w))
    /\ heap w1 = heap w ++ [s]
    /\ calls w1 = calls w ++ [Call m_clone (o_loc v)].
Proof.
  unfold clone. destruct (o_clone v); [|discriminate].
  unfold bind, record_call, load, alloc, ret; cbn.
  destruct (nth_error (heap w) (o_loc v)) as [s|] eqn:E; [|discriminate].
  intros H. injection H as <- <-. exists s. cbn. auto.
Qed.

Lemma to_host_ok (v t : obj) (w w1 : world) :
  to_host v w = (Ok t, w1) ->
  calls w1 = calls w
  /\ length (heap w) <= length (heap w1)
  /\ exists s,
      nth_error (heap w) (o_loc v) = Some s
      /\ nth_error (heap w1) (o_loc t) = Some (Storage CPU (st_data s))
      /\ (o_loc t = o_loc v \/ length (heap w) <= o_loc t)
      /\ o_refuse t = o_refuse v /\ o_clone t = o_clone v /\ o_numpy t = o_numpy v.
Proof.
  unfold to_host, bind, load.
  destruct (nth_error (heap w) (o_loc v)) as [s|] eqn:E; [|discriminate].
  destruct s as [[|] d]; cbn.
  - intros H. injection H as <- <-. split; [reflexivity|]. split; [lia|].
    exists (Storage CPU d). cbn. auto 10.
  - unfold alloc, ret. intros H. injection H as <- <-. cbn.
    split; [reflexivity|]. split; [rewrite length_app; lia|].
    exists (Storage CUDA d). cbn.
    rewrite nth_error_last. auto 10.
Qed.

Lemma cpu_ok (v t : obj) (w w1 : world) :
  cpu v w = (Ok t, w1) ->
  calls w1 = calls w ++ [Call m_cpu (o_loc v)]
  /\ length (heap w) <= length (heap w1)
  /\ exists s,
      nth_error (heap w) (o_loc v) = Some s
      /\ nth_error (heap w1) (o_loc t) = Some (Storage CPU (st_data s))
      /\ (o_loc t = o_loc v \/ length (heap w) <= o_loc t)
      /\ o_refuse t = o_refuse v /\ o_clone t = o_clone v /\ o_numpy t = o_numpy v.
Proof.
  unfold cpu. destruct (o_cpu v); [|discriminate].
  unfold bind, record_call. intros H.
  apply to_host_ok in H. cbn in H. exact H.
Qed.

Lemma to_cpu_ok (v t : obj) (w w1 : world) :
  to_cpu v w = (Ok t, w1) ->
  calls w1 = calls w ++ [Call m_to (o_loc v)]
  /\ length (heap w) <= length (heap w1)
  /\ exists s,
      nth_error (heap w) (o_loc v) = Some s
      /\ nth_error (heap w1) (o_loc t) = Some (Storage CPU (st_data s))
      /\ (o_loc t = o_loc v \/ length (heap w) <= o_loc t)
      /\ o_refuse t = o_refuse v /\ o_clone t = o_clone v /\ o_numpy t = o_numpy v.
Proof.
  unfold to_cpu. destruct (o_to v); [|discriminate].
  unfold bind, record_call. intros H.
  apply to_host_ok in H. cbn in H. exact H.
Qed.

Lemma numpy_ok (v : obj) (a : ndarray) (w w1 : world) :
  numpy v w = (Ok a, w1) ->
  a = NdArray (o_loc v)
  /\ heap w1 = heap w
  /\ calls w1 = calls w ++ [Call m_numpy (o_loc v)]
  /\ exists d, nth_error (heap w) (o_loc v) = Some (Storage CPU d).
Proof.
  unfold numpy. destruct (o_numpy v); [|discriminate].
  unfold bind, record_call, load; cbn.
  destruct (nth_error (heap w) (o_loc v)) as [[[|] d]|] eqn:E;
    cbn; try discriminate.
  destruct (o_refuse v); [discriminate|].
  intros H. injection H as <- <-. cbn. eauto 6.
Qed.

Lemma convert_plain_ok (v : obj) (a : ndarray) (w w' : world) :
  convert_plain v w = (Ok a, w') ->
  exists cs, copied w v a w' cs /\ plain_calls (length (heap w)) v cs.
Proof.
  intros H. pose proof (framed_convert_plain v _ _ _ H) as F.
  unfold convert_plain, bind in H.
  destruct (clone v w) as [[c|e] w1] eqn:E1; [|discriminate].
  destruct (cpu c w1) as [[t|e] w2] eqn:E2; [|discriminate].
  apply clone_ok in E1. destruct E1 as (s & Hs & -> & H1 & C1).
  apply cpu_ok in E2. cbn in E2.
  destruct E2 as (C2 & _ & s2 & Hs2 & Ht & Hloc & _).
  apply numpy_ok in H. destruct H as (-> & H3 & C3 & _).
  rewrite H1 in Hs2. rewrite nth_error_last in Hs2. injection Hs2 as <-.
  assert (Hfresh : length (heap w) <= o_loc t).
  { destruct Hloc as [-> | Hge]; [lia|].
    rewrite H1, length_app in Hge. cbn in Hge. lia. }
  exists [Call m_clone (o_loc v); Call m_cpu (length (heap w));
          Call m_numpy (o_loc t)].
  split.
  - split; [exact F|]. split; [|split; [exact Hfresh|]].
    + rewrite C3, C2, C1. now rewrite <- !app_assoc.
    + exists s. split; [assumption|]. cbn. now rewrite H3.
  - exists (length (heap w)), (o_loc t). auto.
Qed.

Lemma convert_aware_ok (v : obj) (a : ndarray) (w w' : world) :
  convert_aware v w = (Ok a, w') ->
  exists cs, copied w v a w' cs /\ aware_calls (length (heap w)) v cs.
Proof.
  intros H. pose proof (framed_convert_aware v _ _ _ H) as F.
  unfold convert_aware, hasattr_to, bind in H.
  destruct (o_to v).
  - destruct (to_cpu v w) as [[t|e] w1] eqn:E1; [|discriminate].
    destruct (clone t w1) as [[c|e] w2] eqn:E2; [|discriminate].
    apply to_cpu_ok in E1.
    destruct E1 as (C1 & Hle & s & Hs & Ht & _).
    apply clone_ok in E2. destruct E2 as (s2 & Hs2 & -> & H2 & C2).
    apply numpy_ok in H. cbn in H. destruct H as (-> & H3 & C3 & _).
    rewrite Ht in Hs2. injection Hs2 as <-.
    exists [Call m_to (o_loc v); Call m_clone (o_loc t);
            Call m_numpy (length (heap w1))].
    split.
    + split; [exact F|]. split; [|split; [exact Hle|]].
      * rewrite C3, C2, C1. now rewrite <- !app_assoc.
      * exists s. split; [assumption|]. cbn. rewrite H3, H2.
        apply nth_error_last.
    + exists (o_loc t), (length (heap w1)). auto.
  - destruct (clone v w) as [[c|e] w1] eqn:E1; [|discriminate].
    apply clone_ok in E1. destruct E1 as (s & Hs & -> & H1 & C1).
    apply numpy_ok in H. cbn in H. destruct H as (-> & H3 & C3 & d & Hd).
    rewrite H1, nth_error_last in Hd. injection Hd as ->.
    exists [Call m_clone (o_loc v); Call m_numpy (length (heap w))].
    split.
    + split; [exact F|]. split; [|split; [cbn; lia|]].
      * rewrite C3, C1. now rewrite <- !app_assoc.
      * exists (Storage CPU d). split; [assumption|]. cbn. rewrite H3, H1.
        apply nth_error_last.
    + exists 0, (length (heap w)). auto.
Qed.

(** ** Dictionaries *)

Lemma mem_In (k : string) (ks : list string) : mem k ks = true <-> In k ks.
Proof.
  induction ks as [|k' ks IH]; cbn.
  - split; [discriminate | contradiction].
  - destruct (String.eqb k k') eqn:E.
    + apply String.eqb_eq in E. subst. tauto.
    + apply String.eqb_neq in E. rewrite IH. split; [tauto|].
      intros [H|H]; [congruence | assumption].
Qed.

Lemma keys_unique_NoDup (ks : list string) :
  keys_unique_list ks = true <-> NoDup ks.
Proof.
  induction ks as [|k ks IH]; cbn.
  - split; [constructor | reflexivity].
  - rewrite andb_true_iff, negb_true_iff, IH. split.
    + intros [Hm Hn]. constructor; [|assumption].
      intros Hin. apply mem_In in Hin. congruence.
    + intros Hn. inversion Hn as [|? ? Hnot Hrest]; subst. split; [|assumption].
      destruct (mem k ks) eqn:E; [|reflexivity].
      apply mem_In in E. contradiction.
Qed.

Lemma setitem_absent {V : Type} (k : string) (v : V) (d : dict V) :
  ~ In k (keys d) -> setitem k v d = d ++ [(k, v)].
Proof.
  induction d as [|[k' v'] d IH]; cbn; intros Hn; [reflexivity|].
  destruct (String.eqb k k') eqn:E.
  - apply String.eqb_eq in E. subst. tauto.
  - rewrite IH; [reflexivity | tauto].
Qed.

Lemma setitem_present {V : Type} (k : string) (v old : V) (pre rest : dict V) :
  ~ In k (keys pre) ->
  setitem k v (pre ++ (k, old) :: rest) = pre ++ (k, v) :: rest.
Proof.
  induction pre as [|[k' v'] pre IH]; cbn; intros Hn.
  - now rewrite String.eqb_refl.
  - destruct (String.eqb k k') eqn:E.
    + apply String.eqb_eq in E. subst. tauto.
    + rewrite IH; [reflexivity | tauto].
Qed.

(** Storing under the keys of [old], in their order, replaces [old]. *)
Lemma overwrite_same_keys (kas old pre : converted) :
  NoDup (keys kas) ->
  keys old = keys kas ->
  (forall k, In k (keys kas) -> ~ In k (keys pre)) ->
  overwrite kas (pre ++ old) = pre ++ kas.
Proof.
  revert old pre.
  induction kas as [|[k a] kas IH]; intros old pre Hnd Hk Hdis.
  - destruct old; [reflexivity | discriminate].
  - destruct old as [|[k' o] old]; [discriminate|].
    cbn in Hk. injection Hk as -> Hk.
    inversion Hnd as [|? ? Hnot Hrest]; subst.
    unfold overwrite; cbn.
    rewrite setitem_present by (apply Hdis; now left).
    change (overwrite kas (pre ++ (k, a) :: old) = pre ++ (k, a) :: kas).
    replace (pre ++ (k, a) :: old) with ((pre ++ [(k, a)]) ++ old)
      by now rewrite <- app_assoc.
    rewrite IH; [now rewrite <- app_assoc | assumption | assumption |].
    intros k0 Hin. unfold keys. rewrite map_app, in_app_iff. cbn.
    intros [H|[H|[]]].
    + apply (Hdis k0); [now right | exact H].
    + subst. contradiction.
Qed.

(** A dict comprehension over distinct keys lists its items in order. *)
Lemma overwrite_empty (kas pre : converted) :
  NoDup (keys kas) ->
  (forall k, In k (keys kas) -> ~ In k (keys pre)) ->
  overwrite kas pre = pre ++ kas.
Proof.
  revert pre.
  induction kas as [|[k a] kas IH]; intros pre Hnd Hdis.
  - now rewrite app_nil_r.
  - inversion Hnd as [|? ? Hnot Hrest]; subst.
    unfold overwrite; cbn.
    rewrite setitem_absent by (apply Hdis; now left).
    change (overwrite kas (pre ++ [(k, a)]) = pre ++ (k, a) :: kas).
    rewrite IH; [now rewrite <- app_assoc | assumption |].
    intros k0 Hin. unfold keys. rewrite map_app, in_app_iff. cbn.
    intros [H|[H|[]]].
    + apply (Hdis k0); [now right | exact H].
    + subst. contradiction.
Qed.

Lemma fresh_setitem (n : nat) (k : string) (a : ndarray) (c : converted) :
  fresh n c = true -> n <= a_loc a -> fresh n (setitem k a c) = true.
Proof.
  intros Hc Ha. apply Nat.leb_le in Ha. unfold fresh in *.
  induction c as [|[k' a'] c IH]; cbn.
  - now rewrite Ha.
  - cbn in Hc. apply andb_true_iff in Hc. destruct Hc as [H1 H2].
    destruct (String.eqb k k'); cbn.
    + now rewrite Ha, H2.
    + now rewrite H1, IH.
Qed.

(** ** The loops over the fields of a mapping *)

Lemma converts_plain : converts convert_plain plain_calls.
Proof.
  intros v a w w' H. apply convert_plain_ok in H.
  destruct H as (cs & Hc & l1 & l2 & -> & H1 & H2).
  eexists. split; [exact Hc|]. intros n Hn. exists l1, l2.
  split; [reflexivity | lia].
Qed.

Lemma converts_aware : converts convert_aware aware_calls.
Proof.
  intros v a w w' H. apply convert_aware_ok in H.
  destruct H as (cs & Hc & l1 & l2 & H2 & Hcs).
  exists cs. split; [exact Hc|]. intros n Hn. exists l1, l2.
  split; [lia | exact Hcs].
Qed.

Lemma host_copy_frame (w w1 : world) (v : obj) :
  frame w w1 -> o_loc v < length (heap w) ->
  host_copy (heap w1) v = host_copy (heap w) v.
Proof.
  intros F Hv. unfold host_copy.
  destruct (nth_error (heap w) (o_loc v)) as [s|] eqn:E.
  - now rewrite (frame_nth_error _ _ _ _ F E).
  - apply nth_error_None in E. lia.
Qed.

Lemma store_each_ok (f : obj -> M ndarray)
    (shape : nat -> obj -> list call -> Prop) (items : fields) :
  converts f shape ->
  (forall n n' v cs, n <= n' -> shape n' v cs -> shape n v cs) ->
  forall (acc c : converted) (w w' : world),
    store_each f items acc w = (Ok c, w') ->
    exists acs,
      Forall2 (item_done shape w w') items acs
      /\ c = overwrite (combine (keys items) (map fst acs)) acc
      /\ frame w w'
      /\ calls w' = calls w ++ concat (map snd acs).
Proof.
  intros Hf Hmono.
  induction items as [|[k v] rest IH]; intros acc c w w' H; cbn in H.
  - injection H as <- <-. exists []. cbn.
    rewrite app_nil_r. auto using frame_refl.
  - unfold bind in H. destruct (f v w) as [[a|e] w1] eqn:E; [|discriminate].
    apply Hf in E. destruct E as (cs & (F1 & C1 & Ha & s & Hs & Hs') & Hshape).
    apply IH in H. destruct H as (acs & Hall & -> & F2 & C2).
    exists ((a, cs) :: acs). split; [|split; [|split]].
    + constructor.
      * split; [exact Ha|]. split; [|apply Hshape; lia].
        cbn. intros _. unfold host_copy. rewrite Hs.
        apply (frame_nth_error _ _ _ _ F2 Hs').
      * eapply Forall2_impl; [|exact Hall].
        intros [k' v'] [a' cs'] (Hfresh & Hcopy & Hsh). cbn in *.
        pose proof (frame_length _ _ F1) as Hlen.
        unfold item_done; cbn. split; [lia|]. split.
        -- intros Hv. rewrite Hcopy by lia. now apply host_copy_frame.
        -- eapply Hmono; [exact Hlen | exact Hsh].
    + reflexivity.
    + eapply frame_trans; eassumption.
    + cbn. rewrite C2, C1. now rewrite <- app_assoc.
Qed.

Lemma store_each_fresh (f : obj -> M ndarray)
    (shape : nat -> obj -> list call -> Prop) (items : fields) (n : nat) :
  converts f shape ->
  forall (acc c : converted) (w w' : world),
    store_each f items acc w = (Ok c, w') ->
    n <= length (heap w) ->
    fresh n acc = true ->
    fresh n c = true.
Proof.
  intros Hf.
  induction items as [|[k v] rest IH]; intros acc c w w' H Hn Hacc; cbn in H.
  - now injection H as <- <-.
  - unfold bind in H. destruct (f v w) as [[a|e] w1] eqn:E; [|discriminate].
    apply Hf in E. destruct E as (cs & (F1 & _ & Ha & _) & _).
    eapply IH; [exact H | |].
    + pose proof (frame_length _ _ F1). lia.
    + apply fresh_setitem; [assumption | lia].
Qed.

(** ** Call logs *)

Lemma plain_calls_mono (n n' : nat) (v : obj) (cs : list call) :
  n <= n' -> plain_calls n' v cs -> plain_calls n v cs.
Proof.
  intros Hn (l1 & l2 & -> & H1 & H2). exists l1, l2.
  split; [reflexivity | lia].
Qed.

Lemma aware_calls_mono (n n' : nat) (v : obj) (cs : list call) :
  n <= n' -> aware_calls n' v cs -> aware_calls n v cs.
Proof.
  intros Hn (l1 & l2 & H2 & Hcs). exists l1, l2. split; [lia | exact Hcs].
Qed.

(** The comprehension transfers and converts clones only. *)
Lemma plain_loop_calls (n : nat) (inputs : list nat) (w w' : world)
    (items : fields) (acs : list (ndarray * list call)) :
  Forall2 (item_done plain_calls w w') items acs ->
  n <= length (heap w) ->
  Forall (fun g => conversion n inputs g = true) (map snd acs).
Proof.
  intros Hall Hn.
  induction Hall as [|[k v] [a cs] items acs (_ & _ & Hcs) _ IH]; cbn;
    constructor; [|exact IH].
  cbn in Hcs. destruct Hcs as (l1 & l2 & -> & H1 & H2).
  assert (E1 : (n <=? l1)%nat = true) by (apply Nat.leb_le; lia).
  assert (E2 : (n <=? l2)%nat = true) by (apply Nat.leb_le; lia).
  unfold conversion. cbn. now rewrite E1, E2.
Qed.

(** The second loop invokes [to] on the values of the mapping themselves,
    and converts clones only. *)
Lemma aware_loop_calls (n : nat) (inputs : list nat) (w w' : world)
    (items : fields) (acs : list (ndarray * list call)) :
  Forall2 (item_done aware_calls w w') items acs ->
  n <= length (heap w) ->
  (forall kv, In kv items -> In (o_loc (snd kv)) inputs) ->
  Forall (fun g => conversion n inputs g = true) (map snd acs).
Proof.
  intros Hall Hn.
  induction Hall as [|[k v] [a cs] items acs (_ & _ & Hcs) _ IH];
    intros Hin; cbn; constructor.
  - cbn in Hcs. destruct Hcs as (l1 & l2 & H2 & Hcs).
    assert (E2 : (n <=? l2)%nat = true) by (apply Nat.leb_le; lia).
    assert (Hv : existsb (Nat.eqb (o_loc v)) inputs = true).
    { apply existsb_exists. exists (o_loc v). split.
      - apply (Hin (k, v)). now left.
      - apply Nat.eqb_refl. }
    destruct Hcs as [-> | ->]; unfold conversion; cbn; now rewrite ?Hv, E2.
  - apply IH. intros kv Hkv. apply Hin. now right.
Qed.

(** ** One sample *)

Lemma fields_wf_spec (h : list storage) (f : fields) :
  fields_wf h f = true ->
  NoDup (keys f) /\ Forall (fun kv => o_loc (snd kv) < length h) f.
Proof.
  unfold fields_wf, keys_unique. rewrite andb_true_iff, keys_unique_NoDup.
  intros [Hk Hv]. split; [exact Hk|].
  rewrite forallb_forall in Hv. apply Forall_forall.
  intros kv Hin. now apply Nat.ltb_lt, Hv.
Qed.

Lemma keys_combine {V : Type} (ks : list string) (vs : list V) :
  length ks = length vs -> keys (combine ks vs) = ks.
Proof.
  revert vs. induction ks as [|k ks IH]; intros [|v vs] H; cbn in *;
    try discriminate; [reflexivity|].
  f_equal. apply IH. now injection H.
Qed.

Lemma done_length (shape : nat -> obj -> list call -> Prop) (w w' : world)
    (items : fields) (acs : list (ndarray * list call)) :
  Forall2 (item_done shape w w') items acs ->
  length (keys items) = length (map fst acs).
Proof.
  intros H. unfold keys. rewrite !length_map.
  induction H; cbn; congruence.
Qed.

Lemma view_done (shape : nat -> obj -> list call -> Prop)
    (w w1 w2 w' : world) (items : fields) (acs : list (ndarray * list call)) :
  Forall2 (item_done shape w1 w2) items acs ->
  frame w w1 -> frame w2 w' ->
  Forall (fun kv => o_loc (snd kv) < length (heap w)) items ->
  view (heap w') (combine (keys items) (map fst acs)) = copies (heap w) items.
Proof.
  intros Hall F1 F2 Hv. unfold view, copies.
  induction Hall as [|[k v] [a cs] items acs (_ & Hcopy & _) _ IH]; cbn.
  - reflexivity.
  - inversion Hv as [|? ? Hv1 Hv2]; subst. cbn in *.
    f_equal; [|now apply IH]. f_equal.
    pose proof (frame_length _ _ F1) as Hlen.
    rewrite (host_copy_frame _ _ _ F1 Hv1) in Hcopy.
    specialize (Hcopy ltac:(lia)).
    unfold host_copy in *.
    destruct (nth_error (heap w) (o_loc v)) as [s|] eqn:E.
    + apply (frame_nth_error _ _ _ _ F2 Hcopy).
    + apply nth_error_None in E. lia.
Qed.

Lemma getitem_ok {V : Type} (k : string) (d : dict V) (v : V) (w w' : world) :
  getitem k d w = (Ok v, w') -> get k d = Some v /\ w' = w.
Proof.
  unfold getitem. destruct (get k d); cbn; intros H; [|discriminate].
  injection H as -> ->. auto.
Qed.

Lemma comprehension_items (kas : converted) :
  NoDup (keys kas) -> overwrite kas [] = kas.
Proof.
  intros H. apply (overwrite_empty kas []); auto.
Qed.

Lemma loop_replaces (kas old : converted) :
  NoDup (keys kas) -> keys old = keys kas -> overwrite kas old = kas.
Proof.
  intros H K. apply (overwrite_same_keys kas old []); auto.
Qed.

Lemma process_sample_converts : sample_converter process_sample.
Proof.
  intros smp w pg w' H.
  pose proof (framed_process_sample smp _ _ _ H) as F.
  unfold process_sample, bind in H.
  destruct (getitem "pred_pts_seg" smp w) as [[pred|e] w0] eqn:G1;
    [|discriminate].
  apply getitem_ok in G1. destruct G1 as [G1 ->].
  destruct (getitem "eval_ann_info" smp w) as [[gt|e] w0] eqn:G2;
    [|discriminate].
  apply getitem_ok in G2. destruct G2 as [G2 ->].
  destruct (store_each convert_plain pred [] w) as [[c1|e] w1] eqn:E1;
    [|discriminate].
  destruct (store_each convert_plain gt [] w1) as [[c2|e] w2] eqn:E2;
    [|discriminate].
  destruct (store_each convert_aware pred c1 w2) as [[c3|e] w3] eqn:E3;
    [|discriminate].
  injection H as <- <-. cbn [fst snd].
  pose proof (store_each_fresh _ _ _ (length (heap w)) converts_plain
                _ _ _ _ E1 (le_n _) eq_refl) as Fr1.
  destruct (store_each_ok _ _ _ converts_plain plain_calls_mono _ _ _ _ E1)
    as (acs1 & D1 & -> & F1 & _).
  pose proof (frame_length _ _ F1) as L1.
  pose proof (store_each_fresh _ _ _ (length (heap w)) converts_plain
                _ _ _ _ E2 L1 eq_refl) as Fr2.
  destruct (store_each_ok _ _ _ converts_plain plain_calls_mono _ _ _ _ E2)
    as (acs2 & D2 & -> & F2 & _).
  pose proof (frame_length _ _ F2) as L2.
  pose proof (store_each_fresh _ _ _ (length (heap w)) converts_aware
                _ _ _ _ E3 ltac:(lia) Fr1) as Fr3.
  destruct (store_each_ok _ _ _ converts_aware aware_calls_mono _ _ _ _ E3)
    as (acs3 & D3 & -> & F3 & _).
  split; [exact F|]. split; [exact Fr3|]. split; [exact Fr2|].
  unfold sample_wf. rewrite G1, G2, andb_true_iff.
  intros [Wp Wg]. apply fields_wf_spec in Wp, Wg.
  destruct Wp as [Np Vp], Wg as [Ng Vg].
  exists pred, gt. split; [exact G1|]. split; [exact G2|]. cbn [fst snd].
  pose proof (done_length _ _ _ _ _ D1) as Len1.
  pose proof (done_length _ _ _ _ _ D2) as Len2.
  pose proof (done_length _ _ _ _ _ D3) as Len3.
  split.
  - rewrite (comprehension_items (combine (keys pred) (map fst acs1)))
      by now rewrite keys_combine.
    rewrite loop_replaces by (rewrite !keys_combine; auto).
    apply (view_done _ w w2 w3 w3 _ _ D3); auto using frame_refl.
    eapply frame_trans; eassumption.
  - rewrite comprehension_items by now rewrite keys_combine.
    apply (view_done _ w w1 w2 w3 _ _ D2); auto.
Qed.

Lemma process_sample_aware_converts : sample_converter process_sample_aware.
Proof.
  intros smp w pg w' H.
  pose proof (framed_process_sample_aware smp _ _ _ H) as F.
  unfold process_sample_aware, bind in H.
  destruct (getitem "pred_pts_seg" smp w) as [[pred|e] w0] eqn:G1;
    [|discriminate].
  apply getitem_ok in G1. destruct G1 as [G1 ->].
  destruct (getitem "eval_ann_info" smp w) as [[gt|e] w0] eqn:G2;
    [|discriminate].
  apply getitem_ok in G2. destruct G2 as [G2 ->].
  destruct (store_each convert_plain gt [] w) as [[c2|e] w1] eqn:E2;
    [|discriminate].
  destruct (store_each convert_aware pred [] w1) as [[c3|e] w2] eqn:E3;
    [|discriminate].
  injection H as <- <-. cbn [fst snd].
  pose proof (store_each_fresh _ _ _ (length (heap w)) converts_plain
                _ _ _ _ E2 (le_n _) eq_refl) as Fr2.
  destruct (store_each_ok _ _ _ converts_plain plain_calls_mono _ _ _ _ E2)
    as (acs2 & D2 & -> & F2 & _).
  pose proof (frame_length _ _ F2) as L2.
  pose proof (store_each_fresh _ _ _ (length (heap w)) converts_aware
                _ _ _ _ E3 L2 eq_refl) as Fr3.
  destruct (store_each_ok _ _ _ converts_aware aware_calls_mono _ _ _ _ E3)
    as (acs3 & D3 & -> & F3 & _).
  split; [exact F|]. split; [exact Fr3|]. split; [exact Fr2|].
  unfold sample_wf. rewrite G1, G2, andb_true_iff.
  intros [Wp Wg]. apply fields_wf_spec in Wp, Wg.
  destruct Wp as [Np Vp], Wg as [Ng Vg].
  exists pred, gt. split; [exact G1|]. split; [exact G2|]. cbn [fst snd].
  pose proof (done_length _ _ _ _ _ D2) as Len2.
  pose proof (done_length _ _ _ _ _ D3) as Len3.
  split.
  - rewrite comprehension_items by now rewrite keys_combine.
    apply (view_done _ w w1 w2 w2 _ _ D3); auto using frame_refl.
  - rewrite comprehension_items by now rewrite keys_combine.
    apply (view_done _ w w w1 w2 _ _ D2); auto using frame_refl.
Qed.

(** ** The loop over the samples *)

Lemma fresh_mono (n n' : nat) (c : converted) :
  n <= n' -> fresh n' c = true -> fresh n c = true.
Proof.
  intros Hn. unfold fresh. rewrite !forallb_forall.
  intros H ka Hin. specialize (H ka Hin).
  apply Nat.leb_le in H. apply Nat.leb_le. lia.
Qed.

Lemma fields_wf_mono (h h' : list storage) (f : fields) :
  length h <= length h' -> fields_wf h f = true -> fields_wf h' f = true.
Proof.
  intros Hl. unfold fields_wf. rewrite !andb_true_iff, !forallb_forall.
  intros [Hk Hv]. split; [exact Hk|].
  intros kv Hin. specialize (Hv kv Hin).
  apply Nat.ltb_lt in Hv. apply Nat.ltb_lt. lia.
Qed.

Lemma sample_wf_mono (h h' : list storage) (smp : sample) :
  length h <= length h' -> sample_wf h smp = true -> sample_wf h' smp = true.
Proof.
  intros Hl. unfold sample_wf.
  destruct (get "pred_pts_seg" smp); [|reflexivity].
  destruct (get "eval_ann_info" smp); [|reflexivity].
  rewrite !andb_true_iff. intros [H1 H2].
  split; eapply fields_wf_mono; eassumption.
Qed.

Lemma copies_frame (w w1 : world) (f : fields) :
  frame w w1 ->
  Forall (fun kv => o_loc (snd kv) < length (heap w)) f ->
  copies (heap w1) f = copies (heap w) f.
Proof.
  intros F Hv. unfold copies. apply map_ext_in.
  intros kv Hin. f_equal. apply host_copy_frame; [exact F|].
  rewrite Forall_forall in Hv. now apply Hv.
Qed.

Lemma view_frame (w1 w' : world) (h : list storage) (c : converted)
    (f : fields) :
  frame w1 w' ->
  Forall (fun kv => o_loc (snd kv) < length h) f ->
  view (heap w1) c = copies h f ->
  view (heap w') c = copies h f.
Proof.
  intros F. revert f. unfold view, copies.
  induction c as [|[k a] c IH]; intros [|[k' v] f] Hv H; cbn in *;
    try discriminate; [reflexivity|].
  inversion Hv as [|? ? Hv1 Hv2]; subst. cbn in Hv1.
  injection H as -> Ha Hrest.
  f_equal; [|now apply IH]. f_equal.
  rewrite <- Ha. unfold host_copy in Ha.
  destruct (nth_error h (o_loc v)) as [s|] eqn:E.
  - rewrite Ha. apply (frame_nth_error _ _ _ _ F Ha).
  - apply nth_error_None in E. lia.
Qed.

Lemma converted_pair_frame (w w1 w2 w' : world) (smp : sample)
    (pg : converted * converted) :
  frame w w1 -> frame w2 w' ->
  sample_wf (heap w) smp = true ->
  converted_pair (heap w1) (heap w2) smp pg ->
  converted_pair (heap w) (heap w') smp pg.
Proof.
  intros F1 F2 Hwf (pred & gt & G1 & G2 & Vp & Vg).
  unfold sample_wf in Hwf. rewrite G1, G2, andb_true_iff in Hwf.
  destruct Hwf as [Wp Wg]. apply fields_wf_spec in Wp, Wg.
  destruct Wp as [_ Wp], Wg as [_ Wg].
  rewrite (copies_frame _ _ _ F1 Wp) in Vp.
  rewrite (copies_frame _ _ _ F1 Wg) in Vg.
  exists pred, gt. repeat split; try assumption.
  - now apply (view_frame w2).
  - now apply (view_frame w2).
Qed.

Lemma combine_fst_snd {A B : Type} (l : list (A * B)) :
  combine (map fst l) (map snd l) = l.
Proof.
  induction l as [|[a b] l IH]; cbn; [reflexivity | now rewrite IH].
Qed.

Lemma for_samples_ok (body : sample -> M (converted * converted))
    (data_samples : list sample) :
  sample_converter body ->
  forall (pred gt p g : list converted) (w w' : world),
    for_samples body data_samples pred gt w = (Ok (p, g), w') ->
    exists pgs,
      p = pred ++ map fst pgs
      /\ g = gt ++ map snd pgs
      /\ length pgs = length data_samples
      /\ frame w w'
      /\ Forall (fun pg => fresh (length (heap w)) (fst pg) = true
                           /\ fresh (length (heap w)) (snd pg) = true) pgs
      /\ (samples_wf (heap w) data_samples = true ->
          Forall2 (converted_pair (heap w) (heap w')) data_samples pgs).
Proof.
  intros Hb.
  induction data_samples as [|smp rest IH]; intros pred gt p g w w' H; cbn in H.
  - injection H as <- <- <-. exists []. cbn. rewrite !app_nil_r.
    split; [reflexivity|]. split; [reflexivity|]. split; [reflexivity|].
    split; [apply frame_refl|]. split; [constructor|]. intros _. constructor.
  - unfold bind in H. destruct (body smp w) as [[pg|e] w1] eqn:E; [|discriminate].
    apply Hb in E. destruct E as (F1 & Fp & Fg & Hpair).
    apply IH in H. destruct H as (pgs & -> & -> & Hlen & F2 & Hfresh & Hpairs).
    pose proof (frame_length _ _ F1) as L1.
    exists (pg :: pgs). cbn. rewrite <- !app_assoc. cbn.
    split; [reflexivity|]. split; [reflexivity|]. split; [congruence|].
    split; [eapply frame_trans; eassumption|]. split.
    + constructor; [auto|].
      eapply Forall_impl; [|exact Hfresh]. cbn.
      intros pg' [H1 H2]. split; eapply fresh_mono; eassumption.
    + rewrite andb_true_iff. intros [W1 W2]. constructor.
      * apply (converted_pair_frame w w w1 w'); auto using frame_refl.
      * assert (W2' : samples_wf (heap w1) rest = true).
        { unfold samples_wf in *. rewrite forallb_forall in *.
          intros s Hin. eapply sample_wf_mono; [exact L1 | auto]. }
        specialize (Hpairs W2').
        unfold samples_wf in W2. rewrite forallb_forall in W2.
        clear - Hpairs W2 F1 F2.
        induction Hpairs as [|s pg' ss pgs' Hp _ IHp]; constructor.
        -- apply (converted_pair_frame w w1 w' w');
             auto using frame_refl. apply W2. now left.
        -- apply IHp. intros s' Hin. apply W2. now right.
Qed.

(** A run of [process] with loop body [body] that returns has appended
    one pair per sample, in the order of the samples. *)
Lemma appended_pairs (body : sample -> M (converted * converted))
    (data_samples : list sample) (w w' : world) :
  sample_converter body ->
  bind (for_samples body data_samples [] [])
       (fun pg => add (fst pg) (snd pg)) w = (Ok tt, w') ->
  exists pgs,
    results w' = results w ++ pgs
    /\ length pgs = length data_samples
    /\ (exists ext, heap w' = heap w ++ ext)
    /\ Forall (fun pg => fresh (length (heap w)) (fst pg) = true
                         /\ fresh (length (heap w)) (snd pg) = true) pgs
    /\ (samples_wf (heap w) data_samples = true ->
        Forall2 (converted_pair (heap w) (heap w')) data_samples pgs).
Proof.
  intros Hb H. unfold bind in H.
  destruct (for_samples body data_samples [] [] w) as [[[p g]|e] w1] eqn:E;
    [|discriminate].
  apply (for_samples_ok _ _ Hb) in E.
  destruct E as (pgs & -> & -> & Hlen & F & Hfresh & Hpairs).
  unfold add in H. injection H as <-. cbn.
  destruct F as (Hh & _ & _ & _ & Hr).
  exists pgs. rewrite combine_fst_snd, Hr. auto.
Qed.

(** ** Storages that exist *)

Lemma nth_error_valid {A : Type} (l : list A) (n : nat) :
  n < length l -> exists x, nth_error l n = Some x.
Proof.
  intros H. destruct (nth_error l n) eqn:E; [eauto|].
  apply nth_error_None in E. lia.
Qed.

(** ** The calls of [process] *)

Lemma process_sample_calls (smp : sample) (w w' : world)
    (pg : converted * converted) :
  process_sample smp w = (Ok pg, w') ->
  exists groups,
    calls w' = calls w ++ concat groups
    /\ forall n inputs,
         n <= length (heap w) ->
         incl (prediction_locs [smp]) inputs ->
         Forall (fun g => conversion n inputs g = true) groups.
Proof.
  intros H. unfold process_sample, bind in H.
  destruct (getitem "pred_pts_seg" smp w) as [[pred|e] w0] eqn:G1;
    [|discriminate].
  apply getitem_ok in G1. destruct G1 as [G1 ->].
  destruct (getitem "eval_ann_info" smp w) as [[gt|e] w0] eqn:G2;
    [|discriminate].
  apply getitem_ok in G2. destruct G2 as [G2 ->].
  destruct (store_each convert_plain pred [] w) as [[c1|e] w1] eqn:E1;
    [|discriminate].
  destruct (store_each convert_plain gt [] w1) as [[c2|e] w2] eqn:E2;
    [|discriminate].
  destruct (store_each convert_aware pred c1 w2) as [[c3|e] w3] eqn:E3;
    [|discriminate].
  injection H as <- <-.
  destruct (store_each_ok _ _ _ converts_plain plain_calls_mono _ _ _ _ E1)
    as (acs1 & D1 & _ & F1 & C1).
  destruct (store_each_ok _ _ _ converts_plain plain_calls_mono _ _ _ _ E2)
    as (acs2 & D2 & _ & F2 & C2).
  destruct (store_each_ok _ _ _ converts_aware aware_calls_mono _ _ _ _ E3)
    as (acs3 & D3 & _ & F3 & C3).
  pose proof (frame_length _ _ F1) as L1.
  pose proof (frame_length _ _ F2) as L2.
  exists (map snd acs1 ++ map snd acs2 ++ map snd acs3).
  split; [rewrite C3, C2, C1, !concat_app; now rewrite <- !app_assoc|].
  intros n inputs Hn Hin. rewrite !Forall_app.
  split; [|split].
  - apply (plain_loop_calls n inputs _ _ _ _ D1 Hn).
  - apply (plain_loop_calls n inputs _ _ _ _ D2); lia.
  - apply (aware_loop_calls n inputs _ _ _ _ D3); [lia|].
    intros kv Hkv. apply Hin. unfold prediction_locs, fields_of. cbn.
    rewrite G1, app_nil_r. now apply (in_map (fun kv => o_loc (snd kv))).
Qed.

Lemma for_samples_calls (data_samples : list sample) :
  forall (pred gt : list converted) (w w' : world)
         (pg : list converted * list converted),
    for_samples process_sample data_samples pred gt w = (Ok pg, w') ->
    exists groups,
      calls w' = calls w ++ concat groups
      /\ forall n inputs,
           n <= length (heap w) ->
           incl (prediction_locs data_samples) inputs ->
           Forall (fun g => conversion n inputs g = true) groups.
Proof.
  induction data_samples as [|smp rest IH]; intros pred gt w w' pg H; cbn in H.
  - injection H as <- <-. exists []. cbn. now rewrite app_nil_r.
  - unfold bind in H.
    destruct (process_sample smp w) as [[pg1|e] w1] eqn:E; [|discriminate].
    pose proof (frame_length _ _ (framed_process_sample _ _ _ _ E)) as L1.
    apply process_sample_calls in E. destruct E as (g1 & C1 & P1).
    apply IH in H. destruct H as (g2 & C2 & P2).
    exists (g1 ++ g2).
    split; [rewrite C2, C1, concat_app; now rewrite <- app_assoc|].
    intros n inputs Hn Hin. rewrite Forall_app.
    unfold prediction_locs in Hin. cbn [flat_map] in Hin.
    split.
    + apply P1; [exact Hn|]. unfold prediction_locs. cbn [flat_map].
      rewrite app_nil_r. intros l Hl. apply Hin, in_or_app. now left.
    + apply P2; [lia|]. intros l Hl. apply Hin, in_or_app. now right.
Qed.

(** ** The text of a formatted number *)

Lemma digit_is_digit (n : Z) : is_digit (digit n) = true.
Proof.
  unfold is_digit, digit.
  assert (H : (0 <= n mod 10 < 10)%Z) by (apply Z.mod_pos_bound; lia).
  assert (K : Z.to_nat (n mod 10) < 10) by lia.
  rewrite nat_ascii_embedding by lia.
  apply andb_true_iff. split; apply Nat.leb_le; lia.
Qed.

Lemma digit_not_point (n : Z) : Ascii.eqb (digit n) "." = false.
Proof.
  destruct (Ascii.eqb (digit n) ".") eqn:E; [|reflexivity].
  apply Ascii.eqb_eq in E. pose proof (digit_is_digit n) as H.
  rewrite E in H. discriminate.
Qed.

Lemma digits_append (fuel : nat) (n : Z) (acc rest : string) :
  (digits fuel n acc ++ rest)%string = digits fuel n (acc ++ rest)%string.
Proof.
  revert n acc. induction fuel as [|fuel IH]; intros n acc; cbn.
  - reflexivity.
  - destruct (n / 10 =? 0)%Z; [reflexivity|]. now rewrite IH.
Qed.

Lemma after_point_digit (n : Z) (s : string) :
  after_point (String (digit n) s) = after_point s.
Proof.
  cbn [after_point]. now rewrite digit_not_point.
Qed.

Lemma after_point_digits (fuel : nat) (n : Z) (acc : string) :
  after_point (digits fuel n acc) = after_point acc.
Proof.
  revert n acc. induction fuel as [|fuel IH]; intros n acc; cbn [digits].
  - reflexivity.
  - destruct (n / 10 =? 0)%Z.
    + apply after_point_digit.
    + rewrite IH. apply after_point_digit.
Qed.

Lemma after_point_fixed4 (negative : bool) (n : Z) :
  after_point (fixed4 negative n) = Some (fraction4 (n mod 10000)).
Proof.
  unfold fixed4, decimal.
  assert (H : forall s, after_point ((if negative then "-" else "") ++ s)
                        = after_point s)
    by (intros s; now destruct negative).
  rewrite H, digits_append, after_point_digits. cbn.
  reflexivity.
Qed.

Lemma four_decimals_fixed4 (negative : bool) (n : Z) :
  four_decimals (fixed4 negative n) = true.
Proof.
  unfold four_decimals. rewrite after_point_fixed4.
  unfold fraction4. cbn [String.length all_digits Nat.eqb andb].
  now rewrite !digit_is_digit.
Qed.

(** What Python prints for 0.12345, 0.03125 (a tie, rounded to even),
    0.99995, -0.00001 and 123456.789. *)
Example format_4f_values :
  format_4f (S754_finite false 8895509983982204 (-56)) = "0.1235"
  /\ format_4f (S754_finite false 4503599627370496 (-57)) = "0.0312"
  /\ format_4f (S754_finite false 9006748894778255 (-53)) = "1.0000"
  /\ format_4f (S754_finite true 5902958103587057 (-69)) = "-0.0000"
  /\ format_4f (S754_finite false 8483885939586761 (-36)) = "123456.7890".
Proof. repeat split. Qed.

(** ** The lines of the report table *)

Lemma gen_body_rows (t : AsciiTable) (ft : list string) (row_count : Z)
    (rows : list (list string)) :
  inner_heading_row_border t = true ->
  inner_footing_row_border t = true ->
  inner_row_border t = false ->
  forall i : Z,
    (1 <= i)%Z ->
    row_count = (i + Z.of_nat (length rows) + 1)%Z ->
    gen_body t row_count i (rows ++ [ft])
    = map (Cells Row) rows
        ++ (match rows with [] => [] | _ :: _ => [Border Footing] end)
        ++ [Cells Footing ft].
Proof.
  intros Hh Hf Hr.
  induction rows as [|r rs IH]; intros i Hi Hn; cbn [app map gen_body].
  - rewrite Hh, Hf. cbn in Hn.
    replace (i =? 0)%Z with false by (symmetry; apply Z.eqb_neq; lia).
    replace (i =? row_count - 1)%Z with true
      by (symmetry; apply Z.eqb_eq; lia).
    reflexivity.
  - rewrite Hh, Hf, Hr. cbn [length] in Hn.
    replace (i =? 0)%Z with false by (symmetry; apply Z.eqb_neq; lia).
    replace (i =? row_count - 1)%Z with false
      by (symmetry; apply Z.eqb_neq; lia).
    cbn [andb]. rewrite IH by lia.
    destruct rs as [|r' rs'].
    + replace (i =? row_count - 2)%Z with true
        by (symmetry; apply Z.eqb_eq; cbn in Hn; lia).
      reflexivity.
    + replace (i =? row_count - 2)%Z with false
        by (symmetry; apply Z.eqb_neq; cbn [length] in Hn; lia).
      reflexivity.
Qed.

Lemma gen_table_report (metrics : report) :
  gen_table (report_table metrics)
  = [Border Top; Cells Heading header; Border Heading]
      ++ map (Cells Row) (class_rows metrics)
      ++ (match class_rows metrics with
          | [] => []
          | _ :: _ => [Border Footing]
          end)
      ++ [Cells Footing (footer metrics); Border Bottom].
Proof.
  unfold gen_table, report_table.
  set (t := set_inner_footing_row_border true _).
  assert (Hh : inner_heading_row_border t = true) by reflexivity.
  assert (Hf : inner_footing_row_border t = true) by reflexivity.
  assert (Hr : inner_row_border t = false) by reflexivity.
  assert (Ho : outer_border t = true) by reflexivity.
  assert (Hd : table_data t
               = header :: class_rows metrics ++ [footer metrics])
    by reflexivity.
  rewrite Ho, Hd. clearbody t. cbn [gen_body].
  rewrite Hh, Z.eqb_refl. cbn [andb].
  destruct (0 =? Z.of_nat (length (header :: class_rows metrics
                                     ++ [footer metrics])) - 1)%Z eqn:E.
  { apply Z.eqb_eq in E. cbn [length] in E. rewrite length_app in E.
    cbn [length] in E. lia. }
  rewrite (gen_body_rows t (footer metrics)); try assumption; try lia.
  - cbn [app]. now rewrite <- !app_assoc.
  - cbn [length]. rewrite length_app. cbn [length]. lia.
Qed.

(** The rendering of a report with two classes. *)
Example table_of_two_classes :
  Table.table (report_table Examples.chair_table)
  = "+---------+---------+---------+--------+
| classes | AP_0.25 | AP_0.50 | AP     |
+---------+---------+---------+--------+
| chair   | 1.0000  | 1.0000  | 1.0000 |
| table   | nan     | nan     | nan    |
+---------+---------+---------+--------+
| Overall | 1.0000  | 1.0000  | 1.0000 |
+---------+---------+---------+--------+".
Proof. reflexivity. Qed.

(** * Properties of [process] *)

Lemma process_heap {Batch : Type} (data_batch : Batch)
    (data_samples : list sample) (w w' : world) (r : res unit) :
  process data_batch data_samples w = (r, w') ->
  (exists ext, heap w' = heap w ++ ext)
  /\ exists new, results w' = results w ++ new
                 /\ (r <> Ok tt -> new = []).
Proof.
  unfold process, bind. intros H.
  destruct (for_samples process_sample data_samples [] [] w)
    as [[pg|e] w1] eqn:E.
  - apply (framed_for_samples _ _ _ _ framed_process_sample) in E.
    destruct E as (Hh & _ & _ & _ & Hr).
    unfold add in H. injection H as <- <-. cbn. split; [exact Hh|].
    rewrite Hr. eexists. split; [reflexivity|]. intros C. now destruct C.
  - apply (framed_for_samples _ _ _ _ framed_process_sample) in E.
    destruct E as (Hh & _ & _ & _ & Hr).
    injection H as <- <-. split; [exact Hh|].
    exists []. now rewrite app_nil_r.
Qed.



(** C9.  [process] on the same state and the same samples behaves the same
    for any two values of [data_batch], of whatever type: same outcome,
    same Accumulated Results, same world. *)
Theorem process_ignores_data_batch {Batch1 Batch2 : Type}
    (data_batch1 : Batch1) (data_batch2 : Batch2)
    (data_samples : list sample) (w : world) :
  process data_batch1 data_samples w = process data_batch2 data_samples w.
Proof. reflexivity. Qed.

(** C10, as the code has it.  [process] does not write to its inputs.
    Whatever the outcome, every storage that existed before the call is
    still in place with its content.  When the call returns, every
    accumulated array views a storage allocated during the call, holding
    the host-memory copy of the field value.  The calls it has made on
    array-likes are, conversion after conversion, [clone], [cpu], [numpy],
    or [to], [clone], [numpy], or [clone], [numpy]: every [numpy] comes
    after a [clone], and [cpu] and [numpy] have only been invoked on
    storages allocated during the call; but [to] comes before [clone] and
    has been invoked on the storage of a prediction value, that is on the
    value itself. *)
Theorem process_copies_without_writing_inputs {Batch : Type}
    (data_batch : Batch) (data_samples : list sample) (w w' : world)
    (r : res unit) :
  process data_batch data_samples w = (r, w') ->
  (exists ext, heap w' = heap w ++ ext)
  /\ (r = Ok tt ->
      exists new groups,
        results w' = results w ++ new
        /\ Forall (fun pg => fresh (length (heap w)) (fst pg) = true
                             /\ fresh (length (heap w)) (snd pg) = true) new
        /\ (samples_wf (heap w) data_samples = true ->
            Forall2 (converted_pair (heap w) (heap w')) data_samples new)
        /\ calls w' = calls w ++ concat groups
        /\ Forall
             (fun g =>
                conversion (length (heap w)) (prediction_locs data_samples) g
                = true)
             groups).
Proof.
  intros H. split; [apply (process_heap _ _ _ _ _ H)|].
  intros ->. pose proof H as H'.
  apply appended_pairs in H; [|exact process_sample_converts].
  destruct H as (pgs & Hr & _ & _ & Hf & Hp).
  unfold process, bind in H'.
  destruct (for_samples process_sample data_samples [] [] w)
    as [[pg|e] w1] eqn:E; [|discriminate].
  apply for_samples_calls in E. destruct E as (groups & Hc & Hg).
  unfold add in H'. injection H' as <-. cbn in *.
  exists pgs, groups. repeat split; auto. apply Hg; [lia | apply incl_refl].
Qed.

Lemma process_copies_without_writing_inputs_witness :
  process tt [Examples.tensor_sample] Examples.start
  = (Ok tt, Examples.after_tensor_sample)
  /\ (exists ext,
        heap Examples.after_tensor_sample = heap Examples.start ++ ext)
  /\ exists groups,
      calls Examples.after_tensor_sample = concat groups
      /\ Forall (fun g => conversion 3 [0] g = true) groups.
Proof.
  split; [reflexivity|].
  destruct (process_copies_without_writing_inputs tt [Examples.tensor_sample]
              Examples.start Examples.after_tensor_sample (Ok tt) eq_refl)
    as (Hh & H).
  split; [exact Hh|].
  destruct (H eq_refl) as (new & groups & _ & _ & _ & Hc & Hok).
  exists groups. split; [exact Hc | exact Hok].
Defined.

(** C10 as stated fails: not every device transfer acts on a clone.  In
    the run of [process] on a sample with one prediction tensor (storage
    0) and one ground-truth tensor (storage 1), where storages 0 to 2
    exist at the start, the second loop invokes [to] on storage 0, the
    prediction value itself, and only then [clone], on the result of the
    transfer. *)
Lemma process_transfers_the_prediction_itself :
  process tt [Examples.tensor_sample] Examples.start
  = (Ok tt, Examples.after_tensor_sample)
  /\ length (heap Examples.start) = 3
  /\ get "pred_pts_seg" Examples.tensor_sample
     = Some [("instance_labels", Examples.tensor 0)]
  /\ calls Examples.after_tensor_sample
     = [Call m_clone 0; Call m_cpu 3; Call m_numpy 4;
        Call m_clone 1; Call m_cpu 5; Call m_numpy 5;
        Call m_to 0; Call m_clone 6; Call m_numpy 7]
  /\ on_clones (length (heap Examples.start))
       (calls Examples.after_tensor_sample)
     = false.
Proof. repeat split. Qed.

(** ** When the conversions return *)

Ltac run_conversion E :=
  unfold returns, convert_plain, convert_aware, hasattr_to, clone, cpu,
    to_cpu, numpy, to_host, bind, record_call, load, alloc, ret, raise,
    at_loc;
  cbn; rewrite ?E; cbn; rewrite ?nth_error_last; cbn;
  rewrite ?E; cbn; rewrite ?nth_error_last; cbn.

Ltac settle_conversion :=
  split;
  [ intros (a & w' & H); (discriminate || reflexivity)
  | intros H; (discriminate || eauto) ].

Lemma convert_plain_returns (v : obj) (w : world) :
  returns (convert_plain v) w <-> plain_can (heap w) v = true.
Proof.
  destruct v as [l g c p t n]. unfold plain_can. cbn.
  destruct (nth_error (heap w) l) as [[dev d]|] eqn:E.
  - destruct c, p, n, g, dev; run_conversion E; settle_conversion.
  - destruct c, p, n, g; run_conversion E; settle_conversion.
Qed.

Lemma convert_aware_returns (v : obj) (w : world) :
  returns (convert_aware v) w <-> aware_can (heap w) v = true.
Proof.
  destruct v as [l g c p t n]. unfold aware_can. cbn.
  destruct (nth_error (heap w) l) as [[dev d]|] eqn:E.
  - destruct c, t, n, g, dev; run_conversion E; settle_conversion.
  - destruct c, t, n, g; run_conversion E; settle_conversion.
Qed.

Lemma plain_can_frame (w w1 : world) (v : obj) :
  frame w w1 -> o_loc v < length (heap w) ->
  plain_can (heap w1) v = plain_can (heap w) v.
Proof.
  intros F Hv. unfold plain_can.
  destruct (nth_error_valid _ _ Hv) as [s E].
  now rewrite E, (frame_nth_error _ _ _ _ F E).
Qed.

Lemma aware_can_frame (w w1 : world) (v : obj) :
  frame w w1 -> o_loc v < length (heap w) ->
  aware_can (heap w1) v = aware_can (heap w) v.
Proof.
  intros F Hv. unfold aware_can.
  destruct (nth_error_valid _ _ Hv) as [s E].
  now rewrite E, (frame_nth_error _ _ _ _ F E).
Qed.

Lemma forallb_can_frame (can : list storage -> obj -> bool) (w w1 : world)
    (items : fields) :
  (forall v, o_loc v < length (heap w) -> can (heap w1) v = can (heap w) v) ->
  Forall (fun kv => o_loc (snd kv) < length (heap w)) items ->
  forallb (fun kv => can (heap w1) (snd kv)) items
  = forallb (fun kv => can (heap w) (snd kv)) items.
Proof.
  intros Hc Hv. induction Hv as [|kv items Hkv _ IH]; cbn; [reflexivity|].
  now rewrite IH, Hc.
Qed.

Lemma valid_frame (w w1 : world) (items : fields) :
  frame w w1 ->
  Forall (fun kv => o_loc (snd kv) < length (heap w)) items ->
  Forall (fun kv => o_loc (snd kv) < length (heap w1)) items.
Proof.
  intros F. pose proof (frame_length _ _ F) as L.
  apply Forall_impl. intros kv H. lia.
Qed.

(** A loop over the fields returns exactly when every conversion can. *)
Lemma store_each_returns (f : obj -> M ndarray)
    (can : list storage -> obj -> bool) :
  (forall v w, returns (f v) w <-> can (heap w) v = true) ->
  (forall v, framed (f v)) ->
  (forall w w1 v, frame w w1 -> o_loc v < length (heap w) ->
                  can (heap w1) v = can (heap w) v) ->
  forall (items : fields) (acc : converted) (w : world),
    Forall (fun kv => o_loc (snd kv) < length (heap w)) items ->
    (returns (store_each f items acc) w
     <-> forallb (fun kv => can (heap w) (snd kv)) items = true).
Proof.
  intros Hf Hfr Hst.
  induction items as [|[k v] rest IH]; intros acc w Hv; cbn.
  - split; [reflexivity|]. intros _. unfold returns, ret. eauto.
  - inversion Hv as [|? ? Hv1 Hv2]; subst. cbn in Hv1.
    rewrite andb_true_iff. split.
    + intros (c & w' & H). unfold bind in H.
      destruct (f v w) as [[a|e] w1] eqn:E; [|discriminate].
      pose proof (Hfr _ _ _ _ E) as F.
      split; [apply Hf; unfold returns; eauto|].
      rewrite <- (forallb_can_frame can w w1);
        [|intros; now apply Hst | assumption].
      apply (IH (setitem k a acc) w1); [now apply (valid_frame w)|].
      unfold returns. eauto.
    + intros [Hc Hrest]. apply Hf in Hc. destruct Hc as (a & w1 & E).
      pose proof (Hfr _ _ _ _ E) as F.
      destruct (IH (setitem k a acc) w1 (valid_frame _ _ _ F Hv2))
        as [_ Hback].
      destruct Hback as (c & w' & H).
      { rewrite (forallb_can_frame can w w1);
          [exact Hrest | intros; now apply Hst | assumption]. }
      exists c, w'. unfold bind. now rewrite E.
Qed.

(** Where the body of [process] returns, so does the body that performs
    only the capability-aware conversion, from any world that holds the
    same field values. *)
Lemma process_sample_aware_returns (smp : sample) (w0 wa wb : world) :
  frame w0 wa -> frame w0 wb ->
  sample_wf (heap w0) smp = true ->
  returns (process_sample smp) wa ->
  returns (process_sample_aware smp) wb.
Proof.
  intros Fa Fb Hwf (pg & w' & H).
  unfold process_sample, bind in H.
  destruct (getitem "pred_pts_seg" smp wa) as [[pred|e] w1] eqn:G1;
    [|discriminate].
  apply getitem_ok in G1. destruct G1 as [G1 ->].
  destruct (getitem "eval_ann_info" smp wa) as [[gt|e] w1] eqn:G2;
    [|discriminate].
  apply getitem_ok in G2. destruct G2 as [G2 ->].
  destruct (store_each convert_plain pred [] wa) as [[c1|e] w1] eqn:E1;
    [|discriminate].
  destruct (store_each convert_plain gt [] w1) as [[c2|e] w2] eqn:E2;
    [|discriminate].
  destruct (store_each convert_aware pred c1 w2) as [[c3|e] w3] eqn:E3;
    [|discriminate].
  unfold sample_wf in Hwf. rewrite G1, G2, andb_true_iff in Hwf.
  destruct Hwf as [Wp Wg]. apply fields_wf_spec in Wp, Wg.
  destruct Wp as [_ Vp], Wg as [_ Vg].
  pose proof (framed_store_each _ _ _ framed_convert_plain _ _ _ E1) as F1.
  pose proof (framed_store_each _ _ _ framed_convert_plain _ _ _ E2) as F2.
  cbv beta in F1, F2.
  assert (F01 : frame w0 w1) by exact (frame_trans _ _ _ Fa F1).
  assert (F02 : frame w0 w2) by exact (frame_trans _ _ _ F01 F2).
  assert (Cg : forallb (fun kv => plain_can (heap w0) (snd kv)) gt = true).
  { rewrite <- (forallb_can_frame plain_can w0 w1);
      [|intros; now apply plain_can_frame | assumption].
    apply (store_each_returns convert_plain plain_can convert_plain_returns
             framed_convert_plain plain_can_frame gt [] w1);
      [now apply (valid_frame w0) | unfold returns; eauto]. }
  assert (Cp : forallb (fun kv => aware_can (heap w0) (snd kv)) pred = true).
  { rewrite <- (forallb_can_frame aware_can w0 w2);
      [|intros; now apply aware_can_frame | assumption].
    apply (store_each_returns convert_aware aware_can convert_aware_returns
             framed_convert_aware aware_can_frame pred c1 w2);
      [now apply (valid_frame w0) | unfold returns; eauto]. }
  destruct (store_each_returns convert_plain plain_can convert_plain_returns
              framed_convert_plain plain_can_frame gt [] wb
              (valid_frame _ _ _ Fb Vg)) as [_ Rg].
  destruct Rg as (d2 & wb1 & D2).
  { rewrite (forallb_can_frame plain_can w0 wb);
      [exact Cg | intros; now apply plain_can_frame | assumption]. }
  pose proof (framed_store_each _ _ _ framed_convert_plain _ _ _ D2) as Fb1.
  cbv beta in Fb1.
  assert (F0b1 : frame w0 wb1) by exact (frame_trans _ _ _ Fb Fb1).
  destruct (store_each_returns convert_aware aware_can convert_aware_returns
              framed_convert_aware aware_can_frame pred [] wb1
              (valid_frame _ _ _ F0b1 Vp)) as [_ Rp].
  destruct Rp as (d3 & wb2 & D3).
  { rewrite (forallb_can_frame aware_can w0 wb1);
      [exact Cp | intros; now apply aware_can_frame | assumption]. }
  exists (d3, d2), wb2.
  unfold process_sample_aware, bind, getitem. rewrite G1, G2. cbn.
  now rewrite D2, D3.
Qed.

Lemma for_samples_aware_returns (data_samples : list sample) (w0 : world) :
  samples_wf (heap w0) data_samples = true ->
  forall (pa ga pb gb : list converted) (wa wb : world),
    frame w0 wa -> frame w0 wb ->
    returns (for_samples process_sample data_samples pa ga) wa ->
    returns (for_samples process_sample_aware data_samples pb gb) wb.
Proof.
  induction data_samples as [|smp rest IH]; intros Hwf pa ga pb gb wa wb Fa Fb.
  - intros _. unfold returns; cbn; unfold ret. eauto.
  - cbn in Hwf. apply andb_true_iff in Hwf. destruct Hwf as [W1 W2].
    intros (pg & w' & H). cbn in H. unfold bind in H.
    destruct (process_sample smp wa) as [[pg1|e] wa1] eqn:E; [|discriminate].
    destruct (process_sample_aware_returns smp w0 wa wb Fa Fb W1)
      as (pg2 & wb1 & E'); [unfold returns; eauto|].
    pose proof (framed_process_sample _ _ _ _ E) as Fa1.
    pose proof (framed_process_sample_aware _ _ _ _ E') as Fb1.
    cbv beta in Fa1, Fb1.
    destruct (IH W2 (pa ++ [fst pg1]) (ga ++ [snd pg1])
                (pb ++ [fst pg2]) (gb ++ [snd pg2]) wa1 wb1)
      as (pg3 & wb2 & E'').
    + exact (frame_trans _ _ _ Fa Fa1).
    + exact (frame_trans _ _ _ Fb Fb1).
    + unfold returns. eauto.
    + exists pg3, wb2. cbn. unfold bind. now rewrite E'.
Qed.

(** Whenever [process] returns, so does the implementation that performs
    only the capability-aware conversion, and the two have accumulated
    arrays with the same content. *)
Lemma process_agrees_with_capability_only {Batch : Type} (data_batch : Batch)
    (data_samples : list sample) (w w1 : world) :
  samples_wf (heap w) data_samples = true ->
  process data_batch data_samples w = (Ok tt, w1) ->
  exists w2 new1 new2,
    process_aware data_batch data_samples w = (Ok tt, w2)
    /\ results w1 = results w ++ new1
    /\ results w2 = results w ++ new2
    /\ map (fun pg => (view (heap w1) (fst pg), view (heap w1) (snd pg))) new1
       = map (fun pg => (view (heap w2) (fst pg), view (heap w2) (snd pg))) new2.
Proof.
  intros Hwf H1.
  assert (H2 : exists w2, process_aware data_batch data_samples w = (Ok tt, w2)).
  { unfold process, bind in H1.
    destruct (for_samples process_sample data_samples [] [] w)
      as [[pg|e] wa] eqn:E; [|discriminate].
    destruct (for_samples_aware_returns data_samples w Hwf [] [] [] [] w w
                (frame_refl w) (frame_refl w)) as (pg2 & wb & E2);
      [unfold returns; eauto|].
    unfold process_aware, bind. rewrite E2. unfold add. eauto. }
  destruct H2 as [w2 H2]. exists w2.
  pose proof H2 as H2'.
  apply appended_pairs in H1; [|exact process_sample_converts].
  apply appended_pairs in H2'; [|exact process_sample_aware_converts].
  destruct H1 as (new1 & R1 & _ & _ & _ & P1).
  destruct H2' as (new2 & R2 & _ & _ & _ & P2).
  exists new1, new2. split; [exact H2|]. split; [exact R1|]. split; [exact R2|].
  specialize (P1 Hwf). specialize (P2 Hwf). clear - P1 P2.
  revert new2 P2.
  induction P1 as [|smp pg1 ss pgs1 Hp1 _ IH]; intros new2 P2;
    inversion P2 as [|? pg2 ? pgs2 Hp2 Hrest]; subst; cbn.
  - reflexivity.
  - rewrite (IH _ Hrest). f_equal.
    destruct Hp1 as (p1 & g1 & A1 & B1 & V1 & W1).
    destruct Hp2 as (p2 & g2 & A2 & B2 & V2 & W2).
    rewrite A1 in A2. rewrite B1 in B2.
    injection A2 as <-. injection B2 as <-. congruence.
Qed.

(** C1 (defect of the code).  A prediction field whose value offers
    [clone] and [numpy] but neither [to] nor [cpu] makes [process] raise
    [AttributeError] in the dict comprehension and accumulate nothing,
    although the loop written for such values would copy it into a new
    host-memory array; a ground-truth field of that kind makes [process]
    raise as well; and so does a field that is a [numpy.ndarray], which
    has no [clone]. *)
Theorem process_raises_on_host_only_value :
  o_to (Examples.host_only 2) = false
  /\ o_cpu (Examples.host_only 2) = false
  /\ fst (process tt [Examples.host_only_sample] Examples.start)
     = Raise (AttributeError "cpu")
  /\ results (snd (process tt [Examples.host_only_sample] Examples.start)) = []
  /\ fst (process tt [Examples.host_only_truth] Examples.start)
     = Raise (AttributeError "cpu")
  /\ fst (process tt [Examples.plain_array_sample] Examples.start)
     = Raise (AttributeError "clone")
  /\ exists a w',
      convert_aware (Examples.host_only 2) Examples.start = (Ok a, w')
      /\ nth_error (heap w') (a_loc a) = Some (Storage CPU [5%Z])
      /\ a_loc a <> o_loc (Examples.host_only 2).
Proof.
  repeat (split; [reflexivity|]).
  eexists. eexists. split; [reflexivity|]. split; [reflexivity|].
  cbn. discriminate.
Qed.

(** C8 (defect of the code).  On a prediction value without [cpu] and
    without [to], [process] raises in the dict comprehension, whereas the
    implementation that performs only the capability-aware conversion
    returns and accumulates the copy: the comprehension is not dead code. *)
Theorem process_differs_from_capability_only :
  fst (process tt [Examples.host_only_sample] Examples.start)
  = Raise (AttributeError "cpu")
  /\ snapshot (snd (process tt [Examples.host_only_sample] Examples.start))
     = []
  /\ fst (process_aware tt [Examples.host_only_sample] Examples.start) = Ok tt
  /\ snapshot
       (snd (process_aware tt [Examples.host_only_sample] Examples.start))
     = [([("instance_labels", Some (Storage CPU [5%Z]))], [])].
Proof. repeat split. Qed.

(** * Properties of [evaluate] *)

Section EvaluateFacts.

Variable Args : Type.
Variable compute_metric :
  Args -> list (dict (option storage) * dict (option storage)) -> res report.

Lemma evaluate_run (args : Args) (w : world) :
  evaluate Args compute_metric args w
  = match compute_metric args (snapshot w) with
    | Ok metrics =>
        (Ok metrics,
         set_results []
           (set_logged
              (logged w
                 ++ [(newline ++ Table.table (report_table metrics))%string])
              w))
    | Raise e => (Raise e, w)
    end.
Proof.
  unfold evaluate, compute, bind.
  destruct (compute_metric args (snapshot w)); reflexivity.
Qed.

End EvaluateFacts.

(** C7.  The outcome of [evaluate] is the outcome of the underlying
    computation applied to the pass-through arguments as they are and to
    the content of the Accumulated Results: the report that computation
    returns (the mapping, not the rendered text), or the exception it
    raises. *)
Theorem evaluate_returns_the_computed_report (Args : Type)
    (compute_metric :
       Args -> list (dict (option storage) * dict (option storage)) -> res report)
    (args : Args) (w : world) :
  fst (evaluate Args compute_metric args w)
  = compute_metric args (snapshot w).
Proof.
  rewrite evaluate_run.
  destruct (compute_metric args (snapshot w)); reflexivity.
Qed.

(** C2.  When the computation returns a report, [evaluate] returns it and
    leaves the Accumulated Results empty; the computation saw the results
    as they were before the reset; and the outcome of a second [evaluate]
    right after is the one of the computation over the empty
    accumulation. *)
Theorem evaluate_resets_accumulated_results (Args : Type)
    (compute_metric :
       Args -> list (dict (option storage) * dict (option storage)) -> res report)
    (args : Args) (w : world) (metrics : report) :
  compute_metric args (snapshot w) = Ok metrics ->
  exists w',
    evaluate Args compute_metric args w = (Ok metrics, w')
    /\ results w' = []
    /\ heap w' = heap w
    /\ forall args',
        fst (evaluate Args compute_metric args' w') = compute_metric args' [].
Proof.
  intros H. rewrite evaluate_run, H. eexists. split; [reflexivity|].
  split; [reflexivity|]. split; [reflexivity|].
  intros args'. rewrite evaluate_run. cbn.
  destruct (compute_metric args' []); reflexivity.
Qed.

Lemma evaluate_resets_accumulated_results_witness :
  Examples.constant_metric tt (snapshot Examples.after_tensor_sample)
  = Ok Examples.chair_table
  /\ exists w',
      evaluate unit Examples.constant_metric tt Examples.after_tensor_sample
      = (Ok Examples.chair_table, w')
      /\ results w' = [].
Proof.
  split; [reflexivity|].
  destruct (evaluate_resets_accumulated_results unit Examples.constant_metric
              tt Examples.after_tensor_sample Examples.chair_table eq_refl)
    as (w' & H1 & H2 & _).
  exists w'. split; assumption.
Defined.

(** C6, as the code has it.  When the computation returns a report,
    [evaluate] hands the logger one message, a newline followed by the
    rendered table.  The table has the header row
    [classes, AP_0.25, AP_0.50, AP], one row per class with the label and
    its three AP values under ['.4f'], and the footer row [Overall] with
    the three dataset-wide values.  Every finite value is printed with
    exactly four digits after the decimal point.  The lines of the table
    are: top border, header, a border, the class rows with no border
    between them, a border before the footer when there is a class row,
    the footer, bottom border. *)
Theorem evaluate_logs_the_report_table (Args : Type)
    (compute_metric :
       Args -> list (dict (option storage) * dict (option storage)) -> res report)
    (args : Args) (w : world) (metrics : report) :
  compute_metric args (snapshot w) = Ok metrics ->
  (exists w',
      evaluate Args compute_metric args w = (Ok metrics, w')
      /\ logged w'
         = logged w ++ [(newline ++ Table.table (report_table metrics))%string])
  /\ table_data (report_table metrics)
     = ["classes"; "AP_0.25"; "AP_0.50"; "AP"]
         :: class_rows metrics ++ [footer metrics]
  /\ Forall2
       (fun ld row =>
          row = [fst ld; format_4f (ap25 (snd ld)); format_4f (ap50 (snd ld));
                 format_4f (ap (snd ld))])
       (classes metrics) (class_rows metrics)
  /\ footer metrics
     = ["Overall"; format_4f (all_ap_25 metrics);
        format_4f (all_ap_50 metrics); format_4f (all_ap metrics)]
  /\ (forall x, is_finite x = true -> four_decimals (format_4f x) = true)
  /\ (format_4f S754_nan = "nan"
      /\ format_4f (S754_infinity false) = "inf"
      /\ format_4f (S754_infinity true) = "-inf")
  /\ gen_table (report_table metrics)
     = [Border Top; Cells Heading header; Border Heading]
         ++ map (Cells Row) (class_rows metrics)
         ++ (match class_rows metrics with
             | [] => []
             | _ :: _ => [Border Footing]
             end)
         ++ [Cells Footing (footer metrics); Border Bottom].
Proof.
  intros H. split; [|split; [|split; [|split; [|split; [|split]]]]].
  - rewrite evaluate_run, H. eexists. split; reflexivity.
  - reflexivity.
  - unfold class_rows. induction (classes metrics) as [|ld l IH]; cbn;
      constructor; [reflexivity | exact IH].
  - reflexivity.
  - intros [s| | |s m e] Hx; try discriminate; apply four_decimals_fixed4.
  - repeat split.
  - apply gen_table_report.
Qed.

Lemma evaluate_logs_the_report_table_witness :
  Examples.constant_metric tt (snapshot Examples.start)
  = Ok Examples.chair_table
  /\ exists w',
      evaluate unit Examples.constant_metric tt Examples.start
      = (Ok Examples.chair_table, w')
      /\ logged w'
         = logged Examples.start
             ++ [(newline ++ Table.table (report_table Examples.chair_table))%string].
Proof.
  split; [reflexivity|].
  exact (proj1 (evaluate_logs_the_report_table unit Examples.constant_metric
                  tt Examples.start Examples.chair_table eq_refl)).
Defined.

(** C6 as stated fails: in the table of a report with two classes the two
    class rows follow each other with no border between them, and the
    values of a class whose AP is not a number are printed as [nan], with
    no digit after a decimal point. *)
Lemma report_rows_not_all_separated :
  rows_separated (gen_table (report_table Examples.chair_table)) = false
  /\ gen_table (report_table Examples.chair_table)
     = [Border Top;
        Cells Heading ["classes"; "AP_0.25"; "AP_0.50"; "AP"];
        Border Heading;
        Cells Row ["chair"; "1.0000"; "1.0000"; "1.0000"];
        Cells Row ["table"; "nan"; "nan"; "nan"];
        Border Footing;
        Cells Footing ["Overall"; "1.0000"; "1.0000"; "1.0000"];
        Border Bottom]
  /\ four_decimals (format_4f S754_nan) = false.
Proof. repeat split. Qed.

(** * Properties of the constructor *)

(** ** The registry of warnings *)

Lemma category_eqb_refl (c : category) : category_eqb c c = true.
Proof. now destruct c. Qed.

Lemma key_eqb_refl (k : regkey) : key_eqb k k = true.
Proof.
  destruct k as [[t c] [l|]]; unfold key_eqb; cbn;
    rewrite String.eqb_refl, category_eqb_refl, ?Nat.eqb_refl; reflexivity.
Qed.

Lemma key_eqb_text (a b : regkey) :
  fst (fst a) <> fst (fst b) -> key_eqb a b = false.
Proof.
  intros H. unfold key_eqb.
  destruct (String.eqb (fst (fst a)) (fst (fst b))) eqn:E; [|reflexivity].
  apply String.eqb_eq in E. contradiction.
Qed.

Lemma key_eqb_altkey (x : warning) : key_eqb (altkey_of x) (key_of x) = false.
Proof. unfold key_eqb. cbn. apply andb_false_r. Qed.

Lemma registered_other_texts (k : regkey) (texts : list string)
    (ext : list regkey) :
  ~ In (fst (fst k)) texts ->
  Forall (fun k' : regkey => In (fst (fst k')) texts) ext ->
  existsb (key_eqb k) ext = false.
Proof.
  intros Hk H. induction H as [|k' ext Hin _ IH]; cbn; [reflexivity|].
  rewrite IH, orb_false_r. apply key_eqb_text. congruence.
Qed.

(** Calls of [warnings.warn] for other texts do not change what becomes
    of a warning. *)
Lemma fate_frame (texts : list string) (w w' : world) (x : warning) :
  warning_frame texts w w' -> ~ In (wn_text x) texts ->
  fate_of w' x = fate_of w x.
Proof.
  intros (_ & _ & Hf & _ & _ & ext & Hr & Hext) Hx.
  unfold fate_of, registered. rewrite Hr, Hf, !existsb_app.
  rewrite !(registered_other_texts _ texts ext), !orb_false_r;
    auto.
Qed.

Lemma warning_frame_refl (texts : list string) (w : world) :
  warning_frame texts w w.
Proof.
  repeat split. exists []. split; [now rewrite app_nil_r | constructor].
Qed.

Lemma warning_frame_trans (texts : list string) (w1 w2 w3 : world) :
  warning_frame texts w1 w2 -> warning_frame texts w2 w3 ->
  warning_frame texts w1 w3.
Proof.
  intros (A1 & A2 & A3 & A4 & A5 & e1 & R1 & F1)
         (B1 & B2 & B3 & B4 & B5 & e2 & R2 & F2).
  repeat split; try congruence.
  exists (e1 ++ e2). split; [rewrite R2, R1; now rewrite app_assoc|].
  apply Forall_app. now split.
Qed.

Lemma warning_frame_incl (texts texts' : list string) (w w' : world) :
  incl texts texts' -> warning_frame texts w w' -> warning_frame texts' w w'.
Proof.
  intros Hi (A1 & A2 & A3 & A4 & A5 & ext & R & F).
  repeat split; try assumption. exists ext. split; [exact R|].
  eapply Forall_impl; [|exact F]. intros k Hk. now apply Hi.
Qed.

(** One call of [warnings.warn], by what becomes of the warning. *)
Lemma warn_run (message : string) (lineno : nat) (w : world) :
  let x := Warning message UserWarning lineno in
  match fate_of w x with
  | Raised => warn message lineno w = (Raise (Warned UserWarning message), w)
  | Shown =>
      exists w',
        warn message lineno w = (Ok tt, w')
        /\ warned w' = warned w ++ [x]
        /\ warning_frame [message] w w'
        /\ fate_of w' x
           = match filters w x with act_always => Shown | _ => Dropped end
  | Dropped =>
      exists w',
        warn message lineno w = (Ok tt, w')
        /\ warned w' = warned w
        /\ warning_frame [message] w w'
        /\ fate_of w' x = Dropped
  end.
Proof.
  intros x. unfold fate_of, warn. fold x.
  change (message, UserWarning, Some lineno) with (key_of x).
  change (message, UserWarning, @None nat) with (altkey_of x).
  destruct (registered (key_of x) w) eqn:K.
  - exists w. repeat split; try apply warning_frame_refl.
    unfold fate_of. now rewrite K.
  - assert (Hone : forall k : regkey, fst (fst k) = message ->
                     Forall (fun k' : regkey => In (fst (fst k')) [message]) [k]).
    { intros k Hk. constructor; [now left | constructor]. }
    assert (Hkey : forall g, existsb (key_eqb (key_of x)) (g ++ [key_of x]) = true).
    { intros g. rewrite existsb_app. cbn. rewrite key_eqb_refl.
      now rewrite orb_true_r. }
    assert (A : existsb (key_eqb (altkey_of x)) (registry w ++ [key_of x])
                = registered (altkey_of x) w).
    { unfold registered. rewrite existsb_app. cbn.
      now rewrite key_eqb_altkey, !orb_false_r. }
    destruct (filters w x) eqn:F.
    + reflexivity.
    + exists w. repeat split; try apply warning_frame_refl.
      unfold fate_of. now rewrite K, F.
    + eexists. split; [reflexivity|]. split; [reflexivity|]. split.
      * repeat split. exists []. split; [now rewrite app_nil_r | constructor].
      * unfold fate_of, registered in *. cbn. now rewrite K, F.
    + eexists. split; [reflexivity|]. split; [reflexivity|]. split.
      * repeat split. exists [key_of x]. split; [reflexivity|]. now apply Hone.
      * unfold fate_of, registered. cbn. now rewrite Hkey.
    + unfold bind, register, registered. cbn. rewrite A.
      fold (registered (altkey_of x) w).
      destruct (registered (altkey_of x) w) eqn:R.
      * eexists. split; [reflexivity|]. split; [reflexivity|]. split.
        -- repeat split. exists [key_of x]. split; [reflexivity|].
           now apply Hone.
        -- unfold fate_of, registered. cbn. now rewrite Hkey.
      * eexists. split; [reflexivity|]. split; [reflexivity|]. split.
        -- repeat split. exists [key_of x; altkey_of x]. cbn.
           split; [now rewrite <- app_assoc|].
           constructor; [now left|]. now apply Hone.
        -- unfold fate_of, registered. cbn.
           now rewrite existsb_app, Hkey.
    + unfold bind, register, registered. cbn. rewrite A.
      fold (registered (altkey_of x) w).
      destruct (registered (altkey_of x) w) eqn:R.
      * eexists. split; [reflexivity|]. split; [reflexivity|]. split.
        -- repeat split. exists [key_of x]. split; [reflexivity|].
           now apply Hone.
        -- unfold fate_of, registered. cbn. now rewrite Hkey.
      * eexists. split; [reflexivity|]. split; [reflexivity|]. split.
        -- repeat split. exists [key_of x; altkey_of x]. cbn.
           split; [now rewrite <- app_assoc|].
           constructor; [now left|]. now apply Hone.
        -- unfold fate_of, registered. cbn.
           now rewrite existsb_app, Hkey.
Qed.

(** The warnings of a list are [UserWarning]s with texts that differ. *)
Lemma deprecation_warnings_distinct (collect_device prefix : option string) :
  NoDup (map wn_text (deprecation_warnings collect_device prefix))
  /\ Forall (fun x => wn_category x = UserWarning)
       (deprecation_warnings collect_device prefix).
Proof.
  assert (D : collect_device_message <> prefix_message) by discriminate.
  destruct collect_device, prefix; cbn; split;
    repeat constructor; cbn; intuition congruence.
Qed.

(** A sequence of calls none of which is raised. *)
Lemma issue_passes (xs : list warning) :
  NoDup (map wn_text xs) ->
  Forall (fun x => wn_category x = UserWarning) xs ->
  forall w,
    (forall x, In x xs -> fate_of w x <> Raised) ->
    exists w',
      issue xs w = (Ok tt, w')
      /\ warned w' = warned w ++ filter (shown w) xs
      /\ warning_frame (map wn_text xs) w w'
      /\ forall x, In x xs ->
           fate_of w' x
           = match filters w x with
             | act_always => fate_of w x
             | _ => Dropped
             end.
Proof.
  induction xs as [|x rest IH]; intros Hd Hc w Hf.
  - exists w. cbn. rewrite app_nil_r. repeat split.
    + apply warning_frame_refl.
    + intros x [].
  - inversion Hd as [|t ts Hnotin Hd']; subst.
    inversion Hc as [|y ys Hcx Hc']; subst.
    destruct x as [text c lineno]. cbn in Hcx. subst c. cbn in Hnotin.
    set (x := Warning text UserWarning lineno) in *.
    assert (Hx : fate_of w x <> Raised) by (apply Hf; now left).
    pose proof (warn_run text lineno w) as Hw. cbn zeta in Hw. fold x in Hw.
    assert (Hstep : exists w1,
               warn text lineno w = (Ok tt, w1)
               /\ warned w1 = warned w ++ (if shown w x then [x] else [])
               /\ warning_frame [text] w w1
               /\ fate_of w1 x
                  = match filters w x with
                    | act_always => fate_of w x
                    | _ => Dropped
                    end).
    { unfold shown. destruct (fate_of w x) eqn:Fx.
      - exact Hw.
      - destruct Hw as (w1 & E & W & Fr & Ft). exists w1.
        rewrite app_nil_r. split; [exact E|]. split; [exact W|].
        split; [exact Fr|]. rewrite Ft. now destruct (filters w x).
      - contradiction. }
    destruct Hstep as (w1 & E1 & W1 & Fr1 & Ft1).
    assert (Hrest : forall y, In y rest -> fate_of w1 y = fate_of w y).
    { intros y Hy. apply (fate_frame [text]); [exact Fr1|].
      intros [Heq|[]]. apply Hnotin. rewrite Heq. now apply in_map. }
    destruct (IH Hd' Hc' w1) as (w2 & E2 & W2 & Fr2 & Ft2).
    { intros y Hy. rewrite (Hrest y Hy). apply Hf. now right. }
    exists w2. split; [|split; [|split]].
    + cbn. unfold bind. fold x. cbn. rewrite E1. exact E2.
    + rewrite W2, W1, <- app_assoc. f_equal. cbn [filter].
      assert (Hfil : filter (shown w1) rest = filter (shown w) rest).
      { apply filter_ext_in. intros y Hy. unfold shown.
        now rewrite (Hrest y Hy). }
      rewrite Hfil. now destruct (shown w x).
    + apply (warning_frame_trans _ w w1 w2).
      * eapply warning_frame_incl; [|exact Fr1].
        intros t [<-|[]]. now left.
      * eapply warning_frame_incl; [|exact Fr2].
        intros t Ht. now right.
    + assert (Sf : filters w1 = filters w) by apply Fr1.
      intros y [<-|Hy].
      * rewrite (fate_frame (map wn_text rest) w1 w2 x Fr2 Hnotin).
        exact Ft1.
      * rewrite (Ft2 y Hy), Sf, (Hrest y Hy). reflexivity.
Qed.

(** A sequence of calls one of which is raised: the first such call
    ends the sequence. *)
Lemma issue_raises (xs : list warning) :
  NoDup (map wn_text xs) ->
  Forall (fun x => wn_category x = UserWarning) xs ->
  forall w x,
    In x xs -> fate_of w x = Raised ->
    exists y w',
      In y xs /\ fate_of w y = Raised
      /\ issue xs w = (Raise (Warned UserWarning (wn_text y)), w').
Proof.
  induction xs as [|x0 rest IH]; intros Hd Hc w x Hin Hx; [destruct Hin|].
  inversion Hd as [|t ts Hnotin Hd']; subst.
  inversion Hc as [|y ys Hcx Hc']; subst.
  destruct x0 as [text c lineno]. cbn in Hcx. subst c. cbn in Hnotin.
  set (x0 := Warning text UserWarning lineno) in *.
  pose proof (warn_run text lineno w) as Hw. cbn zeta in Hw. fold x0 in Hw.
  destruct (fate_of w x0) eqn:F0.
  - destruct Hw as (w1 & E1 & _ & Fr1 & _).
    destruct Hin as [<-|Hin]; [congruence|].
    assert (Hrest : forall y, In y rest -> fate_of w1 y = fate_of w y).
    { intros y Hy. apply (fate_frame [text]); [exact Fr1|].
      intros [Heq|[]]. apply Hnotin. rewrite Heq. now apply in_map. }
    destruct (IH Hd' Hc' w1 x Hin) as (y & w2 & Hy & Fy & E2).
    { now rewrite Hrest. }
    exists y, w2. split; [now right|]. split; [now rewrite <- Hrest|].
    cbn. unfold bind. fold x0. cbn. now rewrite E1.
  - destruct Hw as (w1 & E1 & _ & Fr1 & _).
    destruct Hin as [<-|Hin]; [congruence|].
    assert (Hrest : forall y, In y rest -> fate_of w1 y = fate_of w y).
    { intros y Hy. apply (fate_frame [text]); [exact Fr1|].
      intros [Heq|[]]. apply Hnotin. rewrite Heq. now apply in_map. }
    destruct (IH Hd' Hc' w1 x Hin) as (y & w2 & Hy & Fy & E2).
    { now rewrite Hrest. }
    exists y, w2. split; [now right|]. split; [now rewrite <- Hrest|].
    cbn. unfold bind. fold x0. cbn. now rewrite E1.
  - exists x0, w. split; [now left|]. split; [exact F0|].
    cbn. unfold bind. fold x0. cbn. now rewrite Hw.
Qed.

(** A sequence of calls under the action ["always"]: every warning is
    shown and nothing else changes. *)
Lemma issue_always (xs : list warning) :
  Forall (fun x => wn_category x = UserWarning) xs ->
  forall w,
    (forall x, In x xs ->
       registered (key_of x) w = false /\ filters w x = act_always) ->
    issue xs w = (Ok tt, set_warned (warned w ++ xs) w).
Proof.
  induction xs as [|x rest IH]; intros Hc w H.
  - cbn. unfold ret, set_warned. rewrite app_nil_r. now destruct w.
  - inversion Hc as [|y ys Hcx Hc']; subst.
    destruct x as [text c lineno]. cbn in Hcx. subst c.
    destruct (H _ (or_introl eq_refl)) as [K F].
    cbn [issue wn_text wn_lineno]. unfold bind, warn.
    change (text, UserWarning, Some lineno)
      with (key_of (Warning text UserWarning lineno)).
    rewrite K, F. unfold showwarning.
    rewrite (IH Hc').
    + unfold set_warned. cbn. now rewrite <- app_assoc.
    + intros y Hy. apply H. now right.
Qed.

(** ** The constructor *)

(** The constructor hands its warnings to [warnings.warn], then calls the
    base constructor. *)
Lemma init_run (Self : Type) (base_init : dict pyval -> M Self)
    (dataset_meta : dict atom) (dist_backend collect_device prefix : option string)
    (kwargs : dict pyval) (w : world) :
  __init__ Self base_init dataset_meta dist_backend collect_device prefix
    kwargs w
  = (issue (deprecation_warnings collect_device prefix) ;;;
     base_init (forwarded dataset_meta dist_backend kwargs)) w.
Proof.
  unfold __init__, deprecation_warnings.
  destruct collect_device, prefix; cbn; unfold bind, ret;
    repeat match goal with
           | |- context [warn ?m ?l ?w] =>
               destruct (warn m l w) as [[[]|?] ?]
           end; reflexivity.
Qed.

Lemma get_kwargs_parameter (k : string) (kwargs : dict pyval) :
  kwargs_ok kwargs = true -> In k init_parameters -> get k kwargs = None.
Proof.
  unfold kwargs_ok. rewrite andb_true_iff, forallb_forall.
  intros [_ H] Hk.
  induction kwargs as [|[k' v] rest IH]; cbn; [reflexivity|].
  destruct (String.eqb k k') eqn:E.
  - apply String.eqb_eq in E. subst k'.
    specialize (H k (or_introl eq_refl)).
    apply negb_true_iff in H. apply mem_In in Hk. congruence.
  - apply IH. intros x Hx. apply H. now right.
Qed.

(** C4, as the code has it.  For each of [collect_device] and [prefix]
    that is given, the constructor calls [warnings.warn] once, with the
    text naming the option and, for want of a category, as a
    [UserWarning]; then it calls the constructor of the base metric, and
    neither option is among the keyword arguments that one receives.
    What the calls of [warnings.warn] emit is up to the filters and the
    registry of the module.  When none of the warnings is raised as an
    exception, construction reaches the base constructor and the warnings
    shown are those of the given options that the filters let through;
    afterwards a warning is let through again only under the action
    [always].  When a filter raises one of them, the constructor raises
    that warning: the sequence of calls of [warnings.warn] ends there and
    the base constructor is not reached. *)
Theorem init_hands_deprecation_warnings_to_the_filters (Self : Type)
    (base_init : dict pyval -> M Self) (dataset_meta : dict atom)
    (dist_backend collect_device prefix : option string)
    (kwargs : dict pyval) (w : world) :
  kwargs_ok kwargs = true ->
  deprecation_warnings collect_device prefix
  = (match collect_device with
     | Some _ =>
         [Warning
            "DeprecationWarning: The `collect_device` parameter of `InstanceSegMetric` is deprecated, use `dist_backend instead."
            UserWarning 29]
     | None => []
     end)
      ++ (match prefix with
          | Some _ =>
              [Warning
                 "DeprecationWarning: The `prefix` parameter of `InstanceSegMetric` is deprecated."
                 UserWarning 34]
          | None => []
          end)
  /\ __init__ Self base_init dataset_meta dist_backend collect_device prefix
       kwargs w
     = (issue (deprecation_warnings collect_device prefix) ;;;
        base_init (forwarded dataset_meta dist_backend kwargs)) w
  /\ ((forall x, In x (deprecation_warnings collect_device prefix) ->
         fate_of w x <> Raised) ->
      exists w1,
        __init__ Self base_init dataset_meta dist_backend collect_device prefix
          kwargs w
        = base_init (forwarded dataset_meta dist_backend kwargs) w1
        /\ warned w1
           = warned w
               ++ filter (shown w) (deprecation_warnings collect_device prefix)
        /\ heap w1 = heap w
        /\ calls w1 = calls w
        /\ filters w1 = filters w
        /\ logged w1 = logged w
        /\ results w1 = results w
        /\ forall x, In x (deprecation_warnings collect_device prefix) ->
             fate_of w1 x
             = match filters w x with
               | act_always => fate_of w x
               | _ => Dropped
               end)
  /\ (forall x, In x (deprecation_warnings collect_device prefix) ->
        fate_of w x = Raised ->
        exists y w1,
          In y (deprecation_warnings collect_device prefix)
          /\ fate_of w y = Raised
          /\ issue (deprecation_warnings collect_device prefix) w
             = (Raise (Warned UserWarning (wn_text y)), w1)
          /\ __init__ Self base_init dataset_meta dist_backend collect_device
               prefix kwargs w
             = (Raise (Warned UserWarning (wn_text y)), w1))
  /\ get "collect_device" (forwarded dataset_meta dist_backend kwargs) = None
  /\ get "prefix" (forwarded dataset_meta dist_backend kwargs) = None.
Proof.
  intros Hk.
  destruct (deprecation_warnings_distinct collect_device prefix) as [Hd Hc].
  split; [reflexivity|]. split; [apply init_run|]. split; [|split].
  - intros Hf. destruct (issue_passes _ Hd Hc w Hf) as (w1 & E & W & Fr & Ft).
    exists w1. rewrite init_run. unfold bind at 1. rewrite E.
    destruct Fr as (F1 & F2 & F3 & F4 & F5 & _). repeat split; assumption.
  - intros x Hin Hx.
    destruct (issue_raises _ Hd Hc w x Hin Hx) as (y & w1 & Hy & Fy & E).
    exists y, w1. split; [exact Hy|]. split; [exact Fy|]. split; [exact E|].
    rewrite init_run. unfold bind at 1. now rewrite E.
  - split; cbn; apply get_kwargs_parameter; auto; cbn; tauto.
Qed.

Lemma init_hands_deprecation_warnings_to_the_filters_witness :
  kwargs_ok [("dist_collect_mode", PStr "unzip")] = true
  /\ (forall x,
        In x (deprecation_warnings (Some "gpu") (Some "instance_seg")) ->
        fate_of Examples.start x <> Raised)
  /\ exists w1,
      __init__ (dict pyval) Examples.keep_options [] None (Some "gpu")
        (Some "instance_seg") [("dist_collect_mode", PStr "unzip")]
        Examples.start
      = (Ok [("dataset_meta", PDict []); ("dist_backend", PNone);
             ("dist_collect_mode", PStr "unzip")],
         w1)
      /\ warned w1
         = [Warning collect_device_message UserWarning 29;
            Warning prefix_message UserWarning 34]
      /\ fate_of w1 (Warning collect_device_message UserWarning 29) = Dropped.
Proof.
  assert (Hf : forall x,
             In x (deprecation_warnings (Some "gpu") (Some "instance_seg")) ->
             fate_of Examples.start x <> Raised).
  { intros x [<-|[<-|[]]]; discriminate. }
  split; [reflexivity|]. split; [exact Hf|].
  destruct (init_hands_deprecation_warnings_to_the_filters (dict pyval)
              Examples.keep_options [] None (Some "gpu") (Some "instance_seg")
              [("dist_collect_mode", PStr "unzip")] Examples.start eq_refl)
    as (_ & _ & H & _).
  destruct (H Hf) as (w1 & E & W & _ & _ & _ & _ & _ & Ft).
  exists w1. split; [exact E|]. split; [exact W|].
  exact (Ft _ (or_introl eq_refl)).
Defined.

(** C4 as stated fails.  Under the filters Python starts with, a first
    construction with [collect_device] given emits its warning, a
    [UserWarning], and a second construction right after emits nothing:
    the registry of the module holds the key of the warning.  Under
    [-W error] the construction does not continue: the constructor raises
    the warning and the base constructor is not called.  Under
    [-W always] every construction emits the warning. *)
Lemma second_construction_emits_no_warning :
  exists options w1 options' w2,
    filters Examples.start (Warning collect_device_message UserWarning 29)
    = act_default
    /\ __init__ (dict pyval) Examples.keep_options [] None (Some "gpu") None []
         Examples.start
       = (Ok options, w1)
    /\ warned w1 = [Warning collect_device_message UserWarning 29]
    /\ __init__ (dict pyval) Examples.keep_options [] None (Some "gpu") None []
         w1
       = (Ok options', w2)
    /\ warned w2 = warned w1
    /\ (forall (Self : Type) (base_init : dict pyval -> M Self),
          __init__ Self base_init [] None (Some "gpu") None [] Examples.strict
          = (Raise (Warned UserWarning collect_device_message),
             Examples.strict))
    /\ exists options'' w3 w4,
        __init__ (dict pyval) Examples.keep_options [] None (Some "gpu") None
          [] Examples.verbose
        = (Ok options'', w3)
        /\ __init__ (dict pyval) Examples.keep_options [] None (Some "gpu")
             None [] w3
           = (Ok options'', w4)
        /\ warned w4
           = [Warning collect_device_message UserWarning 29;
              Warning collect_device_message UserWarning 29].
Proof.
  eexists. eexists. eexists. eexists.
  split; [reflexivity|]. split; [reflexivity|]. split; [reflexivity|].
  split; [reflexivity|]. split; [reflexivity|]. split; [reflexivity|].
  eexists. eexists. eexists. repeat split.
Qed.

(** C5, as the code has it.  The constructor hands its warnings to
    [warnings.warn] and then calls the base constructor with
    [dataset_meta], [dist_backend] and, after them, every keyword argument
    of [**kwargs] unchanged; of the constructor's options only
    [collect_device] and [prefix] are not passed on.  The base constructor
    is reached unless a filter raises one of the warnings; where every
    warning is shown (the action [always]) it is called in the world in
    which the warnings of the given options have been shown and nothing
    else has changed. *)
Theorem init_forwards_extra_options (Self : Type)
    (base_init : dict pyval -> M Self) (dataset_meta : dict atom)
    (dist_backend collect_device prefix : option string)
    (kwargs : dict pyval) (w : world) :
  kwargs_ok kwargs = true ->
  __init__ Self base_init dataset_meta dist_backend collect_device prefix
    kwargs w
  = (issue (deprecation_warnings collect_device prefix) ;;;
     base_init (forwarded dataset_meta dist_backend kwargs)) w
  /\ keys (forwarded dataset_meta dist_backend kwargs)
     = "dataset_meta" :: "dist_backend" :: keys kwargs
  /\ get "dataset_meta" (forwarded dataset_meta dist_backend kwargs)
     = Some (PDict dataset_meta)
  /\ get "dist_backend" (forwarded dataset_meta dist_backend kwargs)
     = Some (of_optional dist_backend)
  /\ (forall k, In k (keys kwargs) ->
        get k (forwarded dataset_meta dist_backend kwargs) = get k kwargs)
  /\ get "collect_device" (forwarded dataset_meta dist_backend kwargs) = None
  /\ get "prefix" (forwarded dataset_meta dist_backend kwargs) = None
  /\ ((forall x, In x (deprecation_warnings collect_device prefix) ->
         fate_of w x <> Raised) ->
      exists w1,
        __init__ Self base_init dataset_meta dist_backend collect_device prefix
          kwargs w
        = base_init (forwarded dataset_meta dist_backend kwargs) w1)
  /\ ((forall x, In x (deprecation_warnings collect_device prefix) ->
         registered (key_of x) w = false /\ filters w x = act_always) ->
      __init__ Self base_init dataset_meta dist_backend collect_device prefix
        kwargs w
      = base_init (forwarded dataset_meta dist_backend kwargs)
          (set_warned (warned w ++ deprecation_warnings collect_device prefix)
             w)).
Proof.
  intros Hk. split; [apply init_run|].
  split; [reflexivity|]. split; [reflexivity|]. split; [reflexivity|].
  split; [|split; [|split; [|split]]].
  - intros k Hin. cbn.
    assert (Hn : mem k init_parameters = false).
    { unfold kwargs_ok in Hk. rewrite andb_true_iff, forallb_forall in Hk.
      apply negb_true_iff, Hk, Hin. }
    cbn in Hn.
    destruct (String.eqb k "dataset_meta"); [discriminate|].
    destruct (String.eqb k "dist_backend"); [discriminate|]. reflexivity.
  - cbn. apply get_kwargs_parameter; auto; cbn; tauto.
  - cbn. apply get_kwargs_parameter; auto; cbn; tauto.
  - intros Hf.
    destruct (deprecation_warnings_distinct collect_device prefix) as [Hd Hc].
    destruct (issue_passes _ Hd Hc w Hf) as (w1 & E & _).
    exists w1. rewrite init_run. unfold bind at 1. now rewrite E.
  - intros Ha.
    destruct (deprecation_warnings_distinct collect_device prefix) as [_ Hc].
    rewrite init_run. unfold bind at 1. now rewrite (issue_always _ Hc w Ha).
Qed.

Lemma init_forwards_extra_options_witness :
  kwargs_ok [("dist_collect_mode", PStr "unzip")] = true
  /\ keys (forwarded [] (Some "mpi4py") [("dist_collect_mode", PStr "unzip")])
     = ["dataset_meta"; "dist_backend"; "dist_collect_mode"].
Proof.
  split; [reflexivity|].
  exact (proj1 (proj2 (init_forwards_extra_options (dict pyval)
                         Examples.keep_options [] (Some "mpi4py") None None
                         [("dist_collect_mode", PStr "unzip")]
                         Examples.start eq_refl))).
Defined.

(** C5 as stated fails: an extra keyword option given to the constructor
    reaches the base constructor next to [dataset_meta] and
    [dist_backend]. *)
Lemma init_forwards_more_than_two_options :
  exists options w',
    __init__ (dict pyval) Examples.keep_options [] None None None
      [("dist_collect_mode", PStr "unzip")] Examples.start
    = (Ok options, w')
    /\ get "dist_collect_mode" options = Some (PStr "unzip")
    /\ keys options <> ["dataset_meta"; "dist_backend"].
Proof.
  eexists. eexists. split; [reflexivity|]. split; [reflexivity|].
  cbn. discriminate.
Qed.


(** * Further properties *)

(** ** Splitting and joining batches *)

Lemma set_results_twice (r r' : list (converted * converted)) (w : world) :
  set_results r (set_results r' w) = set_results r w.
Proof. reflexivity. Qed.

Lemma set_results_same (w : world) : set_results (results w) w = w.
Proof. now destruct w. Qed.

Lemma for_samples_app (body : sample -> M (converted * converted))
    (s1 s2 : list sample) :
  forall (pred gt : list converted) (w : world),
    for_samples body (s1 ++ s2) pred gt w
    = bind (for_samples body s1 pred gt)
           (fun pg => for_samples body s2 (fst pg) (snd pg)) w.
Proof.
  induction s1 as [|smp s1 IH]; intros pred gt w; cbn.
  - reflexivity.
  - unfold bind. destruct (body smp w) as [[pg|e] w1]; [|reflexivity].
    rewrite IH. reflexivity.
Qed.

(** The loop only appends to the lists it was given. *)
Lemma for_samples_shift (body : sample -> M (converted * converted))
    (data_samples : list sample) :
  forall (pred gt : list converted) (w : world),
    for_samples body data_samples pred gt w
    = match for_samples body data_samples [] [] w with
      | (Ok pg, w') => (Ok (pred ++ fst pg, gt ++ snd pg), w')
      | (Raise e, w') => (Raise e, w')
      end.
Proof.
  induction data_samples as [|smp rest IH]; intros pred gt w; cbn.
  - unfold ret. cbn. now rewrite !app_nil_r.
  - unfold bind. destruct (body smp w) as [[pg|e] w1]; [|reflexivity].
    rewrite (IH (pred ++ [fst pg]) (gt ++ [snd pg])).
    rewrite (IH ([] ++ [fst pg]) ([] ++ [snd pg])).
    destruct (for_samples body rest [] [] w1) as [[pg'|e] w2]; [|reflexivity].
    cbn. now rewrite <- !app_assoc.
Qed.

Lemma ignores_results_ret {A : Type} (a : A) : ignores_results (ret a).
Proof. intros r w. reflexivity. Qed.

Lemma ignores_results_raise {A : Type} (e : exn) :
  ignores_results (@raise A e).
Proof. intros r w. reflexivity. Qed.

Lemma ignores_results_bind {A B : Type} (m : M A) (k : A -> M B) :
  ignores_results m -> (forall a, ignores_results (k a)) ->
  ignores_results (bind m k).
Proof.
  intros Hm Hk r w. unfold bind. rewrite Hm.
  destruct (m w) as [[a|e] w1]; cbn; [apply Hk | reflexivity].
Qed.

Lemma ignores_results_load (l : nat) : ignores_results (load l).
Proof.
  intros r w. unfold load. cbn. now destruct (nth_error (heap w) l).
Qed.

Lemma ignores_results_alloc (s : storage) : ignores_results (alloc s).
Proof. intros r w. reflexivity. Qed.

Lemma ignores_results_record_call (m : method) (v : obj) :
  ignores_results (record_call m v).
Proof. intros r w. reflexivity. Qed.

Lemma ignores_results_getitem {V : Type} (k : string) (d : dict V) :
  ignores_results (getitem k d).
Proof.
  unfold getitem. destruct (get k d);
    [apply ignores_results_ret | apply ignores_results_raise].
Qed.

Create HintDb ignores.
#[local] Hint Resolve ignores_results_ret ignores_results_raise
  ignores_results_load ignores_results_alloc ignores_results_record_call
  ignores_results_getitem : ignores.

Ltac ignores_steps :=
  repeat first
    [ apply ignores_results_bind; [|intros ?]
    | solve [auto with ignores]
    | match goal with
      | |- ignores_results (if ?b then _ else _) => destruct b
      | |- ignores_results (match ?x with _ => _ end) => destruct x
      end ].

Lemma ignores_results_convert_plain (v : obj) :
  ignores_results (convert_plain v).
Proof.
  unfold convert_plain, clone, cpu, numpy, to_host. ignores_steps.
Qed.

Lemma ignores_results_convert_aware (v : obj) :
  ignores_results (convert_aware v).
Proof.
  unfold convert_aware, hasattr_to, clone, to_cpu, numpy, to_host.
  ignores_steps.
Qed.

Lemma ignores_results_store_each (f : obj -> M ndarray) (items : fields) :
  (forall v, ignores_results (f v)) ->
  forall acc, ignores_results (store_each f items acc).
Proof.
  intros Hf. induction items as [|[k v] rest IH]; intros acc; cbn.
  - apply ignores_results_ret.
  - apply ignores_results_bind; [apply Hf | intros a; apply IH].
Qed.

Lemma ignores_results_process_sample (smp : sample) :
  ignores_results (process_sample smp).
Proof.
  unfold process_sample.
  repeat (apply ignores_results_bind; [|intros ?]);
    auto using ignores_results_store_each, ignores_results_convert_plain,
      ignores_results_convert_aware with ignores.
Qed.

Lemma ignores_results_for_samples (data_samples : list sample) :
  forall pred gt,
    ignores_results (for_samples process_sample data_samples pred gt).
Proof.
  induction data_samples as [|smp rest IH]; intros pred gt; cbn.
  - apply ignores_results_ret.
  - apply ignores_results_bind;
      [apply ignores_results_process_sample | intros pg; apply IH].
Qed.

(** What a run of [process] that returns is made of: the loop, from the
    same world, and one [add]. *)
Lemma process_returned {Batch : Type} (data_batch : Batch)
    (data_samples : list sample) (w w1 : world) :
  process data_batch data_samples w = (Ok tt, w1) ->
  exists pgs wl,
    for_samples process_sample data_samples [] [] w
    = (Ok (map fst pgs, map snd pgs), wl)
    /\ results wl = results w
    /\ w1 = set_results (results w ++ pgs) wl.
Proof.
  unfold process, bind. intros H.
  destruct (for_samples process_sample data_samples [] [] w)
    as [[[p g]|e] wl] eqn:E; [|discriminate].
  pose proof E as E'.
  apply (for_samples_ok _ _ process_sample_converts) in E'.
  destruct E' as (pgs & -> & -> & _ & F & _).
  destruct F as (_ & _ & _ & _ & Hr).
  unfold add in H. injection H as <-. cbn.
  exists pgs, wl. rewrite combine_fst_snd, Hr. auto.
Qed.

Lemma combine_pairs_app {A B : Type} (l : list (A * B)) (p : list A)
    (g : list B) :
  combine (map fst l ++ p) (map snd l ++ g) = l ++ combine p g.
Proof.
  induction l as [|[a b] l IH]; cbn; [reflexivity | now rewrite IH].
Qed.

(** X3.  Processing a batch and then a second one, compared with
    processing the two as one batch: when the first call returns, the
    joint call has the outcome of the second call; it reaches the same
    world when that outcome is a return, and when it is an exception the
    joint call has accumulated nothing at all, not even the pairs of the
    first batch. *)
Theorem process_in_two_batches {Batch : Type} (data_batch : Batch)
    (s1 s2 : list sample) (w w1 w2 : world) (r : res unit) :
  process data_batch s1 w = (Ok tt, w1) ->
  process data_batch s2 w1 = (r, w2) ->
  process data_batch (s1 ++ s2) w
  = (r, match r with
        | Ok _ => w2
        | Raise _ => set_results (results w) w2
        end).
Proof.
  intros H1 H2.
  apply process_returned in H1. destruct H1 as (pgs & wl & E1 & R1 & ->).
  unfold process in *. unfold bind in H2.
  rewrite (ignores_results_for_samples s2 [] []) in H2.
  unfold bind. rewrite for_samples_app. unfold bind. rewrite E1. cbn [fst snd].
  rewrite for_samples_shift.
  pose proof (framed_for_samples process_sample s2 [] []
                framed_process_sample wl) as F.
  destruct (for_samples process_sample s2 [] [] wl) as [[[p2 g2]|e] wl2] eqn:E2;
    cbn in H2.
  - specialize (F _ _ eq_refl). destruct F as (_ & _ & _ & _ & R2).
    unfold add in *. injection H2 as <- <-. cbn.
    rewrite combine_pairs_app, R2, R1. now rewrite <- app_assoc.
  - specialize (F _ _ eq_refl). destruct F as (_ & _ & _ & _ & R2).
    injection H2 as <- <-. rewrite set_results_twice, <- R1, <- R2.
    now rewrite set_results_same.
Qed.

Lemma process_in_two_batches_witness :
  process tt [Examples.tensor_sample] Examples.start
  = (Ok tt, Examples.after_tensor_sample)
  /\ process tt [MoreExamples.second_sample] Examples.after_tensor_sample
     = (Ok tt, MoreExamples.after_second_sample)
  /\ process tt [Examples.tensor_sample; MoreExamples.second_sample]
       Examples.start
     = (Ok tt, MoreExamples.after_second_sample).
Proof.
  split; [reflexivity|]. split; [reflexivity|].
  exact (process_in_two_batches tt [Examples.tensor_sample]
           [MoreExamples.second_sample] Examples.start
           Examples.after_tensor_sample MoreExamples.after_second_sample
           (Ok tt) eq_refl eq_refl).
Defined.

(** ** A sample record without one of its two mappings *)

Lemma process_sample_missing_key (smp : sample) (k : string) (w : world) :
  missing_key smp = Some k ->
  process_sample smp w = (Raise (KeyError k), w).
Proof.
  unfold missing_key, process_sample, getitem, bind.
  destruct (get "pred_pts_seg" smp) as [pred|]; cbn.
  - destruct (get "eval_ann_info" smp) as [gt|]; cbn; [discriminate|].
    intros H. now injection H as <-.
  - intros H. now injection H as <-.
Qed.

(** X1.  A sample record that lacks ['pred_pts_seg'], or has it and lacks
    ['eval_ann_info'], makes [process] raise [KeyError] for that key (for
    ['pred_pts_seg'] when both are missing).  Nothing is converted for that
    sample, the samples after it are not looked at, and the batch
    accumulates nothing, although the samples before it have been
    converted: the world reached is the one the samples before it alone
    would lead to, with the Accumulated Results as they were. *)
Theorem process_missing_key {Batch : Type} (data_batch : Batch)
    (before after : list sample) (smp : sample) (k : string)
    (w w1 : world) :
  process data_batch before w = (Ok tt, w1) ->
  missing_key smp = Some k ->
  process data_batch (before ++ smp :: after) w
  = (Raise (KeyError k), set_results (results w) w1).
Proof.
  intros H1 Hk.
  apply process_returned in H1. destruct H1 as (pgs & wl & E1 & R1 & ->).
  unfold process, bind. rewrite for_samples_app. unfold bind. rewrite E1.
  cbn [for_samples fst snd]. unfold bind.
  rewrite (process_sample_missing_key _ _ _ Hk).
  now rewrite set_results_twice, <- R1, set_results_same.
Qed.

Lemma process_missing_key_witness :
  process tt [Examples.tensor_sample] Examples.start
  = (Ok tt, Examples.after_tensor_sample)
  /\ missing_key MoreExamples.no_truth_sample = Some "eval_ann_info"
  /\ process tt [Examples.tensor_sample; MoreExamples.no_truth_sample;
                 MoreExamples.second_sample] Examples.start
     = (Raise (KeyError "eval_ann_info"),
        set_results [] Examples.after_tensor_sample).
Proof.
  split; [reflexivity|]. split; [reflexivity|].
  exact (process_missing_key tt [Examples.tensor_sample]
           [MoreExamples.second_sample] MoreExamples.no_truth_sample
           "eval_ann_info" Examples.start Examples.after_tensor_sample
           eq_refl eq_refl).
Defined.

(** ** [evaluate] when the computation fails *)

(** X8.  When the underlying computation raises, [evaluate] raises the
    same exception and changes nothing: no message reaches the logger and
    the Accumulated Results are not reset. *)
Theorem evaluate_failure_keeps_results (Args : Type)
    (compute_metric :
       Args -> list (dict (option storage) * dict (option storage)) -> res report)
    (args : Args) (w : world) (e : exn) :
  compute_metric args (snapshot w) = Raise e ->
  evaluate Args compute_metric args w = (Raise e, w).
Proof.
  intros H. unfold evaluate, compute, bind. now rewrite H.
Qed.

Lemma evaluate_failure_keeps_results_witness :
  MoreExamples.failing_metric tt (snapshot Examples.after_tensor_sample)
  = Raise (RuntimeError "no ground truth instances")
  /\ evaluate unit MoreExamples.failing_metric tt Examples.after_tensor_sample
     = (Raise (RuntimeError "no ground truth instances"),
        Examples.after_tensor_sample).
Proof.
  split; [reflexivity|].
  exact (evaluate_failure_keeps_results unit MoreExamples.failing_metric tt
           Examples.after_tensor_sample _ eq_refl).
Defined.


(** ** When [process] returns *)

Lemma store_plain_returns (items : fields) (acc : converted) (w0 w : world) :
  frame w0 w ->
  Forall (fun kv => o_loc (snd kv) < length (heap w0)) items ->
  (returns (store_each convert_plain items acc) w
   <-> forallb (fun kv => plain_can (heap w0) (snd kv)) items = true).
Proof.
  intros F Hv.
  rewrite <- (forallb_can_frame plain_can w0 w);
    [|intros; now apply plain_can_frame | assumption].
  apply (store_each_returns convert_plain plain_can convert_plain_returns
           framed_convert_plain plain_can_frame).
  now apply (valid_frame w0).
Qed.

Lemma store_aware_returns (items : fields) (acc : converted) (w0 w : world) :
  frame w0 w ->
  Forall (fun kv => o_loc (snd kv) < length (heap w0)) items ->
  (returns (store_each convert_aware items acc) w
   <-> forallb (fun kv => aware_can (heap w0) (snd kv)) items = true).
Proof.
  intros F Hv.
  rewrite <- (forallb_can_frame aware_can w0 w);
    [|intros; now apply aware_can_frame | assumption].
  apply (store_each_returns convert_aware aware_can convert_aware_returns
           framed_convert_aware aware_can_frame).
  now apply (valid_frame w0).
Qed.

Lemma process_sample_returns (smp : sample) (w0 wa : world) :
  frame w0 wa ->
  sample_wf (heap w0) smp = true ->
  (returns (process_sample smp) wa <-> sample_can (heap w0) smp = true).
Proof.
  intros Fa Hwf. unfold sample_wf in Hwf. unfold sample_can, returns.
  unfold process_sample, getitem, bind.
  destruct (get "pred_pts_seg" smp) as [pred|]; cbn;
    [|split; [intros (pg & w' & H); discriminate | discriminate]].
  destruct (get "eval_ann_info" smp) as [gt|]; cbn;
    [|split; [intros (pg & w' & H); discriminate | discriminate]].
  apply andb_true_iff in Hwf. destruct Hwf as [Wp Wg].
  apply fields_wf_spec in Wp, Wg. destruct Wp as [_ Vp], Wg as [_ Vg].
  rewrite !andb_true_iff. split.
  - intros (pg & w' & H).
    destruct (store_each convert_plain pred [] wa) as [[c1|e] w1] eqn:E1;
      [|discriminate].
    destruct (store_each convert_plain gt [] w1) as [[c2|e] w2] eqn:E2;
      [|discriminate].
    destruct (store_each convert_aware pred c1 w2) as [[c3|e] w3] eqn:E3;
      [|discriminate].
    pose proof (framed_store_each _ _ _ framed_convert_plain _ _ _ E1) as F1.
    pose proof (framed_store_each _ _ _ framed_convert_plain _ _ _ E2) as F2.
    cbv beta in F1, F2.
    pose proof (frame_trans _ _ _ Fa F1) as F01.
    pose proof (frame_trans _ _ _ F01 F2) as F02.
    split; [split|].
    + apply (store_plain_returns pred [] w0 wa Fa Vp). unfold returns. eauto.
    + apply (store_plain_returns gt [] w0 w1 F01 Vg). unfold returns. eauto.
    + apply (store_aware_returns pred c1 w0 w2 F02 Vp). unfold returns. eauto.
  - intros [[Cp Cg] Ca].
    apply (store_plain_returns pred [] w0 wa Fa Vp) in Cp.
    destruct Cp as (c1 & w1 & E1). rewrite E1.
    pose proof (framed_store_each _ _ _ framed_convert_plain _ _ _ E1) as F1.
    cbv beta in F1. pose proof (frame_trans _ _ _ Fa F1) as F01.
    apply (store_plain_returns gt [] w0 w1 F01 Vg) in Cg.
    destruct Cg as (c2 & w2 & E2). rewrite E2.
    pose proof (framed_store_each _ _ _ framed_convert_plain _ _ _ E2) as F2.
    cbv beta in F2. pose proof (frame_trans _ _ _ F01 F2) as F02.
    apply (store_aware_returns pred c1 w0 w2 F02 Vp) in Ca.
    destruct Ca as (c3 & w3 & E3). rewrite E3. unfold ret. eauto.
Qed.

Lemma for_samples_returns (data_samples : list sample) (w0 : world) :
  samples_wf (heap w0) data_samples = true ->
  forall (pred gt : list converted) (wa : world),
    frame w0 wa ->
    (returns (for_samples process_sample data_samples pred gt) wa
     <-> samples_can (heap w0) data_samples = true).
Proof.
  induction data_samples as [|smp rest IH]; intros Hwf pred gt wa Fa; cbn.
  - split; [reflexivity|]. intros _. unfold returns, ret. eauto.
  - cbn in Hwf. apply andb_true_iff in Hwf. destruct Hwf as [W1 W2].
    rewrite andb_true_iff, <- (process_sample_returns smp w0 wa Fa W1).
    split.
    + intros (pg & w' & H). unfold bind in H.
      destruct (process_sample smp wa) as [[pg1|e] wa1] eqn:E; [|discriminate].
      pose proof (framed_process_sample _ _ _ _ E) as F1. cbv beta in F1.
      split; [unfold returns; eauto|].
      apply (IH W2 (pred ++ [fst pg1]) (gt ++ [snd pg1]) wa1
               (frame_trans _ _ _ Fa F1)).
      unfold returns. eauto.
    + intros [(pg1 & wa1 & E) Hrest].
      pose proof (framed_process_sample _ _ _ _ E) as F1. cbv beta in F1.
      apply (IH W2 (pred ++ [fst pg1]) (gt ++ [snd pg1]) wa1
               (frame_trans _ _ _ Fa F1)) in Hrest.
      destruct Hrest as (pg & w' & H).
      exists pg, w'. unfold bind. now rewrite E.
Qed.

(** X2.  What a call of [process] that returns requires.  On sample
    records whose mappings are dictionaries over existing storage, when
    [process] returns, every record has both mappings, every value of
    both offers [clone], [cpu] and [numpy] and is one [numpy()] accepts,
    and every prediction value offers [to] or is in host memory already.
    On a batch that fails this check, [process] raises. *)
Theorem process_returns_only_when_convertible {Batch : Type}
    (data_batch : Batch) (data_samples : list sample) (w w' : world) :
  samples_wf (heap w) data_samples = true ->
  process data_batch data_samples w = (Ok tt, w') ->
  samples_can (heap w) data_samples = true.
Proof.
  intros Hwf H.
  apply (for_samples_returns data_samples w Hwf [] [] w (frame_refl w)).
  unfold process, bind in H. unfold returns.
  destruct (for_samples process_sample data_samples [] [] w)
    as [[pg|e] w1]; [eauto | discriminate].
Qed.

Lemma process_returns_only_when_convertible_witness :
  samples_wf (heap Examples.start) [Examples.tensor_sample] = true
  /\ process tt [Examples.tensor_sample] Examples.start
     = (Ok tt, Examples.after_tensor_sample)
  /\ samples_can (heap Examples.start) [Examples.tensor_sample] = true.
Proof.
  split; [reflexivity|]. split; [reflexivity|].
  exact (process_returns_only_when_convertible tt [Examples.tensor_sample]
           Examples.start Examples.after_tensor_sample eq_refl eq_refl).
Defined.


(** ** The accumulated arrays live in host memory *)

Lemma host_array_frame (w w' : world) (a : ndarray) :
  frame w w' -> host_array (heap w) a = true -> host_array (heap w') a = true.
Proof.
  intros F. unfold host_array.
  destruct (nth_error (heap w) (a_loc a)) as [s|] eqn:E; [|discriminate].
  now rewrite (frame_nth_error _ _ _ _ F E).
Qed.

Lemma host_dict_frame (w w' : world) (c : converted) :
  frame w w' -> host_dict (heap w) c = true -> host_dict (heap w') c = true.
Proof.
  intros F. unfold host_dict. rewrite !forallb_forall.
  intros H ka Hin. eapply host_array_frame; [exact F | auto].
Qed.

Lemma host_dict_setitem (h : list storage) (k : string) (a : ndarray)
    (c : converted) :
  host_dict h c = true -> host_array h a = true ->
  host_dict h (setitem k a c) = true.
Proof.
  intros Hc Ha. unfold host_dict in *.
  induction c as [|[k' a'] c IH]; cbn.
  - now rewrite Ha.
  - cbn in Hc. apply andb_true_iff in Hc. destruct Hc as [H1 H2].
    destruct (String.eqb k k'); cbn.
    + now rewrite Ha, H2.
    + now rewrite H1, IH.
Qed.

Lemma store_each_host (f : obj -> M ndarray)
    (shape : nat -> obj -> list call -> Prop) (items : fields) :
  converts f shape ->
  forall (acc c : converted) (w w' : world),
    store_each f items acc w = (Ok c, w') ->
    host_dict (heap w) acc = true ->
    host_dict (heap w') c = true.
Proof.
  intros Hf.
  induction items as [|[k v] rest IH]; intros acc c w w' H Hacc; cbn in H.
  - now injection H as <- <-.
  - unfold bind in H. destruct (f v w) as [[a|e] w1] eqn:E; [|discriminate].
    apply Hf in E. destruct E as (cs & (F1 & _ & _ & s & _ & Hs) & _).
    eapply IH; [exact H|]. apply host_dict_setitem.
    + now apply (host_dict_frame w).
    + unfold host_array. now rewrite Hs.
Qed.

Lemma process_sample_host (smp : sample) (w w' : world)
    (pg : converted * converted) :
  process_sample smp w = (Ok pg, w') ->
  host_dict (heap w') (fst pg) = true /\ host_dict (heap w') (snd pg) = true.
Proof.
  intros H. unfold process_sample, bind in H.
  destruct (getitem "pred_pts_seg" smp w) as [[pred|e] w0] eqn:G1;
    [|discriminate].
  apply getitem_ok in G1. destruct G1 as [G1 ->].
  destruct (getitem "eval_ann_info" smp w) as [[gt|e] w0] eqn:G2;
    [|discriminate].
  apply getitem_ok in G2. destruct G2 as [G2 ->].
  destruct (store_each convert_plain pred [] w) as [[c1|e] w1] eqn:E1;
    [|discriminate].
  destruct (store_each convert_plain gt [] w1) as [[c2|e] w2] eqn:E2;
    [|discriminate].
  destruct (store_each convert_aware pred c1 w2) as [[c3|e] w3] eqn:E3;
    [|discriminate].
  injection H as <- <-. cbn [fst snd].
  pose proof (store_each_host _ _ _ converts_plain _ _ _ _ E1 eq_refl) as H1.
  pose proof (store_each_host _ _ _ converts_plain _ _ _ _ E2 eq_refl) as H2.
  pose proof (framed_store_each _ _ _ framed_convert_plain _ _ _ E2) as F2.
  pose proof (framed_store_each _ _ _ framed_convert_aware _ _ _ E3) as F3.
  cbv beta in F2, F3. split.
  - apply (store_each_host _ _ _ converts_aware _ _ _ _ E3).
    now apply (host_dict_frame w1).
  - now apply (host_dict_frame w2).
Qed.

Lemma for_samples_host (data_samples : list sample) :
  forall (pred gt p g : list converted) (w w' : world),
    for_samples process_sample data_samples pred gt w = (Ok (p, g), w') ->
    Forall (fun c => host_dict (heap w) c = true) pred ->
    Forall (fun c => host_dict (heap w) c = true) gt ->
    Forall (fun c => host_dict (heap w') c = true) p
    /\ Forall (fun c => host_dict (heap w') c = true) g.
Proof.
  induction data_samples as [|smp rest IH]; intros pred gt p g w w' H Hp Hg;
    cbn in H.
  - injection H as <- <- <-. auto.
  - unfold bind in H.
    destruct (process_sample smp w) as [[pg|e] w1] eqn:E; [|discriminate].
    pose proof (framed_process_sample _ _ _ _ E) as F1. cbv beta in F1.
    apply process_sample_host in E. destruct E as [E1 E2].
    apply (IH _ _ _ _ _ _ H).
    + apply Forall_app. split; [|now constructor].
      eapply Forall_impl; [|exact Hp]. intros c. now apply host_dict_frame.
    + apply Forall_app. split; [|now constructor].
      eapply Forall_impl; [|exact Hg]. intros c. now apply host_dict_frame.
Qed.

Lemma host_pairs (h : list storage) (p g : list converted) :
  Forall (fun c => host_dict h c = true) p ->
  Forall (fun c => host_dict h c = true) g ->
  forallb (fun pg => host_dict h (fst pg) && host_dict h (snd pg))
          (combine p g) = true.
Proof.
  intros Hp. revert g.
  induction Hp as [|c p Hc _ IH]; intros g Hg; [reflexivity|].
  destruct Hg as [|c' g Hc' Hg]; [reflexivity|].
  cbn [combine forallb fst snd]. now rewrite Hc, Hc', IH.
Qed.

Lemma host_results_frame (w w' : world) :
  frame w w' -> host_results w = true ->
  forallb (fun pg => host_dict (heap w') (fst pg) && host_dict (heap w') (snd pg))
          (results w) = true.
Proof.
  intros F. unfold host_results. rewrite !forallb_forall.
  intros H pg Hin. specialize (H pg Hin).
  apply andb_true_iff in H. destruct H as [H1 H2].
  apply andb_true_iff. split; now apply (host_dict_frame w).
Qed.

(** X4.  An invariant of the metric: if every array of the Accumulated
    Results views an existing storage in host memory, this is still so
    after [process], whether it returns or raises, and after [evaluate]. *)
Theorem accumulated_arrays_stay_in_host_memory (w : world) :
  host_results w = true ->
  (forall (Batch : Type) (data_batch : Batch) (data_samples : list sample)
          (r : res unit) (w' : world),
      process data_batch data_samples w = (r, w') -> host_results w' = true)
  /\ (forall (Args : Type)
             (compute_metric :
                Args -> list (dict (option storage) * dict (option storage))
                -> res report)
             (args : Args) (r : res report) (w' : world),
         evaluate Args compute_metric args w = (r, w') ->
         host_results w' = true).
Proof.
  intros Hw. split.
  - intros Batch data_batch data_samples r w' H. unfold process, bind in H.
    destruct (for_samples process_sample data_samples [] [] w)
      as [[[p g]|e] w1] eqn:E.
    + pose proof (framed_for_samples _ _ _ _ framed_process_sample _ _ _ E)
        as F. cbv beta in F.
      apply for_samples_host in E; [|constructor|constructor].
      destruct E as [Hp Hg].
      unfold add in H. injection H as <- <-.
      unfold host_results. cbn. rewrite forallb_app.
      destruct F as (Hh & Hc & Hwn & Hl & Hr). rewrite Hr.
      rewrite (host_results_frame w w1); [|repeat split; auto|exact Hw].
      now apply host_pairs.
    + pose proof (framed_for_samples _ _ _ _ framed_process_sample _ _ _ E)
        as F. cbv beta in F.
      injection H as <- <-. unfold host_results.
      destruct F as (Hh & Hc & Hwn & Hl & Hr). rewrite Hr.
      apply (host_results_frame w w1); [repeat split; auto|exact Hw].
  - intros Args compute_metric args r w' H. rewrite evaluate_run in H.
    destruct (compute_metric args (snapshot w)); injection H as <- <-;
      [reflexivity | exact Hw].
Qed.

Lemma accumulated_arrays_stay_in_host_memory_witness :
  host_results Examples.after_tensor_sample = true
  /\ process tt [MoreExamples.second_sample] Examples.after_tensor_sample
     = (Ok tt, MoreExamples.after_second_sample)
  /\ host_results MoreExamples.after_second_sample = true.
Proof.
  split; [reflexivity|]. split; [reflexivity|].
  exact (proj1 (accumulated_arrays_stay_in_host_memory
                  Examples.after_tensor_sample eq_refl)
           unit tt [MoreExamples.second_sample] (Ok tt)
           MoreExamples.after_second_sample eq_refl).
Defined.

(** ** What [evaluate] computes over after [process] *)

Lemma view_host (w w' : world) (c : converted) :
  frame w w' -> host_dict (heap w) c = true ->
  view (heap w') c = view (heap w) c.
Proof.
  intros F. unfold host_dict, view. rewrite forallb_forall. intros H.
  apply map_ext_in. intros ka Hin. f_equal.
  specialize (H ka Hin). unfold host_array in H.
  destruct (nth_error (heap w) (a_loc (snd ka))) as [s|] eqn:E; [|discriminate].
  apply (frame_nth_error _ _ _ _ F E).
Qed.

Lemma views_of_pairs (h h' : list storage) (data_samples : list sample)
    (pgs : list (converted * converted)) :
  Forall2 (converted_pair h h') data_samples pgs ->
  map (fun pg => (view h' (fst pg), view h' (snd pg))) pgs
  = map (sample_copies h) data_samples.
Proof.
  induction 1 as [|smp pg ss pgs (pred & gt & G1 & G2 & V1 & V2) _ IH]; cbn.
  - reflexivity.
  - rewrite IH. f_equal. unfold sample_copies. now rewrite G1, G2, V1, V2.
Qed.

(** X5.  From a state whose accumulated arrays are in host memory,
    a call of [process] that returns adds to the content of the
    Accumulated Results, after what was there, the host-memory copies of
    the prediction fields and of the ground-truth fields of each sample,
    in the order of the samples; an [evaluate] right after has the outcome
    of the underlying computation on exactly that content. *)
Theorem evaluate_after_process (Args : Type)
    (compute_metric :
       Args -> list (dict (option storage) * dict (option storage)) -> res report)
    {Batch : Type} (data_batch : Batch) (data_samples : list sample)
    (args : Args) (w w' : world) :
  host_results w = true ->
  samples_wf (heap w) data_samples = true ->
  process data_batch data_samples w = (Ok tt, w') ->
  snapshot w' = snapshot w ++ map (sample_copies (heap w)) data_samples
  /\ fst (evaluate Args compute_metric args w')
     = compute_metric args
         (snapshot w ++ map (sample_copies (heap w)) data_samples).
Proof.
  intros Hw Hwf H.
  assert (S : snapshot w'
              = snapshot w ++ map (sample_copies (heap w)) data_samples).
  { pose proof H as H'. apply process_returned in H'.
    destruct H' as (pgs0 & wl & E & _ & _).
    pose proof (framed_for_samples _ _ _ _ framed_process_sample _ _ _ E) as F.
    cbv beta in F.
    apply appended_pairs in H; [|exact process_sample_converts].
    destruct H as (pgs & Hr & _ & Hh & _ & Hp).
    unfold snapshot. rewrite Hr, map_app. f_equal.
    - apply map_ext_in. intros pg Hin.
      unfold host_results in Hw. rewrite forallb_forall in Hw.
      specialize (Hw pg Hin). apply andb_true_iff in Hw. destruct Hw as [A B].
      assert (F' : frame w (set_heap (heap w') w)).
      { repeat split; try reflexivity; cbn; [exact Hh|].
        exists []. now rewrite app_nil_r. }
      f_equal.
      + apply (view_host w (set_heap (heap w') w) _ F' A).
      + apply (view_host w (set_heap (heap w') w) _ F' B).
    - now apply views_of_pairs, Hp. }
  split; [exact S|].
  rewrite evaluate_run, S.
  destruct (compute_metric args _); reflexivity.
Qed.

Lemma evaluate_after_process_witness :
  host_results Examples.after_tensor_sample = true
  /\ samples_wf (heap Examples.after_tensor_sample)
       [MoreExamples.second_sample] = true
  /\ process tt [MoreExamples.second_sample] Examples.after_tensor_sample
     = (Ok tt, MoreExamples.after_second_sample)
  /\ snapshot MoreExamples.after_second_sample
     = snapshot Examples.after_tensor_sample
         ++ [([("instance_labels", Some (Storage CPU [0; 0; 1; 1]%Z));
               ("instance_scores", Some (Storage CPU [5]%Z))],
              [("pts_instance_mask", Some (Storage CPU [0; 0; 1; 1]%Z))])].
Proof.
  split; [reflexivity|]. split; [reflexivity|]. split; [reflexivity|].
  exact (proj1 (evaluate_after_process unit Examples.constant_metric tt
                  [MoreExamples.second_sample] tt
                  Examples.after_tensor_sample
                  MoreExamples.after_second_sample eq_refl eq_refl eq_refl)).
Defined.

(** ** The accumulated arrays do not share storage *)

Lemma array_locs_combine (ks : list string) (arrs : list ndarray) :
  length ks = length arrs ->
  array_locs (combine ks arrs) = map a_loc arrs.
Proof.
  revert arrs. induction ks as [|k ks IH]; intros [|a arrs] H; cbn in *;
    try discriminate; [reflexivity|].
  unfold array_locs in IH. rewrite IH; [reflexivity | now injection H].
Qed.

(** The arrays a loop over the fields stores view storages it allocated,
    each its own. *)
Lemma store_each_allocates (f : obj -> M ndarray)
    (shape : nat -> obj -> list call -> Prop) (items : fields) :
  converts f shape ->
  forall (acc c : converted) (w w' : world),
    store_each f items acc w = (Ok c, w') ->
    exists arrs,
      c = overwrite (combine (keys items) arrs) acc
      /\ length (keys items) = length arrs
      /\ frame w w'
      /\ NoDup (map a_loc arrs)
      /\ Forall (allocated w w') (map a_loc arrs).
Proof.
  intros Hf.
  induction items as [|[k v] rest IH]; intros acc c w w' H; cbn in H.
  - injection H as <- <-. exists []. cbn.
    repeat split; try constructor; apply frame_refl.
  - unfold bind in H. destruct (f v w) as [[a|e] w1] eqn:E; [|discriminate].
    apply Hf in E. destruct E as (cs & (F1 & _ & Ha & s & _ & Hs) & _).
    assert (Ha1 : a_loc a < length (heap w1))
      by (apply nth_error_Some; congruence).
    apply IH in H. destruct H as (arrs & -> & Hlen & F2 & Hnd & Hall).
    pose proof (frame_length _ _ F1) as L1.
    pose proof (frame_length _ _ F2) as L2.
    exists (a :: arrs). cbn. split; [reflexivity|].
    split; [unfold keys in Hlen; now rewrite Hlen|].
    split; [exact (frame_trans _ _ _ F1 F2)|]. split.
    + constructor; [|exact Hnd].
      intros Hin. rewrite Forall_forall in Hall.
      specialize (Hall _ Hin). unfold allocated in Hall. lia.
    + constructor; [unfold allocated; lia|].
      eapply Forall_impl; [|exact Hall]. unfold allocated. intros l Hl. lia.
Qed.

Lemma process_sample_allocates (smp : sample) (w w' : world)
    (pg : converted * converted) :
  process_sample smp w = (Ok pg, w') ->
  sample_wf (heap w) smp = true ->
  NoDup (pair_locs pg) /\ Forall (allocated w w') (pair_locs pg).
Proof.
  intros H Hwf. unfold process_sample, bind in H.
  destruct (getitem "pred_pts_seg" smp w) as [[pred|e] w0] eqn:G1;
    [|discriminate].
  apply getitem_ok in G1. destruct G1 as [G1 ->].
  destruct (getitem "eval_ann_info" smp w) as [[gt|e] w0] eqn:G2;
    [|discriminate].
  apply getitem_ok in G2. destruct G2 as [G2 ->].
  destruct (store_each convert_plain pred [] w) as [[c1|e] w1] eqn:E1;
    [|discriminate].
  destruct (store_each convert_plain gt [] w1) as [[c2|e] w2] eqn:E2;
    [|discriminate].
  destruct (store_each convert_aware pred c1 w2) as [[c3|e] w3] eqn:E3;
    [|discriminate].
  injection H as <- <-.
  unfold sample_wf in Hwf. rewrite G1, G2, andb_true_iff in Hwf.
  destruct Hwf as [Wp Wg]. apply fields_wf_spec in Wp, Wg.
  destruct Wp as [Np _], Wg as [Ng _].
  apply (store_each_allocates _ _ _ converts_plain) in E1, E2.
  apply (store_each_allocates _ _ _ converts_aware) in E3.
  destruct E1 as (arrs1 & -> & Len1 & F1 & _ & _).
  destruct E2 as (arrs2 & -> & Len2 & F2 & Nd2 & A2).
  destruct E3 as (arrs3 & -> & Len3 & F3 & Nd3 & A3).
  pose proof (frame_length _ _ F1) as L1.
  pose proof (frame_length _ _ F2) as L2.
  pose proof (frame_length _ _ F3) as L3.
  unfold pair_locs. cbn [fst snd].
  rewrite (comprehension_items (combine (keys pred) arrs1))
    by now rewrite keys_combine.
  rewrite loop_replaces by (rewrite !keys_combine; auto).
  rewrite comprehension_items by now rewrite keys_combine.
  rewrite !array_locs_combine by assumption.
  rewrite Forall_forall in A2, A3. split.
  - apply NoDup_app; [assumption | assumption |].
    intros l H3 H2. specialize (A3 _ H3). specialize (A2 _ H2).
    unfold allocated in *. lia.
  - apply Forall_app. split; apply Forall_forall; intros l Hl.
    + specialize (A3 _ Hl). unfold allocated in *. lia.
    + specialize (A2 _ Hl). unfold allocated in *. lia.
Qed.

Lemma for_samples_allocates (data_samples : list sample) :
  forall (pred gt p g : list converted) (w w' : world),
    for_samples process_sample data_samples pred gt w = (Ok (p, g), w') ->
    samples_wf (heap w) data_samples = true ->
    exists pgs,
      p = pred ++ map fst pgs
      /\ g = gt ++ map snd pgs
      /\ NoDup (flat_map pair_locs pgs)
      /\ Forall (allocated w w') (flat_map pair_locs pgs).
Proof.
  induction data_samples as [|smp rest IH]; intros pred gt p g w w' H Hwf;
    cbn in H.
  - injection H as <- <- <-. exists []. cbn. rewrite !app_nil_r.
    repeat split; constructor.
  - cbn in Hwf. apply andb_true_iff in Hwf. destruct Hwf as [W1 W2].
    unfold bind in H.
    destruct (process_sample smp w) as [[pg|e] w1] eqn:E; [|discriminate].
    pose proof (framed_process_sample _ _ _ _ E) as F1. cbv beta in F1.
    pose proof (frame_length _ _ F1) as L1.
    apply process_sample_allocates in E; [|exact W1].
    destruct E as [Nd1 A1].
    pose proof (framed_for_samples _ _ _ _ framed_process_sample _ _ _ H)
      as F2. cbv beta in F2.
    pose proof (frame_length _ _ F2) as L2.
    apply IH in H.
    2:{ unfold samples_wf in *. rewrite forallb_forall in *.
        intros s Hin. eapply sample_wf_mono; [exact L1 | auto]. }
    destruct H as (pgs & -> & -> & Nd2 & A2).
    exists (pg :: pgs). cbn. rewrite <- !app_assoc. cbn.
    split; [reflexivity|]. split; [reflexivity|].
    rewrite Forall_forall in A1, A2. split.
    + apply NoDup_app; [assumption | assumption |].
      intros l H1 H2. specialize (A1 _ H1). specialize (A2 _ H2).
      unfold allocated in *. lia.
    + apply Forall_app. split; apply Forall_forall; intros l Hl.
      * specialize (A1 _ Hl). unfold allocated in *. lia.
      * specialize (A2 _ Hl). unfold allocated in *. lia.
Qed.

(** X6.  The arrays a call of [process] accumulates view storages that
    the call allocated, and no two of them view the same storage: an
    accumulated array shares memory neither with an input, nor with an
    array accumulated earlier, nor with another array of the call. *)
Theorem process_accumulates_separate_arrays {Batch : Type}
    (data_batch : Batch) (data_samples : list sample) (w w' : world) :
  samples_wf (heap w) data_samples = true ->
  process data_batch data_samples w = (Ok tt, w') ->
  exists new,
    results w' = results w ++ new
    /\ NoDup (flat_map pair_locs new)
    /\ Forall (allocated w w') (flat_map pair_locs new).
Proof.
  intros Hwf H. unfold process, bind in H.
  destruct (for_samples process_sample data_samples [] [] w)
    as [[[p g]|e] w1] eqn:E; [|discriminate].
  pose proof (framed_for_samples _ _ _ _ framed_process_sample _ _ _ E) as F.
  cbv beta in F. destruct F as (_ & _ & _ & _ & Hr).
  apply for_samples_allocates in E; [|exact Hwf].
  destruct E as (pgs & -> & -> & Nd & A).
  unfold add in H. injection H as <-. cbn.
  exists pgs. rewrite combine_fst_snd, Hr. auto.
Qed.

Lemma process_accumulates_separate_arrays_witness :
  samples_wf (heap Examples.after_tensor_sample)
    [MoreExamples.second_sample] = true
  /\ process tt [MoreExamples.second_sample] Examples.after_tensor_sample
     = (Ok tt, MoreExamples.after_second_sample)
  /\ exists new,
      results MoreExamples.after_second_sample
      = results Examples.after_tensor_sample ++ new
      /\ NoDup (flat_map pair_locs new).
Proof.
  split; [reflexivity|]. split; [reflexivity|].
  destruct (process_accumulates_separate_arrays tt
              [MoreExamples.second_sample] Examples.after_tensor_sample
              MoreExamples.after_second_sample eq_refl eq_refl)
    as (new & H1 & H2 & _).
  exists new. split; assumption.
Defined.


(** ** How many calls [process] makes *)

Lemma convert_aware_exact (v : obj) (a : ndarray) (w w' : world) :
  convert_aware v w = (Ok a, w') ->
  exists l1 l2,
    calls w' = calls w
               ++ (if o_to v
                   then [Call m_to (o_loc v); Call m_clone l1; Call m_numpy l2]
                   else [Call m_clone (o_loc v); Call m_numpy l2]).
Proof.
  intros H. unfold convert_aware, hasattr_to, bind in H.
  destruct (o_to v).
  - destruct (to_cpu v w) as [[t|e] w1] eqn:E1; [|discriminate].
    destruct (clone t w1) as [[c|e] w2] eqn:E2; [|discriminate].
    apply to_cpu_ok in E1. destruct E1 as (C1 & _).
    apply clone_ok in E2. destruct E2 as (s2 & _ & -> & _ & C2).
    apply numpy_ok in H. cbn in H. destruct H as (_ & _ & C3 & _).
    exists (o_loc t), (length (heap w1)).
    rewrite C3, C2, C1. now rewrite <- !app_assoc.
  - destruct (clone v w) as [[c|e] w1] eqn:E1; [|discriminate].
    apply clone_ok in E1. destruct E1 as (s & _ & -> & _ & C1).
    apply numpy_ok in H. cbn in H. destruct H as (_ & _ & C3 & _).
    exists 0, (length (heap w)). rewrite C3, C1. now rewrite <- !app_assoc.
Qed.

Lemma converts_aware_exact : converts convert_aware aware_calls_exact.
Proof.
  intros v a w w' H. pose proof (convert_aware_exact _ _ _ _ H) as (l1 & l2 & E).
  apply convert_aware_ok in H. destruct H as (cs & Hc & _).
  exists cs. split; [exact Hc|]. intros n _.
  destruct Hc as (_ & C & _). rewrite C in E. apply app_inv_head in E.
  exists l1, l2. exact E.
Qed.

Lemma count_calls_app (m : method) (cs1 cs2 : list call) :
  count_calls m (cs1 ++ cs2) = count_calls m cs1 + count_calls m cs2.
Proof. unfold count_calls. now rewrite filter_app, length_app. Qed.

(** The calls of a loop over the fields, counted field by field. *)
Lemma count_loop_calls (shape : nat -> obj -> list call -> Prop)
    (m : method) (per_value : obj -> nat) (w w' : world) (items : fields)
    (acs : list (ndarray * list call)) :
  (forall n v cs, shape n v cs -> count_calls m cs = per_value v) ->
  Forall2 (item_done shape w w') items acs ->
  count_calls m (concat (map snd acs))
  = list_sum (map (fun kv => per_value (snd kv)) items).
Proof.
  intros Hs Hall.
  induction Hall as [|[k v] [a cs] items acs (_ & _ & Hcs) _ IH];
    cbn [map concat snd list_sum].
  - reflexivity.
  - rewrite count_calls_app, IH. cbn in Hcs. rewrite (Hs _ _ _ Hcs).
    reflexivity.
Qed.

Lemma list_sum_ones {A : Type} (l : list A) :
  list_sum (map (fun _ => 1) l) = length l.
Proof.
  induction l as [|x l IH]; [reflexivity|].
  cbn [map list_sum length fold_right]. unfold list_sum in *. cbn.
  now rewrite IH.
Qed.

Lemma list_sum_zeros {A : Type} (l : list A) :
  list_sum (map (fun _ => 0) l) = 0.
Proof.
  induction l as [|x l IH]; [reflexivity|].
  unfold list_sum in *. cbn. exact IH.
Qed.

Lemma list_sum_filter {A : Type} (f : A -> bool) (l : list A) :
  list_sum (map (fun x => if f x then 1 else 0) l) = length (filter f l).
Proof.
  induction l as [|x l IH]; [reflexivity|].
  unfold list_sum in *. cbn. destruct (f x); cbn; now rewrite IH.
Qed.

Lemma process_sample_counts (smp : sample) (w w' : world)
    (pg : converted * converted) :
  process_sample smp w = (Ok pg, w') ->
  exists cs,
    calls w' = calls w ++ cs
    /\ count_calls m_clone cs
       = 2 * length (fields_of "pred_pts_seg" smp)
         + length (fields_of "eval_ann_info" smp)
    /\ count_calls m_cpu cs
       = length (fields_of "pred_pts_seg" smp)
         + length (fields_of "eval_ann_info" smp)
    /\ count_calls m_numpy cs
       = 2 * length (fields_of "pred_pts_seg" smp)
         + length (fields_of "eval_ann_info" smp)
    /\ count_calls m_to cs
       = length (filter (fun kv => o_to (snd kv))
                        (fields_of "pred_pts_seg" smp)).
Proof.
  intros H. unfold process_sample, bind in H.
  destruct (getitem "pred_pts_seg" smp w) as [[pred|e] w0] eqn:G1;
    [|discriminate].
  apply getitem_ok in G1. destruct G1 as [G1 ->].
  destruct (getitem "eval_ann_info" smp w) as [[gt|e] w0] eqn:G2;
    [|discriminate].
  apply getitem_ok in G2. destruct G2 as [G2 ->].
  destruct (store_each convert_plain pred [] w) as [[c1|e] w1] eqn:E1;
    [|discriminate].
  destruct (store_each convert_plain gt [] w1) as [[c2|e] w2] eqn:E2;
    [|discriminate].
  destruct (store_each convert_aware pred c1 w2) as [[c3|e] w3] eqn:E3;
    [|discriminate].
  injection H as <- <-.
  destruct (store_each_ok _ _ _ converts_plain plain_calls_mono _ _ _ _ E1)
    as (acs1 & D1 & _ & _ & C1).
  destruct (store_each_ok _ _ _ converts_plain plain_calls_mono _ _ _ _ E2)
    as (acs2 & D2 & _ & _ & C2).
  destruct (store_each_ok convert_aware aware_calls_exact pred
              converts_aware_exact (fun _ _ _ _ _ H => H) _ _ _ _ E3)
    as (acs3 & D3 & _ & _ & C3).
  exists (concat (map snd acs1) ++ concat (map snd acs2)
            ++ concat (map snd acs3)).
  split; [rewrite C3, C2, C1; now rewrite <- !app_assoc|].
  unfold fields_of. rewrite G1, G2. rewrite !count_calls_app.
  assert (P1 : forall m, m <> m_to ->
                 forall n v cs, plain_calls n v cs -> count_calls m cs = 1).
  { intros m Hm n v cs (l1 & l2 & -> & _). destruct m; try reflexivity.
    now destruct Hm. }
  assert (P0 : forall n v cs, plain_calls n v cs -> count_calls m_to cs = 0).
  { intros n v cs (l1 & l2 & -> & _). reflexivity. }
  assert (A1 : forall m, m = m_clone \/ m = m_numpy ->
                 forall n v cs, aware_calls_exact n v cs ->
                                count_calls m cs = 1).
  { intros m Hm n v cs (l1 & l2 & ->).
    destruct Hm as [-> | ->]; destruct (o_to v); reflexivity. }
  assert (A0 : forall n v cs, aware_calls_exact n v cs ->
                              count_calls m_cpu cs = 0).
  { intros n v cs (l1 & l2 & ->). destruct (o_to v); reflexivity. }
  assert (At : forall n v cs, aware_calls_exact n v cs ->
                 count_calls m_to cs = if o_to v then 1 else 0).
  { intros n v cs (l1 & l2 & ->). destruct (o_to v); reflexivity. }
  rewrite (count_loop_calls _ m_clone (fun _ => 1) _ _ _ _
             (P1 m_clone ltac:(discriminate)) D1),
          (count_loop_calls _ m_clone (fun _ => 1) _ _ _ _
             (P1 m_clone ltac:(discriminate)) D2),
          (count_loop_calls _ m_clone (fun _ => 1) _ _ _ _
             (A1 m_clone (or_introl eq_refl)) D3),
          (count_loop_calls _ m_cpu (fun _ => 1) _ _ _ _
             (P1 m_cpu ltac:(discriminate)) D1),
          (count_loop_calls _ m_cpu (fun _ => 1) _ _ _ _
             (P1 m_cpu ltac:(discriminate)) D2),
          (count_loop_calls _ m_cpu (fun _ => 0) _ _ _ _ A0 D3),
          (count_loop_calls _ m_numpy (fun _ => 1) _ _ _ _
             (P1 m_numpy ltac:(discriminate)) D1),
          (count_loop_calls _ m_numpy (fun _ => 1) _ _ _ _
             (P1 m_numpy ltac:(discriminate)) D2),
          (count_loop_calls _ m_numpy (fun _ => 1) _ _ _ _
             (A1 m_numpy (or_intror eq_refl)) D3),
          (count_loop_calls _ m_to (fun _ => 0) _ _ _ _ P0 D1),
          (count_loop_calls _ m_to (fun _ => 0) _ _ _ _ P0 D2),
          (count_loop_calls _ m_to (fun v => if o_to v then 1 else 0)
             _ _ _ _ At D3).
  rewrite !list_sum_ones, !list_sum_zeros.
  rewrite (list_sum_filter (fun kv => o_to (snd kv)) pred).
  repeat split; lia.
Qed.

Lemma fields_in_cons (key : string) (smp : sample) (rest : list sample) :
  fields_in key (smp :: rest)
  = length (fields_of key smp) + fields_in key rest.
Proof. reflexivity. Qed.

Lemma values_with_to_cons (smp : sample) (rest : list sample) :
  values_with_to (smp :: rest)
  = length (filter (fun kv => o_to (snd kv)) (fields_of "pred_pts_seg" smp))
    + values_with_to rest.
Proof. reflexivity. Qed.

Lemma for_samples_counts (data_samples : list sample) :
  forall (pred gt : list converted) (w w' : world)
         (pg : list converted * list converted),
    for_samples process_sample data_samples pred gt w = (Ok pg, w') ->
    exists cs,
      calls w' = calls w ++ cs
      /\ count_calls m_clone cs
         = 2 * fields_in "pred_pts_seg" data_samples
           + fields_in "eval_ann_info" data_samples
      /\ count_calls m_cpu cs
         = fields_in "pred_pts_seg" data_samples
           + fields_in "eval_ann_info" data_samples
      /\ count_calls m_numpy cs
         = 2 * fields_in "pred_pts_seg" data_samples
           + fields_in "eval_ann_info" data_samples
      /\ count_calls m_to cs = values_with_to data_samples.
Proof.
  induction data_samples as [|smp rest IH]; intros pred gt w w' pg H; cbn in H.
  - injection H as <- <-. exists []. rewrite app_nil_r. repeat split.
  - unfold bind in H.
    destruct (process_sample smp w) as [[pg1|e] w1] eqn:E; [|discriminate].
    apply process_sample_counts in E.
    destruct E as (cs1 & C1 & K1 & K2 & K3 & K4).
    apply IH in H. destruct H as (cs2 & C2 & J1 & J2 & J3 & J4).
    exists (cs1 ++ cs2). split; [rewrite C2, C1; now rewrite <- app_assoc|].
    rewrite !count_calls_app, K1, K2, K3, K4, J1, J2, J3, J4.
    rewrite !fields_in_cons, values_with_to_cons.
    repeat split; lia.
Qed.

(** X7.  A call of [process] that returns has invoked [clone] twice for
    every prediction field and once for every ground-truth field, [cpu]
    once for every field, [numpy] as often as [clone], and [to] once for
    every prediction value that has it: the dict comprehension over the
    prediction costs one clone, one transfer and one array for each field,
    all of them discarded. *)
Theorem process_call_counts {Batch : Type} (data_batch : Batch)
    (data_samples : list sample) (w w' : world) :
  process data_batch data_samples w = (Ok tt, w') ->
  exists cs,
    calls w' = calls w ++ cs
    /\ count_calls m_clone cs
       = 2 * fields_in "pred_pts_seg" data_samples
         + fields_in "eval_ann_info" data_samples
    /\ count_calls m_cpu cs
       = fields_in "pred_pts_seg" data_samples
         + fields_in "eval_ann_info" data_samples
    /\ count_calls m_numpy cs
       = 2 * fields_in "pred_pts_seg" data_samples
         + fields_in "eval_ann_info" data_samples
    /\ count_calls m_to cs = values_with_to data_samples.
Proof.
  intros H. unfold process, bind in H.
  destruct (for_samples process_sample data_samples [] [] w)
    as [[pg|e] w1] eqn:E; [|discriminate].
  apply for_samples_counts in E. destruct E as (cs & C & K).
  unfold add in H. injection H as <-. cbn. exists cs. split; assumption.
Qed.

Lemma process_call_counts_witness :
  process tt [MoreExamples.second_sample] Examples.after_tensor_sample
  = (Ok tt, MoreExamples.after_second_sample)
  /\ exists cs,
      calls MoreExamples.after_second_sample
      = calls Examples.after_tensor_sample ++ cs
      /\ count_calls m_clone cs = 5.
Proof.
  split; [reflexivity|].
  destruct (process_call_counts tt [MoreExamples.second_sample]
              Examples.after_tensor_sample MoreExamples.after_second_sample
              eq_refl) as (cs & H1 & H2 & _).
  exists cs. split; [exact H1 | exact H2].
Defined.


(** ** Reading a formatted value back *)

Lemma digit_value_digit (n : Z) : digit_value (digit n) = (n mod 10)%Z.
Proof.
  unfold digit_value, digit.
  assert (H : (0 <= n mod 10 < 10)%Z) by (apply Z.mod_pos_bound; lia).
  rewrite nat_ascii_embedding by lia. lia.
Qed.

Lemma read_to_point_digit (n : Z) (s : string) (acc : Z) :
  read_to_point (String (digit n) s) acc
  = read_to_point s (10 * acc + n mod 10).
Proof.
  cbn [read_to_point].
  now rewrite digit_not_point, digit_is_digit, digit_value_digit.
Qed.

Lemma read_to_point_digits (fuel : nat) :
  forall (n : Z) (acc : string),
    (0 <= n < 2 ^ Z.of_nat fuel)%Z ->
    read_to_point (digits fuel n acc) 0 = read_to_point acc n.
Proof.
  induction fuel as [|fuel IH]; intros n acc Hn.
  - cbn in Hn. assert (n = 0%Z) by lia. now subst.
  - cbn [digits].
    assert (Hd : (0 <= n / 10)%Z) by (apply Z.div_pos; lia).
    assert (Hm : (n = 10 * (n / 10) + n mod 10)%Z) by (apply Z.div_mod; lia).
    destruct (n / 10 =? 0)%Z eqn:E.
    + apply Z.eqb_eq in E. rewrite read_to_point_digit.
      f_equal. lia.
    + apply Z.eqb_neq in E. rewrite IH.
      * rewrite read_to_point_digit. f_equal. lia.
      * split; [exact Hd|].
        rewrite Nat2Z.inj_succ, Z.pow_succ_r in Hn by lia.
        apply Z.div_lt_upper_bound; lia.
Qed.

Lemma read_to_point_decimal (n : Z) (rest : string) :
  (0 <= n)%Z ->
  read_to_point (decimal n ++ rest)%string 0 = read_to_point rest n.
Proof.
  intros Hn. unfold decimal. rewrite digits_append. cbn [append].
  apply read_to_point_digits. split; [exact Hn|].
  destruct (Z.eq_dec n 0) as [->|Hz]; [reflexivity|].
  rewrite Nat2Z.inj_succ, Z2Nat.id by apply Z.log2_nonneg.
  apply Z.log2_spec. lia.
Qed.

Lemma read_digits_fraction4 (r : Z) :
  (0 <= r < 10000)%Z -> read_digits (fraction4 r) 0 = r.
Proof.
  intros Hr. unfold fraction4. cbn [read_digits].
  rewrite !digit_value_digit.
  pose proof (Z.div_mod r 10 ltac:(lia)).
  pose proof (Z.div_mod (r / 10) 10 ltac:(lia)).
  pose proof (Z.div_mod (r / 100) 10 ltac:(lia)).
  pose proof (Z.div_mod (r / 1000) 10 ltac:(lia)).
  assert (r / 100 = r / 10 / 10)%Z by (rewrite Z.div_div by lia; reflexivity).
  assert (r / 1000 = r / 100 / 10)%Z by (rewrite Z.div_div by lia; reflexivity).
  assert (r / 1000 < 10)%Z by (apply Z.div_lt_upper_bound; lia).
  assert (0 <= r / 1000)%Z by (apply Z.div_pos; lia).
  assert ((r / 1000) mod 10 = r / 1000)%Z by (apply Z.mod_small; lia).
  lia.
Qed.

Lemma read_unsigned_fixed4 (n : Z) :
  (0 <= n)%Z -> read_unsigned (fixed4 false n) = Some n.
Proof.
  intros Hn. unfold read_unsigned, fixed4. cbn [append].
  rewrite read_to_point_decimal by (apply Z.div_pos; lia).
  cbn [append read_to_point]. cbn [Ascii.eqb Bool.eqb].
  assert (Hr : (0 <= n mod 10000 < 10000)%Z) by (apply Z.mod_pos_bound; lia).
  rewrite read_digits_fraction4 by exact Hr.
  assert (Hf : (String.length (fraction4 (n mod 10000)) =? 4)%nat
               && all_digits (fraction4 (n mod 10000)) = true).
  { unfold fraction4. cbn [String.length all_digits Nat.eqb andb].
    now rewrite !digit_is_digit. }
  rewrite Hf. f_equal. pose proof (Z.div_mod n 10000 ltac:(lia)). lia.
Qed.

Lemma read_fixed4_fixed4 (negative : bool) (n : Z) :
  (0 <= n)%Z -> read_fixed4 (fixed4 negative n) = Some (negative, n).
Proof.
  intros Hn. destruct negative.
  - unfold read_fixed4.
    change (fixed4 true n) with (String "-" (fixed4 false n)).
    assert (E : read_unsigned (String "-" (fixed4 false n)) = None)
      by reflexivity.
    rewrite E. cbv beta iota. rewrite Ascii.eqb_refl.
    now rewrite read_unsigned_fixed4.
  - unfold read_fixed4. now rewrite read_unsigned_fixed4.
Qed.

Lemma round_half_even_nearest (num den : Z) :
  (0 <= num)%Z -> (0 < den)%Z ->
  (0 <= round_half_even num den)%Z
  /\ (Z.abs (2 * (round_half_even num den * den - num)) <= den)%Z.
Proof.
  intros Hn Hd. unfold round_half_even.
  pose proof (Z.div_mod num den ltac:(lia)) as Hdm.
  pose proof (Z.mod_pos_bound num den Hd) as Hr.
  assert (Hq : (0 <= num / den)%Z) by (apply Z.div_pos; lia).
  destruct (Z.compare_spec (2 * (num mod den)) den) as [E|L|G].
  - destruct (Z.even (num / den)); split; nia.
  - split; nia.
  - split; nia.
Qed.

(** X10.  The text ['.4f'] produces for a finite nonzero value with sign
    [s] and magnitude [m * 2^e] reads back as the sign [s] and a whole
    number [n] of ten-thousandths within one half of the magnitude times
    10^4: every AP value in the table is shown rounded to the nearest
    0.0001.  (The magnitude times 10^4 is written as the fraction
    [m * 2^p * 10^4 / 2^q] with [p = max 0 e] and [q = max 0 (-e)].) *)
Theorem format_4f_reads_back_rounded (s : bool) (m : positive) (e : Z) :
  exists n : Z,
    read_fixed4 (format_4f (S754_finite s m e)) = Some (s, n)
    /\ (Z.abs (2 * (n * 2 ^ Z.max 0 (- e)
                   - Zpos m * 2 ^ Z.max 0 e * 10000))
        <= 2 ^ Z.max 0 (- e))%Z.
Proof.
  exists (scaled4 m e). cbn [format_4f]. unfold scaled4.
  destruct (0 <=? e)%Z eqn:E.
  - apply Z.leb_le in E.
    assert (0 < 2 ^ e)%Z by (apply Z.pow_pos_nonneg; lia).
    split; [apply read_fixed4_fixed4; nia|].
    rewrite (Z.max_l 0 (- e)), (Z.max_r 0 e) by lia.
    rewrite Z.pow_0_r, Z.mul_1_r.
    replace (Z.pos m * 2 ^ e * 10000 - Z.pos m * 2 ^ e * 10000)%Z with 0%Z
      by lia.
    cbn. lia.
  - apply Z.leb_gt in E.
    assert (Hd : (0 < 2 ^ (- e))%Z) by (apply Z.pow_pos_nonneg; lia).
    destruct (round_half_even_nearest (Zpos m * 10000) (2 ^ (- e))
                ltac:(lia) Hd) as [H0 H1].
    split; [now apply read_fixed4_fixed4|].
    rewrite (Z.max_r 0 (- e)), (Z.max_l 0 e) by lia.
    rewrite Z.pow_0_r, Z.mul_1_r. exact H1.
Qed.

(** What Python's [float] gives back for the texts of the examples above:
    0.1235 for 0.12345, and -0.0000 for -0.00001. *)
Example read_fixed4_values :
  read_fixed4 "0.1235" = Some (false, 1235%Z)
  /\ read_fixed4 "-0.0000" = Some (true, 0%Z)
  /\ read_fixed4 "123456.7890" = Some (false, 1234567890%Z)
  /\ read_fixed4 "nan" = None.
Proof. repeat split. Qed.


(** ** The rendered table is a rectangle *)

Lemma string_length_append (s1 s2 : string) :
  String.length (s1 ++ s2) = String.length s1 + String.length s2.
Proof. induction s1 as [|c s1 IH]; cbn; [reflexivity | now rewrite IH]. Qed.

Lemma concat_length (sep1 sep2 : string) (l1 l2 : list string) :
  String.length sep1 = String.length sep2 ->
  map String.length l1 = map String.length l2 ->
  String.length (String.concat sep1 l1) = String.length (String.concat sep2 l2).
Proof.
  intros Hs. revert l2.
  induction l1 as [|x l1 IH]; intros [|y l2] H; cbn in H; try discriminate.
  - reflexivity.
  - injection H as Hx Hl. specialize (IH _ Hl).
    destruct l1 as [|x' l1], l2 as [|y' l2]; try discriminate.
    + exact Hx.
    + cbn [String.concat] in *.
      rewrite !string_length_append, Hx, Hs, IH. reflexivity.
Qed.

Lemma repeat_char_length (c : ascii) (n : nat) :
  String.length (repeat_char c n) = n.
Proof. induction n as [|n IH]; cbn; [reflexivity | now rewrite IH]. Qed.

Lemma pad_cell_length (t : AsciiTable) (w : nat) (cell : string) :
  String.length cell <= w ->
  String.length (pad_cell t w cell) = padding_left t + w + padding_right t.
Proof.
  intros H. unfold pad_cell.
  rewrite !string_length_append, !repeat_char_length. lia.
Qed.

Lemma fits_nil (widths : list nat) : fits widths [] = true.
Proof. now destruct widths. Qed.

Lemma pad_cells_lengths (t : AsciiTable) (widths : list nat) :
  forall row,
    fits widths row = true ->
    map String.length (pad_cells t widths row)
    = map (fun w => padding_left t + w + padding_right t) widths.
Proof.
  induction widths as [|w widths IH]; intros row H; [reflexivity|].
  destruct row as [|c row]; cbn [pad_cells map].
  - rewrite pad_cell_length by (cbn; lia). f_equal. apply IH, fits_nil.
  - cbn in H. apply andb_true_iff in H. destruct H as [H1 H2].
    apply Nat.leb_le in H1. rewrite pad_cell_length by exact H1.
    f_equal. now apply IH.
Qed.

(** A row whose cells fit is rendered as wide as a border. *)
Lemma row_line_length (t : AsciiTable) (widths : list nat) (row : list string) :
  fits widths row = true ->
  String.length (row_line t widths row)
  = String.length (horizontal_border t widths).
Proof.
  intros H. unfold row_line, horizontal_border, combine_line.
  rewrite !string_length_append.
  rewrite (concat_length (if inner_column_border t then "|" else "")
             (if inner_column_border t then "+" else "")
             (pad_cells t widths row)
             (map (fun w => repeat_char "-"
                              (padding_left t + w + padding_right t))
                  widths)).
  - now destruct (outer_border t).
  - now destruct (inner_column_border t).
  - rewrite (pad_cells_lengths _ _ _ H), map_map.
    apply map_ext. intros w. now rewrite repeat_char_length.
Qed.

Lemma fits_widen_self (row : list string) :
  forall widths, fits (widen row widths) row = true.
Proof.
  induction row as [|c row IH]; intros widths; [apply fits_nil|].
  destruct widths as [|w widths]; cbn.
  - now rewrite Nat.leb_refl, IH.
  - rewrite IH, andb_true_r. apply Nat.leb_le. lia.
Qed.

Lemma fits_widen_other (row' : list string) :
  forall widths row,
    fits widths row = true -> fits (widen row' widths) row = true.
Proof.
  induction row' as [|c' row' IH]; intros widths row H; [exact H|].
  destruct row as [|c row]; [apply fits_nil|].
  destruct widths as [|w widths]; [discriminate|].
  cbn in *. apply andb_true_iff in H. destruct H as [H1 H2].
  rewrite (IH _ _ H2), andb_true_r.
  apply Nat.leb_le in H1. apply Nat.leb_le. lia.
Qed.

Lemma fits_fold_widen (data : list (list string)) :
  forall widths row,
    fits widths row = true \/ In row data ->
    fits (fold_left (fun ws r => widen r ws) data widths) row = true.
Proof.
  induction data as [|r data IH]; intros widths row H; cbn.
  - destruct H as [H|[]]. exact H.
  - apply IH. destruct H as [H|[<-|H]].
    + left. now apply fits_widen_other.
    + left. apply fits_widen_self.
    + now right.
Qed.

Lemma gen_body_cells (t : AsciiTable) (row_count : Z) (s : style)
    (row : list string) (rows : list (list string)) :
  forall i, In (Cells s row) (gen_body t row_count i rows) -> In row rows.
Proof.
  induction rows as [|r rows IH]; intros i H; cbn [gen_body] in H;
    [contradiction|].
  destruct H as [H|H]; [injection H as _ <-; now left|].
  destruct (i =? row_count - 1)%Z; [contradiction|].
  apply in_app_or in H. destruct H as [H|H]; [|right; eapply IH; exact H].
  exfalso.
  destruct (inner_heading_row_border t && (i =? 0)%Z);
    [destruct H as [H|[]]; discriminate|].
  destruct (inner_footing_row_border t && (i =? row_count - 2)%Z);
    [destruct H as [H|[]]; discriminate|].
  destruct (inner_row_border t); [destruct H as [H|[]]; discriminate|].
  contradiction.
Qed.

(** Every line of a rendered table is as wide as its borders. *)
Lemma table_lines_width (t : AsciiTable) (l : line) :
  In l (gen_table t) ->
  String.length (render_line t (inner_widths t) l)
  = String.length (horizontal_border t (inner_widths t)).
Proof.
  intros H. destruct l as [s|s row]; [reflexivity|].
  cbn [render_line]. apply row_line_length.
  unfold inner_widths. apply fits_fold_widen. right.
  unfold gen_table in H.
  apply in_app_or in H. destruct H as [H|H].
  { destruct (outer_border t); [destruct H as [H|[]]; discriminate|].
    contradiction. }
  apply in_app_or in H. destruct H as [H|H].
  - eapply gen_body_cells. exact H.
  - destruct (outer_border t); [destruct H as [H|[]]; discriminate|].
    contradiction.
Qed.

(** *** Lines of printable characters *)

Lemma plain_append (s1 s2 : string) :
  plain (s1 ++ s2) = plain s1 && plain s2.
Proof.
  induction s1 as [|c s1 IH]; cbn; [reflexivity|].
  now rewrite IH, andb_assoc.
Qed.

Lemma plain_concat (sep : string) (l : list string) :
  plain sep = true -> Forall (fun s => plain s = true) l ->
  plain (String.concat sep l) = true.
Proof.
  intros Hs H. induction H as [|x l Hx Hl IH]; [reflexivity|].
  destruct l as [|y l]; [exact Hx|].
  cbn [String.concat] in *. now rewrite !plain_append, Hx, Hs, IH.
Qed.

Lemma plain_repeat_char (c : ascii) (n : nat) :
  printable c = true -> plain (repeat_char c n) = true.
Proof. intros H. induction n as [|n IH]; cbn; [reflexivity | now rewrite H]. Qed.

Lemma plain_combine_line (items : list string) (left center right : string) :
  plain left = true -> plain center = true -> plain right = true ->
  Forall (fun s => plain s = true) items ->
  plain (combine_line items left center right) = true.
Proof.
  intros Hl Hc Hr H. unfold combine_line.
  now rewrite !plain_append, Hl, Hr, plain_concat.
Qed.

Lemma plain_horizontal_border (t : AsciiTable) (widths : list nat) :
  plain (horizontal_border t widths) = true.
Proof.
  unfold horizontal_border. apply plain_combine_line.
  - now destruct (outer_border t).
  - now destruct (inner_column_border t).
  - now destruct (outer_border t).
  - apply Forall_forall. intros s Hs. apply in_map_iff in Hs.
    destruct Hs as (w & <- & _). now apply plain_repeat_char.
Qed.

Lemma plain_pad_cell (t : AsciiTable) (w : nat) (cell : string) :
  plain cell = true -> plain (pad_cell t w cell) = true.
Proof.
  intros H. unfold pad_cell.
  now rewrite !plain_append, H, !plain_repeat_char.
Qed.

Lemma plain_pad_cells (t : AsciiTable) (widths : list nat) :
  forall row,
    Forall (fun s => plain s = true) row ->
    Forall (fun s => plain s = true) (pad_cells t widths row).
Proof.
  induction widths as [|w widths IH]; intros row H; cbn; [constructor|].
  destruct row as [|c row].
  - constructor; [now apply plain_pad_cell | now apply IH].
  - inversion H; subst. constructor; [now apply plain_pad_cell | now apply IH].
Qed.

Lemma plain_row_line (t : AsciiTable) (widths : list nat) (row : list string) :
  Forall (fun s => plain s = true) row ->
  plain (row_line t widths row) = true.
Proof.
  intros H. unfold row_line. apply plain_combine_line.
  - now destruct (outer_border t).
  - now destruct (inner_column_border t).
  - now destruct (outer_border t).
  - now apply plain_pad_cells.
Qed.

Lemma is_digit_printable (c : ascii) : is_digit c = true -> printable c = true.
Proof.
  unfold is_digit, printable. cbv zeta.
  rewrite !andb_true_iff, !Nat.leb_le. lia.
Qed.

Lemma plain_digits (fuel : nat) :
  forall n acc, plain acc = true -> plain (digits fuel n acc) = true.
Proof.
  induction fuel as [|fuel IH]; intros n acc H; cbn [digits]; [exact H|].
  assert (H' : plain (String (digit n) acc) = true).
  { cbn [plain]. now rewrite (is_digit_printable _ (digit_is_digit n)). }
  destruct (n / 10 =? 0)%Z; [exact H' | now apply IH].
Qed.

Lemma plain_fixed4 (negative : bool) (n : Z) : plain (fixed4 negative n) = true.
Proof.
  unfold fixed4, decimal, fraction4. rewrite !plain_append.
  rewrite plain_digits by reflexivity.
  cbn [plain].
  rewrite !(is_digit_printable _ (digit_is_digit _)).
  now destruct negative.
Qed.

Lemma plain_format_4f (x : spec_float) : plain (format_4f x) = true.
Proof.
  destruct x as [s|s| |s m e]; cbn [format_4f];
    try apply plain_fixed4; try reflexivity.
  now destruct s.
Qed.

(** The cells of the report table are printable when the labels are. *)
Lemma plain_report_cells (metrics : report) (row : list string) :
  plain_labels metrics = true ->
  In row (table_data (report_table metrics)) ->
  Forall (fun s => plain s = true) row.
Proof.
  intros Hl H. cbn in H. destruct H as [<-|H].
  { repeat constructor. }
  apply in_app_or in H. destruct H as [H|[<-|[]]].
  - unfold class_rows in H. apply in_map_iff in H.
    destruct H as ([label data] & <- & Hin).
    unfold plain_labels in Hl. rewrite forallb_forall in Hl.
    specialize (Hl _ Hin). cbn in *.
    repeat constructor; try assumption; apply plain_format_4f.
  - unfold footer. cbn [map].
    repeat constructor; apply plain_format_4f.
Qed.

Lemma gen_table_cells (t : AsciiTable) (s : style) (row : list string) :
  In (Cells s row) (gen_table t) -> In row (table_data t).
Proof.
  intros H. unfold gen_table in H.
  apply in_app_or in H. destruct H as [H|H].
  { destruct (outer_border t); [destruct H as [H|[]]; discriminate|].
    contradiction. }
  apply in_app_or in H. destruct H as [H|H].
  - eapply gen_body_cells. exact H.
  - destruct (outer_border t); [destruct H as [H|[]]; discriminate|].
    contradiction.
Qed.

(** X9.  The table [evaluate] logs is a rectangle, when the class labels
    are texts of printable ASCII characters.  The message handed to the
    logger is a line break followed by lines joined by line breaks; no
    line has a line break inside; there is one line for the header, one
    for each class and one for the footer, between a top and a bottom
    border, with a border under the header and, when there is a class,
    one above the footer; and all these lines have the same length. *)
Theorem logged_table_is_rectangular (Args : Type)
    (compute_metric :
       Args -> list (dict (option storage) * dict (option storage)) -> res report)
    (args : Args) (w : world) (metrics : report) :
  compute_metric args (snapshot w) = Ok metrics ->
  plain_labels metrics = true ->
  exists w' lines width,
    evaluate Args compute_metric args w = (Ok metrics, w')
    /\ logged w'
       = logged w ++ [(newline ++ String.concat newline lines)%string]
    /\ length lines
       = length (classes metrics)
         + match classes metrics with [] => 5 | _ :: _ => 6 end
    /\ Forall (fun l => plain l = true /\ String.length l = width) lines.
Proof.
  intros H Hl. rewrite evaluate_run, H.
  set (t := report_table metrics).
  eexists. exists (map (render_line t (inner_widths t)) (gen_table t)).
  exists (String.length (horizontal_border t (inner_widths t))).
  split; [reflexivity|]. split; [reflexivity|]. split.
  - rewrite length_map. unfold t. rewrite gen_table_report. unfold class_rows.
    destruct (classes metrics) as [|c cs]; [reflexivity|].
    cbn [map app length]. rewrite !length_app, !length_map.
    cbn [length]. lia.
  - apply Forall_forall. intros l Hin. apply in_map_iff in Hin.
    destruct Hin as (ln & <- & Hin). split.
    + destruct ln as [s|s row]; cbn [render_line].
      * apply plain_horizontal_border.
      * apply plain_row_line. apply (plain_report_cells metrics); [exact Hl|].
        eapply gen_table_cells. exact Hin.
    + now apply table_lines_width.
Qed.

Lemma logged_table_is_rectangular_witness :
  Examples.constant_metric tt (snapshot Examples.start)
  = Ok Examples.chair_table
  /\ plain_labels Examples.chair_table = true
  /\ exists w' lines width,
      evaluate unit Examples.constant_metric tt Examples.start
      = (Ok Examples.chair_table, w')
      /\ logged w'
         = logged Examples.start
             ++ [(newline ++ String.concat newline lines)%string]
      /\ length lines
         = length (classes Examples.chair_table)
           + match classes Examples.chair_table with
             | [] => 5
             | _ :: _ => 6
             end
      /\ Forall (fun l => plain l = true /\ String.length l = width) lines.
Proof.
  split; [reflexivity|]. split; [reflexivity|].
  exact (logged_table_is_rectangular unit Examples.constant_metric tt
           Examples.start Examples.chair_table eq_refl eq_refl).
Defined.
